(** * Baby-shower gift registry worker: funding ledger, access guard and
      chat action pipeline

    A shallow embedding of the Cloudflare worker (the single TypeScript
    entry point with all route handlers) together with the D1 schema it runs
    against, and the properties of the funding ledger, the login limiter and
    the chat action extraction that the design document states.

    Modelling conventions.

    - JavaScript numbers and SQLite REAL values are IEEE 754 binary64:
      they are Rocq's primitive [float], with the comparisons, [Math.min],
      [isFinite] and truthiness written out as ECMAScript defines them.
    - Row ids are integers ([Z]); tables are finite maps from the primary
      key to the row ([gmap]).
    - Strings are sequences of code units ([string]); the model ranges over
      code units below 256.
    - Request bodies, and the object parsed from the extractor's text, are
      read through the type that the handler casts them to: every field is
      optional, and a field that is present has its declared type.
    - A handler either returns a response together with the new store or
      throws; the top-level [fetch] turns a throw into status 500.  Every
      handler performs at most one write (a statement or a batch), which the
      store applies atomically, so a throw leaves the store as it was.
    - The two language-model calls and [JSON.parse] are supplied by the
      platform: they are parameters of the model, and every theorem holds
      for all of them. *)

From Stdlib Require Import ZArith String Ascii List Bool Lia Floats.
From stdpp Require Import gmap strings.

Local Open Scope Z_scope.
Local Open Scope string_scope.

(* ================================================================== *)
(** ** Numbers *)
(* ================================================================== *)

Module Js.

(** [Math.min(a, b)]: NaN if either argument is NaN, and -0 is smaller
    than +0. *)
Definition Math_min (a b : float) : float :=
  if is_nan a || is_nan b then nan
  else if (a <? b)%float then a
  else if (b <? a)%float then b
  else if get_sign a then a else b.

(** [isFinite(x)]. *)
Definition isFinite (x : float) : bool := is_finite x.

(** [!x] for a number: true for +0, -0 and NaN. *)
Definition falsy (x : float) : bool := is_zero x || is_nan x.

(** [Number(v)] for a field typed [number | undefined]. *)
Definition Number (v : option float) : float :=
  match v with Some x => x | None => nan end.

(** [Number(null)]. *)
Definition Number_null : float := 0%float.

(** A row id as a JavaScript number (row ids stay below 2^53). *)
Definition of_id (id : Z) : float := of_uint63 (Uint63.of_Z id).

(** The number that a run of digits denotes, as an integer: the double
    nearest to [n], ties to even.  That is [n] itself below 2^53 and [n]
    rounded to 53 significant bits beyond.  From 2^1024 on the number is
    Infinity, which is bound as NULL and matches no row; neither does the
    integer given here, row ids being below 2^63. *)
Definition nearest_double (n : Z) : Z :=
  let a := Z.abs n in
  if (a <? 2 ^ 53)%Z then n
  else
    let k := (Z.log2 a - 52)%Z in
    let q := Z.shiftr a k in
    let rest := (a - Z.shiftl q k)%Z in
    let half := (2 ^ (k - 1))%Z in
    let up := (half <? rest)%Z || ((half =? rest)%Z && Z.odd q) in
    (Z.sgn n * Z.shiftl (if up then q + 1 else q) k)%Z.

End Js.

(* ================================================================== *)
(** ** Strings *)
(* ================================================================== *)

Module Str.

Definition code (c : ascii) : nat := nat_of_ascii c.

(** The class [[\x00-\x1F\x7F]]. *)
Definition is_control (c : ascii) : bool :=
  (code c <=? 31)%nat || (code c =? 127)%nat.

(** White space and line terminators that [String.prototype.trim]
    removes, among the code units below 256. *)
Definition is_space (c : ascii) : bool :=
  ((9 <=? code c)%nat && (code c <=? 13)%nat)
  || (code c =? 32)%nat || (code c =? 160)%nat.

Definition is_digit (c : ascii) : bool :=
  (48 <=? code c)%nat && (code c <=? 57)%nat.

Fixpoint map (f : ascii -> ascii) (s : string) : string :=
  match s with
  | EmptyString => EmptyString
  | String c r => String (f c) (map f r)
  end.

Fixpoint trimStart (s : string) : string :=
  match s with
  | EmptyString => EmptyString
  | String c r => if is_space c then trimStart r else s
  end.

Fixpoint trimEnd (s : string) : string :=
  match s with
  | EmptyString => EmptyString
  | String c r =>
      match trimEnd r with
      | EmptyString => if is_space c then EmptyString else String c EmptyString
      | r' => String c r'
      end
  end.

(** [s.trim()]. *)
Definition trim (s : string) : string := trimEnd (trimStart s).

(** [s.slice(0, n)]. *)
Fixpoint slice0 (n : nat) (s : string) : string :=
  match n, s with
  | S n', String c r => String c (slice0 n' r)
  | _, _ => EmptyString
  end.

(** [s.slice(-n)] on a list: the last [n] elements. *)
Definition last_n {A} (n : nat) (l : list A) : list A :=
  skipn (List.length l - n) l.

Fixpoint contains (c : ascii) (s : string) : bool :=
  match s with
  | EmptyString => false
  | String d r => Ascii.eqb c d || contains c r
  end.

(** The text before the first occurrence of [c] (all of [s] if none):
    [s.split(c)[0]]. *)
Fixpoint before (c : ascii) (s : string) : string :=
  match s with
  | EmptyString => EmptyString
  | String d r => if Ascii.eqb c d then EmptyString else String d (before c r)
  end.

(** The text after the last occurrence of [c] (all of [s] if none): the
    last element of [s.split(c)]. *)
Fixpoint after_last (c : ascii) (s : string) : string :=
  match s with
  | EmptyString => EmptyString
  | String d r =>
      if contains c s then (if contains c r then after_last c r else r)
      else s
  end.

(** The text up to and including the first occurrence of [c], when there
    is one. *)
Fixpoint through (c : ascii) (s : string) : option string :=
  match s with
  | EmptyString => None
  | String d r =>
      if Ascii.eqb c d then Some (String d EmptyString)
      else option_map (String d) (through c r)
  end.

(** The suffix that starts at the first occurrence of [c]. *)
Fixpoint from (c : ascii) (s : string) : option string :=
  match s with
  | EmptyString => None
  | String d r => if Ascii.eqb c d then Some s else from c r
  end.

Fixpoint all (p : ascii -> bool) (s : string) : bool :=
  match s with
  | EmptyString => true
  | String c r => p c && all p r
  end.

Fixpoint drop (n : nat) (s : string) : string :=
  match n, s with
  | S n', String _ r => drop n' r
  | _, _ => s
  end.

Definition upper (c : ascii) : ascii :=
  if (97 <=? code c)%nat && (code c <=? 122)%nat
  then ascii_of_nat (code c - 32) else c.

(** [s.toUpperCase()] on the ASCII letters. *)
Definition toUpperCase (s : string) : string := map upper s.

(** The value of a run of decimal digits, most significant first. *)
Fixpoint digits (acc : Z) (s : string) : Z :=
  match s with
  | EmptyString => acc
  | String c r =>
      if is_digit c then digits (10 * acc + Z.of_nat (code c - 48)) r else acc
  end.

(** [parseInt(s, 10)]: optional white space and sign, then the longest
    run of digits, read as a number: the double nearest to the integer
    that the digits denote.  [None] is NaN. *)
Definition parseInt (s : string) : option Z :=
  match trimStart s with
  | String "-" (String c r) =>
      if is_digit c then Some (- Js.nearest_double (digits 0 (String c r)))
      else None
  | String "+" (String c r) =>
      if is_digit c then Some (Js.nearest_double (digits 0 (String c r)))
      else None
  | String c r =>
      if is_digit c then Some (Js.nearest_double (digits 0 (String c r)))
      else None
  | EmptyString => None
  end.

(** [re.test(s)] for [re = /^<prefix>\d+$/]. *)
Definition test_prefix_digits (pre s : string) : bool :=
  String.prefix pre s
  && match drop (String.length pre) s with
     | EmptyString => false
     | ds => all is_digit ds
     end.

(** [s.replace(/\[CONTRIBUTION:[^\]]*\]/gs, "")].  A match runs from an
    opening ["[CONTRIBUTION:"] to the first ["]"] after it; [skipping]
    is set while the scan is inside a match. *)
Fixpoint strip_markers (skipping : bool) (s : string) : string :=
  match s with
  | EmptyString => EmptyString
  | String c r =>
      if skipping then strip_markers (negb (Ascii.eqb c "]")) r
      else if String.prefix "[CONTRIBUTION:" s && contains "]" r
           then strip_markers true r
           else String c (strip_markers false r)
  end.

(** [s.match(/\{[\s\S]*?\}/)]: the lazy match runs from the first ["{"]
    that has a ["}"] after it to the first such ["}"]. *)
Definition match_braces (s : string) : option string :=
  match from "{" s with
  | Some t => through "}" t
  | None => None
  end.

End Str.

(** [!s] for a string. *)
Definition blank (s : string) : bool :=
  match s with EmptyString => true | _ => false end.

(** [a || b] on strings. *)
Definition or_else (a b : string) : string := if blank a then b else a.

Definition MAX_MESSAGE_LENGTH : nat := 300.
Definition MAX_NAME_LENGTH : nat := 100.
Definition MAX_GENERIC_STRING : nat := 500.

(** Strip control characters and hard-cap length; a value that is not a
    string gives the empty string. *)
Definition sanitise (value : option string) (maxLen : nat) : string :=
  match value with
  | None => EmptyString
  | Some v =>
      Str.slice0 maxLen
        (Str.trim (Str.map (fun c => if Str.is_control c then " "%char else c) v))
  end.

(* ================================================================== *)
(** ** The store: tables, constraints and statements *)
(* ================================================================== *)

(** A row of [items]; the primary key [id] is the key of the table.  The
    column [is_funded] is INTEGER with CHECK (is_funded IN (0,1)): [true]
    is 1. *)
Record Item := {
  title : string;
  description : string;
  image_url : string;
  product_url : string;
  price_total : float;
  price_raised : float;
  is_funded : bool;
  created_at : string
}.

(** A row of [contributions], keyed by its [id]. *)
Record Contribution := {
  item_id : Z;
  contributor_name : string;
  contributor_ip : option string;
  amount : float;
  message : string;
  c_created_at : string
}.

(** The database: the three tables, and for the two AUTOINCREMENT tables
    the largest row id handed out so far.  [chat_rate_limit] has the
    primary key (ip, day). *)
Record DB := {
  items : gmap Z Item;
  items_seq : Z;
  contributions : gmap Z Contribution;
  contributions_seq : Z;
  chat_rate_limit : gmap (string * string) Z
}.

(** A contribution joined with the title of its item
    ([SELECT c.*, i.title AS item_title ... JOIN items i ON c.item_id = i.id]). *)
Record ContributionRow := {
  row_id : Z;
  row : Contribution;
  item_title : string
}.

(** The prepared statements of the worker, with their bound parameters. *)
Inductive Statement :=
  (** INSERT INTO items (title, description, image_url, product_url, price_total) *)
  | InsertItem (t d i p : string) (total : float)
  (** UPDATE items SET title=?, description=?, image_url=?, product_url=?,
      price_total=?, is_funded=? WHERE id=? *)
  | UpdateItem (t d i p : string) (total funded : float) (id : Z)
  (** DELETE FROM items WHERE id=? *)
  | DeleteItem (id : Z)
  (** INSERT INTO contributions (item_id, contributor_name, amount, message,
      contributor_ip) *)
  | InsertContribution (item : Z) (name : string) (amt : float)
                       (msg ip : string)
  (** UPDATE items SET price_raised=?, is_funded=? WHERE id=? *)
  | SetItemFunding (raised : float) (funded : bool) (id : Z)
  (** DELETE FROM contributions WHERE id=? *)
  | DeleteContribution (id : Z)
  (** UPDATE items SET price_raised = MAX(0, price_raised - ?), is_funded = 0
      WHERE id=? *)
  | RefundItem (amt : float) (item : Z)
  (** DELETE FROM chat_rate_limit WHERE ip=? AND day=? *)
  | DeleteAttempts (ip day : string)
  (** INSERT INTO chat_rate_limit (ip, day, count) VALUES (?, ?, 1)
      ON CONFLICT(ip, day) DO UPDATE SET count = count + 1 *)
  | CountAttempt (ip day : string).

(** Row and table updates. *)
Definition set_funding (raised : float) (funded : bool) (it : Item) : Item :=
  {| title := title it; description := description it;
     image_url := image_url it; product_url := product_url it;
     price_total := price_total it; price_raised := raised;
     is_funded := funded; created_at := created_at it |}.

Definition set_details (t d i p : string) (total : float) (funded : bool)
    (it : Item) : Item :=
  {| title := t; description := d; image_url := i; product_url := p;
     price_total := total; price_raised := price_raised it;
     is_funded := funded; created_at := created_at it |}.

Definition set_items (m : gmap Z Item) (seq : Z) (db : DB) : DB :=
  {| items := m; items_seq := seq;
     contributions := contributions db;
     contributions_seq := contributions_seq db;
     chat_rate_limit := chat_rate_limit db |}.

Definition set_contributions (m : gmap Z Contribution) (seq : Z) (db : DB) : DB :=
  {| items := items db; items_seq := items_seq db;
     contributions := m; contributions_seq := seq;
     chat_rate_limit := chat_rate_limit db |}.

Definition set_chat_rate_limit (m : gmap (string * string) Z) (db : DB) : DB :=
  {| items := items db; items_seq := items_seq db;
     contributions := contributions db;
     contributions_seq := contributions_seq db;
     chat_rate_limit := m |}.

Module Sql.

(** A number bound to a REAL NOT NULL column with CHECK (x >= 0).  The
    parameters of a statement travel as JSON, where a number that is not
    finite (NaN, Infinity) is [null]: it is bound as NULL, which NOT NULL
    refuses. *)
Definition nonneg (x : float) : bool := Js.isFinite x && (0 <=? x)%float.

(** A number bound to a REAL NOT NULL column with CHECK (x > 0). *)
Definition positive (x : float) : bool := Js.isFinite x && (0 <? x)%float.

(** CHECK (length(s) > 0). *)
Definition nonempty (s : string) : bool := negb (blank s).

(** CHECK (is_funded IN (0,1)) on a bound number. *)
Definition flag (x : float) : option bool :=
  if (x =? 1)%float then Some true
  else if (x =? 0)%float then Some false
  else None.

(** [MAX(0, x)] for an [x] that the statement computes: NULL when [x] is
    NULL (a NaN), which NOT NULL refuses; on a tie the first argument, 0,
    is returned.  The result passes CHECK (price_raised >= 0). *)
Definition max0 (x : float) : option float :=
  if is_nan x then None
  else Some (if (0 <? x)%float then x else 0%float).

(** The effect of one statement; [None] is a constraint failure.  [now] is
    [datetime('now')].  An AUTOINCREMENT key is one more than the largest
    handed out so far; a foreign key must name an existing item, and
    deleting an item deletes its contributions; an UPDATE whose WHERE
    matches no row changes nothing. *)
Definition exec (now : string) (s : Statement) (db : DB) : option DB :=
  match s with
  | InsertItem t d i p total =>
      if nonempty t && nonneg total then
        let id := items_seq db + 1 in
        Some (set_items
                (<[id := {| title := t; description := d; image_url := i;
                            product_url := p; price_total := total;
                            price_raised := 0%float; is_funded := false;
                            created_at := now |}]> (items db))
                id db)
      else None
  | UpdateItem t d i p total funded id =>
      match items db !! id with
      | None => Some db
      | Some it =>
          match flag funded with
          | Some f =>
              if nonempty t && nonneg total then
                Some (set_items
                        (<[id := set_details t d i p total f it]> (items db))
                        (items_seq db) db)
              else None
          | None => None
          end
      end
  | DeleteItem id =>
      Some (set_contributions
              (filter (fun kc => item_id kc.2 ≠ id) (contributions db))
              (contributions_seq db)
              (set_items (delete id (items db)) (items_seq db) db))
  | InsertContribution item name amt msg ip =>
      match items db !! item with
      | None => None
      | Some _ =>
          if nonempty name && positive amt then
            let id := contributions_seq db + 1 in
            Some (set_contributions
                    (<[id := {| item_id := item; contributor_name := name;
                                contributor_ip := Some ip; amount := amt;
                                message := msg; c_created_at := now |}]>
                       (contributions db))
                    id db)
          else None
      end
  | SetItemFunding raised funded id =>
      match items db !! id with
      | None => Some db
      | Some it =>
          if nonneg raised then
            Some (set_items (<[id := set_funding raised funded it]> (items db))
                            (items_seq db) db)
          else None
      end
  | DeleteContribution id =>
      Some (set_contributions (delete id (contributions db))
                              (contributions_seq db) db)
  | RefundItem amt item =>
      match items db !! item with
      | None => Some db
      | Some it =>
          if Js.isFinite amt then
            match max0 (price_raised it - amt)%float with
            | None => None
            | Some raised =>
                Some (set_items
                        (<[item := set_funding raised false it]> (items db))
                        (items_seq db) db)
            end
          else None
      end
  | DeleteAttempts ip day =>
      Some (set_chat_rate_limit (delete (ip, day) (chat_rate_limit db)) db)
  | CountAttempt ip day =>
      let count :=
        match chat_rate_limit db !! (ip, day) with
        | Some n => n + 1
        | None => 1
        end in
      Some (set_chat_rate_limit (<[(ip, day) := count]> (chat_rate_limit db)) db)
  end.

(** [env.DB.batch(stmts)]: the statements in order, all or nothing. *)
Fixpoint batch (now : string) (stmts : list Statement) (db : DB) : option DB :=
  match stmts with
  | [] => Some db
  | s :: rest =>
      match exec now s db with
      | Some db' => batch now rest db'
      | None => None
      end
  end.

Fixpoint insert_by {A} (le : A -> A -> bool) (x : A) (l : list A) : list A :=
  match l with
  | [] => [x]
  | y :: r => if le x y then x :: l else y :: insert_by le x r
  end.

(** ORDER BY, as an insertion sort on the comparison [le]. *)
Definition order_by {A} (le : A -> A -> bool) (l : list A) : list A :=
  fold_right (insert_by le) [] l.

Definition bool_cmp (a b : bool) : comparison :=
  match a, b with
  | false, true => Lt
  | true, false => Gt
  | _, _ => Eq
  end.

Definition then_cmp (c d : comparison) : comparison :=
  match c with Eq => d | _ => c end.

Definition is_le (c : comparison) : bool :=
  match c with Gt => false | _ => true end.

End Sql.

Definition chr (n : nat) : string := String (ascii_of_nat n) EmptyString.

(** "Doação Geral para Mobilía/Obras". *)
Definition GENERIC_DONATION_TITLE : string :=
  "Doa" +:+ chr 231 +:+ chr 227 +:+ "o Geral para Mobil" +:+ chr 237
  +:+ "a/Obras".

(** ORDER BY CASE WHEN title = GENERIC_DONATION_TITLE THEN 1 ELSE 0 END ASC,
    is_funded ASC, created_at ASC.  Rows that tie, which SQLite may return
    in any order, are listed by id. *)
Definition items_order (a b : Z * Item) : bool :=
  Sql.is_le
    (Sql.then_cmp
       (Sql.bool_cmp (String.eqb (title a.2) GENERIC_DONATION_TITLE)
                     (String.eqb (title b.2) GENERIC_DONATION_TITLE))
       (Sql.then_cmp
          (Sql.bool_cmp (is_funded a.2) (is_funded b.2))
          (Sql.then_cmp (String.compare (created_at a.2) (created_at b.2))
                        (Z.compare a.1 b.1)))).

(** SELECT ... FROM items ORDER BY ... *)
Definition select_items (db : DB) : list (Z * Item) :=
  Sql.order_by items_order (map_to_list (items db)).

(** ORDER BY c.created_at DESC.  Rows that tie, which SQLite may return
    in any order, are listed by id. *)
Definition contributions_order (a b : ContributionRow) : bool :=
  Sql.is_le
    (Sql.then_cmp
       (String.compare (c_created_at (row b)) (c_created_at (row a)))
       (Z.compare (row_id a) (row_id b))).

(** The join of one contribution with its item. *)
Definition join_item (db : DB) (kc : Z * Contribution) : option ContributionRow :=
  match items db !! item_id kc.2 with
  | Some it => Some {| row_id := kc.1; row := kc.2; item_title := title it |}
  | None => None
  end.

(** SELECT c.*, i.title AS item_title FROM contributions c
    JOIN items i ON c.item_id = i.id [WHERE <keep c>] ORDER BY c.created_at DESC *)
Definition select_contributions (keep : Contribution -> bool) (db : DB)
  : list ContributionRow :=
  Sql.order_by contributions_order
    (omap (join_item db)
          (List.filter (fun kc => keep kc.2) (map_to_list (contributions db)))).

(** [WHERE c.contributor_ip = ?]. *)
Definition owned_by (ip : string) (c : Contribution) : bool :=
  match contributor_ip c with
  | Some ip' => String.eqb ip' ip
  | None => false
  end.

(* ================================================================== *)
(** ** Requests, responses and the environment *)
(* ================================================================== *)

Record ChatMsg := { role : string; content : string }.

(** The JSON body of a request, as the handlers read it. *)
Record Body := {
  b_title : option string;
  b_description : option string;
  b_image_url : option string;
  b_product_url : option string;
  (** [Number(body.price_total)] and [Number(body.is_funded)]; [None] when
      the field is [undefined]. *)
  b_price_total : option float;
  b_is_funded : option float;
  (** [parseInt(String(body.item_id), 10)]; [None] is NaN. *)
  b_item_id : option Z;
  b_contributor_name : option string;
  b_amount : option float;
  b_message : option string;
  b_history : option (list ChatMsg);
  b_password : option string
}.

Record Request := {
  method : string;
  (** [new URL(request.url).pathname] *)
  pathname : string;
  headers : gmap string string;
  (** [await request.json()]; [None] when the body is not JSON and the call
      rejects. *)
  json : option Body
}.

(** [data.name] of the parsed object, which may be a JSON value of any
    type, as the handler looks at it: whether it is truthy and, when it
    is, the text [String(data.name)].  For a string that is the string
    itself, truthy unless empty; an empty array is truthy and its text is
    empty. *)
Inductive NameField :=
  | Falsy
  | Truthy (text : string).

(** The object that [JSON.parse] gives for the extractor's text, each field
    as the handler reads it: [data.action] when it is a string;
    [Number(...)] of the two ids and of the amount, [None] when the field
    is absent; [String(data.message)], [None] when the field is absent or
    null.  [data.item_title] stands in for a title that is null, which
    the title of a stored contribution never is. *)
Record ExtractorData := {
  d_action : option string;
  d_item_id : option float;
  d_name : NameField;
  d_amount : option float;
  d_message : option string;
  d_contribution_id : option float;
  d_item_title : option string
}.

Record ContributionPending := {
  cp_item_id : Z;
  cp_item_title : string;
  cp_name : string;
  cp_amount : float;
  cp_message : string
}.

Record CancellationPending := {
  xp_contribution_id : Z;
  xp_item_title : string;
  xp_amount : float
}.

(** The JSON values the handlers answer with. *)
Inductive Json :=
  | JError (error : string)
  | JSuccess
  | JId (id : Z)
  | JApplied (applied_amount new_raised : float) (funded : bool)
  | JItems (rows : list (Z * Item))
  | JContributions (rows : list ContributionRow)
  | JChat (reply : string) (contribution_pending : option ContributionPending)
          (cancellation_pending : option CancellationPending).

Record Response := {
  status : Z;
  body : option Json;
  (** Access-Control-Allow-Origin, which fixes the CORS headers. *)
  allow_origin : string
}.

(** What a call of [env.AI.run] is given.  The prompt texts are functions
    of these data. *)
Inductive AiCall :=
  | Responder (gifts : list (Z * Item)) (mine : list ContributionRow)
              (history : list ChatMsg) (message : string)
  | Extractor (gifts : list (Z * Item)) (mine : list ContributionRow)
              (history : list ChatMsg) (message reply : string).

(** A call of [env.AI.run] rejects, or resolves to an object whose
    [response] may be missing. *)
Inductive AiResult :=
  | AiRejects
  | AiResolves (response : option string).

Record Env := {
  AI : AiCall -> AiResult;
  ADMIN_PASSWORD : string;
  GUEST_PASSWORD : string;
  FRONTEND_ORIGIN : option string
}.

(** The globals the worker reads: [JSON.parse] on the extractor's text
    ([None] when it throws), the clock as [new Date().toISOString()] cut to
    the date, and as SQLite's [datetime('now')]. *)
Record Globals := {
  JSON_parse : string -> option ExtractorData;
  todayUTC : string;
  datetime_now : string
}.

(** A handler returns a response and the store it leaves, or throws. *)
Inductive Outcome :=
  | Returns (r : Response) (db : DB)
  | Throws.

Definition jsonResponse (data : Json) (status : Z) (origin : string) : Response :=
  {| status := status; body := Some data; allow_origin := origin |}.

Definition isAdmin (request : Request) (env : Env) : bool :=
  match headers request !! "X-Admin-Password" with
  | Some header => String.eqb header (ADMIN_PASSWORD env)
  | None => false
  end.

Definition isGuest (request : Request) (env : Env) : bool :=
  match headers request !! "X-Guest-Password" with
  | Some header => String.eqb header (GUEST_PASSWORD env)
  | None => false
  end.

Definition extractId (pathname : string) : option Z :=
  Str.parseInt (Str.after_last "/" pathname).

(** Get caller IP from CF headers. *)
Definition getIP (request : Request) : string :=
  match headers request !! "CF-Connecting-IP" with
  | Some ip => ip
  | None =>
      match headers request !! "X-Forwarded-For" with
      | Some fwd => Str.trim (Str.before "," fwd)
      | None => "unknown"
      end
  end.

(** [await stmt.run()] and [await env.DB.batch(stmts)] followed by the
    handler's final response. *)
Definition commit (r : Response) (written : option DB) : Outcome :=
  match written with
  | Some db' => Returns r db'
  | None => Throws
  end.

Definition unauthorized (origin : string) : Response :=
  jsonResponse (JError "Unauthorized") 401 origin.

(* ================================================================== *)
(** ** Route handlers *)
(* ================================================================== *)

Definition handleGetItems (db : DB) (origin : string) : Outcome :=
  Returns (jsonResponse (JItems (select_items db)) 200 origin) db.

Definition handleCreateItem (g : Globals) (request : Request) (env : Env)
    (origin : string) (db : DB) : Outcome :=
  if negb (isAdmin request env) then Returns (unauthorized origin) db
  else
    match json request with
    | None => Throws
    | Some body =>
        let title := sanitise (b_title body) MAX_GENERIC_STRING in
        if blank title then
          Returns (jsonResponse (JError "title is required") 400 origin) db
        else
          match b_price_total body with
          | None =>
              Returns (jsonResponse (JError "price_total must be >= 0") 400 origin) db
          | Some total =>
              if (total <? 0)%float then
                Returns (jsonResponse (JError "price_total must be >= 0") 400 origin) db
              else
                commit (jsonResponse (JId (items_seq db + 1)) 201 origin)
                  (Sql.exec (datetime_now g)
                     (InsertItem title
                        (sanitise (b_description body) MAX_GENERIC_STRING)
                        (sanitise (b_image_url body) MAX_GENERIC_STRING)
                        (sanitise (b_product_url body) MAX_GENERIC_STRING)
                        total) db)
          end
    end.

Definition handleUpdateItem (g : Globals) (request : Request) (env : Env)
    (origin : string) (id : option Z) (db : DB) : Outcome :=
  if negb (isAdmin request env) then Returns (unauthorized origin) db
  else
    match id with
    | None => Returns (jsonResponse (JError "Invalid ID") 400 origin) db
    | Some id =>
        match json request with
        | None => Throws
        | Some body =>
            let title := sanitise (b_title body) MAX_GENERIC_STRING in
            if blank title then
              Returns (jsonResponse (JError "title is required") 400 origin) db
            else
              match items db !! id with
              | None => Returns (jsonResponse (JError "Item not found") 404 origin) db
              | Some existing =>
                  commit (jsonResponse JSuccess 200 origin)
                    (Sql.exec (datetime_now g)
                       (UpdateItem title
                          (or_else (sanitise (b_description body) MAX_GENERIC_STRING)
                                   (description existing))
                          (or_else (sanitise (b_image_url body) MAX_GENERIC_STRING)
                                   (image_url existing))
                          (or_else (sanitise (b_product_url body) MAX_GENERIC_STRING)
                                   (product_url existing))
                          (match b_price_total body with
                           | Some total => total
                           | None => price_total existing
                           end)
                          (match b_is_funded body with
                           | Some funded => funded
                           | None => if is_funded existing then 1%float else 0%float
                           end)
                          id) db)
              end
        end
    end.

Definition handleDeleteItem (g : Globals) (request : Request) (env : Env)
    (origin : string) (id : option Z) (db : DB) : Outcome :=
  if negb (isAdmin request env) then Returns (unauthorized origin) db
  else
    match id with
    | None => Returns (jsonResponse (JError "Invalid ID") 400 origin) db
    | Some id =>
        commit (jsonResponse JSuccess 200 origin)
          (Sql.exec (datetime_now g) (DeleteItem id) db)
    end.

Definition handleGetContributions (request : Request) (env : Env)
    (origin : string) (db : DB) : Outcome :=
  if negb (isAdmin request env) then Returns (unauthorized origin) db
  else
    Returns (jsonResponse (JContributions (select_contributions (fun _ => true) db))
               200 origin) db.

Definition handleCreateContribution (g : Globals) (request : Request) (env : Env)
    (origin : string) (db : DB) : Outcome :=
  if negb (isGuest request env) && negb (isAdmin request env)
  then Returns (unauthorized origin) db
  else
    match json request with
    | None => Throws
    | Some body =>
        match b_item_id body with
        | None | Some 0 =>
            Returns (jsonResponse (JError "item_id is required") 400 origin) db
        | Some itemId =>
            let name := sanitise (b_contributor_name body) MAX_NAME_LENGTH in
            if blank name then
              Returns (jsonResponse (JError "contributor_name is required") 400 origin) db
            else
              let amount := Js.Number (b_amount body) in
              if Js.falsy amount || (amount <=? 0)%float || negb (Js.isFinite amount)
              then Returns (jsonResponse (JError "amount must be > 0") 400 origin) db
              else
                match items db !! itemId with
                | None =>
                    Returns (jsonResponse (JError "Item not found") 404 origin) db
                | Some item =>
                    if is_funded item then
                      Returns (jsonResponse
                                 (JError "This item is already fully funded")
                                 409 origin) db
                    else
                      let remaining := (price_total item - price_raised item)%float in
                      let appliedAmount := Js.Math_min amount remaining in
                      let newRaised := (price_raised item + appliedAmount)%float in
                      let isFunded := (price_total item <=? newRaised)%float in
                      let contributorIp := getIP request in
                      commit
                        (jsonResponse (JApplied appliedAmount newRaised isFunded)
                                      201 origin)
                        (Sql.batch (datetime_now g)
                           [ InsertContribution itemId name appliedAmount
                               (sanitise (b_message body) MAX_MESSAGE_LENGTH)
                               contributorIp;
                             SetItemFunding newRaised isFunded itemId ] db)
                end
        end
    end.

Definition handleGetMyContributions (request : Request) (env : Env)
    (origin : string) (db : DB) : Outcome :=
  if negb (isGuest request env) && negb (isAdmin request env)
  then Returns (unauthorized origin) db
  else
    let ip := getIP request in
    Returns (jsonResponse (JContributions (select_contributions (owned_by ip) db))
               200 origin) db.

(** "Não encontrado". *)
Definition NOT_FOUND_PT : string := "N" +:+ chr 227 +:+ "o encontrado".

Definition handleDeleteMyContribution (g : Globals) (request : Request) (env : Env)
    (origin : string) (id : option Z) (db : DB) : Outcome :=
  if negb (isGuest request env) && negb (isAdmin request env)
  then Returns (unauthorized origin) db
  else
    let ip := getIP request in
    let contribution :=
      match id with
      | Some id =>
          match contributions db !! id with
          | Some c => if owned_by ip c then Some (id, c) else None
          | None => None
          end
      | None => None
      end in
    match contribution with
    | None => Returns (jsonResponse (JError NOT_FOUND_PT) 404 origin) db
    | Some (id, c) =>
        commit (jsonResponse JSuccess 200 origin)
          (Sql.batch (datetime_now g)
             [ DeleteContribution id; RefundItem (amount c) (item_id c) ] db)
    end.

Definition handleAdminDeleteContribution (g : Globals) (request : Request)
    (env : Env) (origin : string) (id : option Z) (db : DB) : Outcome :=
  if negb (isAdmin request env) then Returns (unauthorized origin) db
  else
    let contribution :=
      match id with
      | Some id =>
          match contributions db !! id with
          | Some c => Some (id, c)
          | None => None
          end
      | None => None
      end in
    match contribution with
    | None => Returns (jsonResponse (JError "Not found") 404 origin) db
    | Some (id, c) =>
        commit (jsonResponse JSuccess 200 origin)
          (Sql.batch (datetime_now g)
             [ DeleteContribution id; RefundItem (amount c) (item_id c) ] db)
    end.

Definition APOLOGY : string :=
  "Estou com dificuldades em responder agora. Por favor tenta novamente!".

(** [data.name] is truthy. *)
Definition truthy (n : NameField) : bool :=
  match n with
  | Truthy _ => true
  | Falsy => false
  end.

(** [String(data.name)], read only when [data.name] is truthy. *)
Definition name_text (n : NameField) : string :=
  match n with
  | Truthy text => text
  | Falsy => EmptyString
  end.

(** The checks of the parsed object against the two snapshots of the
    turn: what is put forward for confirmation. *)
Definition proposal (items : list (Z * Item))
    (myContributions : list ContributionRow) (data : ExtractorData)
  : option ContributionPending * option CancellationPending :=
  if match d_action data with
     | Some a => String.eqb a "contribute"
     | None => false
     end
  then
    match List.find
            (fun i => (Js.of_id i.1 =? Js.Number (d_item_id data))%float)
            items with
    | Some item =>
        if truthy (d_name data)
           && (0 <? Js.Number (d_amount data))%float
           && negb (is_funded item.2)
        then
          (Some {| cp_item_id := item.1;
                   cp_item_title := title item.2;
                   cp_name := name_text (d_name data);
                   cp_amount := Js.Number (d_amount data);
                   cp_message := default EmptyString (d_message data) |},
           None)
        else (None, None)
    | None => (None, None)
    end
  else if match d_action data with
          | Some a => String.eqb a "cancel"
          | None => false
          end
  then
    match List.find
            (fun c => (Js.of_id (row_id c)
                       =? Js.Number (d_contribution_id data))%float)
            myContributions with
    | Some existing =>
        (None,
         Some {| xp_contribution_id := row_id existing;
                 xp_item_title := item_title existing;
                 xp_amount := amount (row existing) |})
    | None => (None, None)
    end
  else (None, None).

(** The [try] block of [handleChat]: the proposal read from the
    extractor's text.  A [JSON.parse] that throws is caught and leaves
    both results null. *)
Definition pending (g : Globals) (items : list (Z * Item))
    (myContributions : list ContributionRow) (extractorRaw : string)
  : option ContributionPending * option CancellationPending :=
  match Str.match_braces extractorRaw with
  | None => (None, None)
  | Some jsonMatch =>
      match JSON_parse g jsonMatch with
      | None => (None, None)
      | Some data => proposal items myContributions data
      end
  end.

Definition handleChat (g : Globals) (request : Request) (env : Env)
    (origin : string) (db : DB) : Outcome :=
  if negb (isGuest request env) && negb (isAdmin request env)
  then Returns (unauthorized origin) db
  else
    match json request with
    | None => Throws
    | Some body =>
        let message := sanitise (b_message body) MAX_MESSAGE_LENGTH in
        if blank message then
          Returns (jsonResponse (JError "message is required") 400 origin) db
        else
          let ip := getIP request in
          let items := select_items db in
          let myContributions := select_contributions (owned_by ip) db in
          let history := Str.last_n 10 (default [] (b_history body)) in
          match AI env (Responder items myContributions history message) with
          | AiRejects => Throws
          | AiResolves response =>
              let rawReply := default APOLOGY response in
              let reply := Str.trim (Str.strip_markers false rawReply) in
              match AI env (Extractor items myContributions history message reply) with
              | AiRejects => Throws
              | AiResolves response' =>
                  let extractorRaw := default "null" response' in
                  let '(contributionPending, cancellationPending) :=
                    pending g items myContributions extractorRaw in
                  Returns (jsonResponse
                             (JChat reply contributionPending cancellationPending)
                             200 origin) db
              end
          end
    end.

(** The body shared by [handleAdminAuth] and [handleGuestAuth], which
    differ in the prefix of the counter's key, the secret compared and the
    text of the 401 answer. *)
Definition handleAuth (prefix : string) (secret : string) (wrong : string)
    (g : Globals) (request : Request) (origin : string) (db : DB) : Outcome :=
  let ip := default "unknown" (headers request !! "CF-Connecting-IP") in
  let day := todayUTC g in
  let attempts := default 0 (chat_rate_limit db !! (prefix +:+ ip, day)) in
  if (10 <=? attempts)%Z then
    Returns (jsonResponse (JError "Too many attempts. Try again tomorrow.")
                          429 origin) db
  else
    match json request with
    | None => Throws
    | Some body =>
        if match b_password body with
           | Some password => String.eqb password secret
           | None => false
           end
        then
          commit (jsonResponse JSuccess 200 origin)
            (Sql.exec (datetime_now g) (DeleteAttempts (prefix +:+ ip) day) db)
        else
          commit (jsonResponse (JError wrong) 401 origin)
            (Sql.exec (datetime_now g) (CountAttempt (prefix +:+ ip) day) db)
    end.

Definition handleAdminAuth (g : Globals) (request : Request) (env : Env)
    (origin : string) (db : DB) : Outcome :=
  handleAuth "admin:" (ADMIN_PASSWORD env) "Incorrect password" g request origin db.

Definition handleGuestAuth (g : Globals) (request : Request) (env : Env)
    (origin : string) (db : DB) : Outcome :=
  handleAuth "guest:" (GUEST_PASSWORD env) "Palavra-passe incorreta" g request origin db.

(* ================================================================== *)
(** ** Main fetch handler *)
(* ================================================================== *)

(** The routing inside the [try] of [fetch]. *)
Definition route (g : Globals) (request : Request) (env : Env)
    (origin : string) (db : DB) : Outcome :=
  let method := Str.toUpperCase (method request) in
  let pathname := pathname request in
  if String.eqb method "GET" && String.eqb pathname "/api/items" then
    handleGetItems db origin
  else if String.eqb method "POST" && String.eqb pathname "/api/items" then
    handleCreateItem g request env origin db
  else if String.eqb method "PUT" && Str.test_prefix_digits "/api/items/" pathname then
    handleUpdateItem g request env origin (extractId pathname) db
  else if String.eqb method "DELETE" && Str.test_prefix_digits "/api/items/" pathname then
    handleDeleteItem g request env origin (extractId pathname) db
  else if String.eqb method "GET" && String.eqb pathname "/api/contributions" then
    handleGetContributions request env origin db
  else if String.eqb method "POST" && String.eqb pathname "/api/contributions" then
    handleCreateContribution g request env origin db
  else if String.eqb method "DELETE"
          && Str.test_prefix_digits "/api/contributions/" pathname then
    handleAdminDeleteContribution g request env origin (extractId pathname) db
  else if String.eqb method "GET" && String.eqb pathname "/api/my-contributions" then
    handleGetMyContributions request env origin db
  else if String.eqb method "DELETE"
          && Str.test_prefix_digits "/api/my-contributions/" pathname then
    handleDeleteMyContribution g request env origin (extractId pathname) db
  else if String.eqb method "POST" && String.eqb pathname "/api/chat" then
    handleChat g request env origin db
  else if String.eqb method "POST" && String.eqb pathname "/api/admin/auth" then
    handleAdminAuth g request env origin db
  else if String.eqb method "POST" && String.eqb pathname "/api/guest/auth" then
    handleGuestAuth g request env origin db
  else Returns (jsonResponse (JError "Not Found") 404 origin) db.

(** [fetch]: the CORS preflight, then the routes; whatever a handler
    throws is answered with status 500. *)
Definition fetch (g : Globals) (request : Request) (env : Env) (db : DB)
  : Response * DB :=
  let origin := default "*" (FRONTEND_ORIGIN env) in
  if String.eqb (Str.toUpperCase (method request)) "OPTIONS" then
    ({| status := 204; body := None; allow_origin := origin |}, db)
  else
    match route g request env origin db with
    | Returns r db' => (r, db')
    | Throws => (jsonResponse (JError "Internal Server Error") 500 origin, db)
    end.

(* ================================================================== *)
(** ** The pages: escaping of server data *)
(* ================================================================== *)

Module Frontend.

(** [s.replace(/c/g, new)] for one character [c]. *)
Fixpoint replace_all (c : ascii) (new : string) (s : string) : string :=
  match s with
  | EmptyString => EmptyString
  | String d r =>
      if Ascii.eqb d c then new +:+ replace_all c new r
      else String d (replace_all c new r)
  end.

(** The double quote. *)
Definition quot : ascii := ascii_of_nat 34.

(** [escHtml(str)] of the guest and the admin page; [None] is [null] or
    [undefined], which [str ?? ''] turns into the empty string. *)
Definition escHtml (str : option string) : string :=
  replace_all "'" "&#39;"
    (replace_all quot "&quot;"
       (replace_all ">" "&gt;"
          (replace_all "<" "&lt;"
             (replace_all "&" "&amp;" (default EmptyString str))))).

End Frontend.

(* ================================================================== *)
(** ** A reference [JSON.parse] for closed examples *)
(* ================================================================== *)

(** The theorems hold for every [JSON_parse].  The examples that run the
    worker on concrete requests use this parser, which reads flat objects
    like those of the extractor's two formats: members whose values are
    strings without escapes, decimal numbers without exponent, the
    literals or the empty array.  It rejects every other text, and the
    texts in which a field holds a value whose number or text it does not
    compute. *)
Module RefJson.

Inductive value :=
  | VString (s : string)
  | VNumber (x : float)
  | VTrue
  | VFalse
  | VNull
  | VEmptyArray.

Definition dquote : ascii := ascii_of_nat 34.

(** JSON white space. *)
Definition ws (c : ascii) : bool :=
  let n := Str.code c in
  (n =? 32)%nat || (n =? 9)%nat || (n =? 10)%nat || (n =? 13)%nat.

Fixpoint skip_ws (s : string) : string :=
  match s with
  | String c r => if ws c then skip_ws r else s
  | EmptyString => s
  end.

(** The characters of a string up to its closing quote, and the rest. *)
Fixpoint chars (s : string) : option (string * string) :=
  match s with
  | EmptyString => None
  | String c r =>
      if Ascii.eqb c dquote then Some (EmptyString, r)
      else if Ascii.eqb c "\" || (Str.code c <? 32)%nat then None
      else match chars r with
           | Some (t, rest) => Some (String c t, rest)
           | None => None
           end
  end.

(** A run of digits: its value, its length, and the rest. *)
Fixpoint run (acc : Z) (len : nat) (s : string) : Z * nat * string :=
  match s with
  | String c r =>
      if Str.is_digit c
      then run (10 * acc + Z.of_nat (Str.code c - 48)) (S len) r
      else (acc, len, s)
  | EmptyString => (acc, len, s)
  end.

(** A number [int(.frac)?] of at most 15 digits, which the division
    below rounds correctly. *)
Definition unsigned (s : string) : option (float * string) :=
  let '(i, ni, r) := run 0 0 s in
  match ni with
  | O => None
  | _ =>
      if (1 <? ni)%nat && String.prefix "0" s then None
      else
        let '(m, nf, rest) :=
          match r with
          | String "." r' => run i 0 r'
          | _ => (i, 1%nat, r)
          end in
        let k := match r with String "." _ => nf | _ => O end in
        match nf with
        | O => None
        | _ =>
            if (15 <? ni + k)%nat then None
            else Some ((of_uint63 (Uint63.of_Z m)
                        / of_uint63 (Uint63.of_Z (10 ^ Z.of_nat k)))%float,
                       rest)
        end
  end.

Definition scalar (s : string) : option (value * string) :=
  match s with
  | EmptyString => None
  | String c r =>
      if Ascii.eqb c dquote then
        match chars r with
        | Some (t, rest) => Some (VString t, rest)
        | None => None
        end
      else if Ascii.eqb c "-" then
        match unsigned r with
        | Some (x, rest) => Some (VNumber (- x)%float, rest)
        | None => None
        end
      else if Ascii.eqb c "[" then
        match skip_ws r with
        | String "]" rest => Some (VEmptyArray, rest)
        | _ => None
        end
      else if String.prefix "true" s then Some (VTrue, Str.drop 4 s)
      else if String.prefix "false" s then Some (VFalse, Str.drop 5 s)
      else if String.prefix "null" s then Some (VNull, Str.drop 4 s)
      else match unsigned s with
           | Some (x, rest) => Some (VNumber x, rest)
           | None => None
           end
  end.

(** The members after the opening brace, up to the closing one. *)
Fixpoint members (fuel : nat) (s : string) (acc : list (string * value))
  : option (list (string * value) * string) :=
  match fuel with
  | O => None
  | S fuel' =>
      match skip_ws s with
      | String c r =>
          if Ascii.eqb c dquote then
            match chars r with
            | Some (key, r1) =>
                match skip_ws r1 with
                | String ":" r2 =>
                    match scalar (skip_ws r2) with
                    | Some (v, r3) =>
                        match skip_ws r3 with
                        | String "," r4 => members fuel' r4 ((key, v) :: acc)
                        | String "}" r4 => Some ((key, v) :: acc, r4)
                        | _ => None
                        end
                    | None => None
                    end
                | _ => None
                end
            | None => None
            end
          else None
      | EmptyString => None
      end
  end.

Definition object (s : string) : option (list (string * value)) :=
  match skip_ws s with
  | String "{" r =>
      match skip_ws r with
      | String "}" rest =>
          if blank (skip_ws rest) then Some [] else None
      | _ =>
          match members (String.length r) r [] with
          | Some (ms, rest) => if blank (skip_ws rest) then Some ms else None
          | None => None
          end
      end
  | _ => None
  end.

(** The value of a key; the members are listed last first, so that of two
    members with the same key the later one is found. *)
Definition field (k : string) (ms : list (string * value)) : option value :=
  option_map snd (List.find (fun kv => String.eqb kv.1 k) ms).

(** [String(v)]; the text of a number is not computed. *)
Definition as_text (v : value) : option string :=
  match v with
  | VString s => Some s
  | VTrue => Some "true"
  | VFalse => Some "false"
  | VNull => Some "null"
  | VEmptyArray => Some EmptyString
  | VNumber _ => None
  end.

(** [Number(v)]; the number of a string that is not empty is not
    computed. *)
Definition as_number (v : value) : option float :=
  match v with
  | VNumber x => Some x
  | VTrue => Some 1%float
  | VFalse | VNull | VEmptyArray | VString EmptyString => Some 0%float
  | VString _ => None
  end.

(** [!!v]. *)
Definition is_truthy (v : value) : bool :=
  match v with
  | VString s => negb (blank s)
  | VNumber x => negb (Js.falsy x)
  | VTrue | VEmptyArray => true
  | VFalse | VNull => false
  end.

(** [data.k] when it is a string. *)
Definition str (k : string) (ms : list (string * value)) : option string :=
  match field k ms with Some (VString s) => Some s | _ => None end.

(** [Number(data.k)], [None] when the field is absent; the outer [None]
    is a value whose number is not computed. *)
Definition num (k : string) (ms : list (string * value))
  : option (option float) :=
  match field k ms with
  | Some v => option_map Some (as_number v)
  | None => Some None
  end.

(** [String(data.k)], [None] when the field is absent or null. *)
Definition txt (k : string) (ms : list (string * value))
  : option (option string) :=
  match field k ms with
  | Some VNull | None => Some None
  | Some v => option_map Some (as_text v)
  end.

(** [data.name], as the handler looks at it. *)
Definition name (ms : list (string * value)) : option NameField :=
  match field "name" ms with
  | Some v => if is_truthy v then option_map Truthy (as_text v) else Some Falsy
  | None => Some Falsy
  end.

Definition parse (s : string) : option ExtractorData :=
  match object s with
  | Some ms =>
      match num "item_id" ms, name ms, num "amount" ms, txt "message" ms,
            num "contribution_id" ms with
      | Some item_id, Some n, Some amount, Some message, Some contribution_id =>
          Some {| d_action := str "action" ms;
                  d_item_id := item_id;
                  d_name := n;
                  d_amount := amount;
                  d_message := message;
                  d_contribution_id := contribution_id;
                  d_item_title := str "item_title" ms |}
      | _, _, _, _, _ => None
      end
  | None => None
  end.

(** Example texts are written with ['] for the double quote. *)
Definition text (s : string) : string :=
  Str.map (fun c => if Ascii.eqb c "'" then dquote else c) s.

End RefJson.

(* ================================================================== *)
(** ** The store invariant *)
(* ================================================================== *)

(** What the schema's constraints and the handlers' checks guarantee of
    every stored row: non-empty titles and names, prices that are not
    negative, amounts that are positive and finite, contributions that
    point at existing items, and keys within the sequences. *)
Definition item_ok (it : Item) : Prop :=
  Sql.nonempty (title it) = true
  /\ (0 <=? price_total it)%float = true
  /\ (0 <=? price_raised it)%float = true.

Definition contribution_ok (db : DB) (c : Contribution) : Prop :=
  Sql.nonempty (contributor_name c) = true
  /\ (0 <? amount c)%float = true
  /\ Js.isFinite (amount c) = true
  /\ is_Some (items db !! item_id c).

Record store_ok (db : DB) : Prop := {
  items_ok : forall id it, items db !! id = Some it -> item_ok it;
  items_below_seq : forall id it, items db !! id = Some it -> id <= items_seq db;
  contributions_ok :
    forall id c, contributions db !! id = Some c -> contribution_ok db c;
  contributions_below_seq :
    forall id c, contributions db !! id = Some c -> id <= contributions_seq db
}.

(** The rounding-free value of [MAX(0, x)] for a number [x]. *)
Definition floor0 (x : float) : float := if (0 <? x)%float then x else 0%float.

(** The caller may write contributions: guest or admin. *)
Definition authorised (request : Request) (env : Env) : Prop :=
  isGuest request env || isAdmin request env = true.

(** A contribution request that passes the handler's validation: an item
    id other than 0, a name that is not blank once sanitised, and an amount
    that is positive and finite. *)
Record valid_pledge (b : Body) (itemId : Z) (name : string) (amt : float) : Prop := {
  pledge_item : b_item_id b = Some itemId;
  pledge_item_nonzero : itemId <> 0;
  pledge_name : sanitise (b_contributor_name b) MAX_NAME_LENGTH = name;
  pledge_name_present : blank name = false;
  pledge_amount : b_amount b = Some amt;
  pledge_amount_positive : (0 <? amt)%float = true;
  pledge_amount_finite : Js.isFinite amt = true
}.

(** The two login endpoints, told apart by [admin]: the handler, the key
    prefix with the caller's address, the secret, and the text of the 401
    answer. *)
Definition auth_handler (admin : bool) :=
  if admin then handleAdminAuth else handleGuestAuth.

Definition auth_identity (admin : bool) (request : Request) : string :=
  (if admin then "admin:" else "guest:")
  +:+ default "unknown" (headers request !! "CF-Connecting-IP").

Definition auth_secret (admin : bool) (env : Env) : string :=
  if admin then ADMIN_PASSWORD env else GUEST_PASSWORD env.

Definition auth_wrong (admin : bool) : string :=
  if admin then "Incorrect password" else "Palavra-passe incorreta".

(** The day's attempt counter of the caller; a missing row counts 0. *)
Definition attempts (admin : bool) (g : Globals) (request : Request) (db : DB) : Z :=
  default 0 (chat_rate_limit db !! (auth_identity admin request, todayUTC g)).

(** The store that one login attempt leaves. *)
Definition after_attempt (admin : bool) (g : Globals) (request : Request)
    (env : Env) (origin : string) (db : DB) : DB :=
  match auth_handler admin g request env origin db with
  | Returns _ db' => db'
  | Throws => db
  end.

Definition too_many (origin : string) : Response :=
  jsonResponse (JError "Too many attempts. Try again tomorrow.") 429 origin.

(* ================================================================== *)
(** ** Concrete stores and requests for the examples *)
(* ================================================================== *)

Module Ex.

(** The number written with two decimals as [n/100]; the division is
    correctly rounded, as the reading of a decimal literal is. *)
Definition cents (n : Z) : float := (Js.of_id n / 100)%float.

Definition gift (total raised : float) (funded : bool) : Item :=
  {| title := "Monitor"; description := "Video monitor";
     image_url := EmptyString; product_url := EmptyString;
     price_total := total; price_raised := raised; is_funded := funded;
     created_at := "2026-03-01 10:00:00" |}.

(** A registry with the single item 1 and no contribution. *)
Definition registry (it : Item) : DB :=
  {| items := {[ 1 := it ]}; items_seq := 1;
     contributions := ∅; contributions_seq := 0;
     chat_rate_limit := ∅ |}.

Definition pledged (amt : float) (ip : string) : Contribution :=
  {| item_id := 1; contributor_name := "Ana"; contributor_ip := Some ip;
     amount := amt; message := EmptyString;
     c_created_at := "2026-03-02 09:00:00" |}.

(** The registry with contribution 7 of [amt] by [ip] on item 1. *)
Definition registry_with (it : Item) (amt : float) (ip : string) : DB :=
  {| items := {[ 1 := it ]}; items_seq := 1;
     contributions := {[ 7 := pledged amt ip ]}; contributions_seq := 7;
     chat_rate_limit := ∅ |}.

Definition globals : Globals :=
  {| JSON_parse := RefJson.parse;
     todayUTC := "2026-04-01";
     datetime_now := "2026-04-01 12:00:00" |}.

Definition env (ai : AiCall -> AiResult) : Env :=
  {| AI := ai; ADMIN_PASSWORD := "admin-secret";
     GUEST_PASSWORD := "guest-secret";
     FRONTEND_ORIGIN := Some "https://example.org" |}.

Definition silent (_ : AiCall) : AiResult := AiResolves None.

(** A model that answers the responder's call with [reply] and the
    extractor's with [extracted]. *)
Definition scripted (reply extracted : string) (c : AiCall) : AiResult :=
  match c with
  | Responder _ _ _ _ => AiResolves (Some reply)
  | Extractor _ _ _ _ _ => AiResolves (Some extracted)
  end.

(** A model whose calls reject. *)
Definition failing (_ : AiCall) : AiResult := AiRejects.

Definition empty_body : Body :=
  {| b_title := None; b_description := None; b_image_url := None;
     b_product_url := None; b_price_total := None; b_is_funded := None;
     b_item_id := None; b_contributor_name := None; b_amount := None;
     b_message := None; b_history := None; b_password := None |}.

Definition pledge (item : Z) (name : string) (amt : float) : Body :=
  {| b_title := None; b_description := None; b_image_url := None;
     b_product_url := None; b_price_total := None; b_is_funded := None;
     b_item_id := Some item; b_contributor_name := Some name;
     b_amount := Some amt; b_message := None; b_history := None;
     b_password := None |}.

Definition password (p : string) : Body :=
  {| b_title := None; b_description := None; b_image_url := None;
     b_product_url := None; b_price_total := None; b_is_funded := None;
     b_item_id := None; b_contributor_name := None; b_amount := None;
     b_message := None; b_history := None; b_password := Some p |}.

Definition say (m : string) : Body :=
  {| b_title := None; b_description := None; b_image_url := None;
     b_product_url := None; b_price_total := None; b_is_funded := None;
     b_item_id := None; b_contributor_name := None; b_amount := None;
     b_message := Some m; b_history := None; b_password := None |}.

Definition patch (t d : option string) : Body :=
  {| b_title := t; b_description := d; b_image_url := None;
     b_product_url := None; b_price_total := None; b_is_funded := None;
     b_item_id := None; b_contributor_name := None; b_amount := None;
     b_message := None; b_history := None; b_password := None |}.

(** A body with a title and a price. *)
Definition priced (t : string) (total : float) : Body :=
  {| b_title := Some t; b_description := None; b_image_url := None;
     b_product_url := None; b_price_total := Some total; b_is_funded := None;
     b_item_id := None; b_contributor_name := None; b_amount := None;
     b_message := None; b_history := None; b_password := None |}.

(** A request of a guest calling from [ip]. *)
Definition guest (m p ip : string) (b : Body) : Request :=
  {| method := m; pathname := p;
     headers := {[ "X-Guest-Password" := "guest-secret";
                   "CF-Connecting-IP" := ip ]};
     json := Some b |}.

(** A request of the admin calling from [ip]. *)
Definition admin (m p ip : string) (b : Body) : Request :=
  {| method := m; pathname := p;
     headers := {[ "X-Admin-Password" := "admin-secret";
                   "CF-Connecting-IP" := ip ]};
     json := Some b |}.

(** A request without credentials from [ip]. *)
Definition anonymous (m p ip : string) (b : Body) : Request :=
  {| method := m; pathname := p;
     headers := {[ "CF-Connecting-IP" := ip ]};
     json := Some b |}.

(** Logins at the admin endpoint from one address, with a wrong and with
    the right password. *)
Definition wrong_login : Request :=
  anonymous "POST" "/api/admin/auth" "203.0.113.5" (password "guess").

Definition right_login : Request :=
  anonymous "POST" "/api/admin/auth" "203.0.113.5" (password "admin-secret").

Definition shop : DB := registry (gift 100 80 false).

End Ex.

(* ================================================================== *)
(** ** Facts about binary64 numbers *)
(* ================================================================== *)

Section Binary64.

Local Open Scope float_scope.

(** A value of the specification with the sign [s], and not NaN. *)
Definition sf_signed (s : bool) (v : spec_float) : Prop :=
  match v with
  | S754_zero s' | S754_infinity s' | S754_finite s' _ _ => s' = s
  | S754_nan => False
  end.

Lemma shr_1_nonneg mrs : (0 <= shr_m mrs)%Z -> (0 <= shr_m (shr_1 mrs))%Z.
Proof.
  destruct mrs as [m r s]; simpl.
  destruct m as [|p|p]; simpl; [lia| |lia].
  destruct p; simpl; lia.
Qed.

Lemma iter_shr_1_nonneg p : forall mrs,
  (0 <= shr_m mrs)%Z -> (0 <= shr_m (SpecFloat.iter_pos shr_1 p mrs))%Z.
Proof.
  induction p as [p IH|p IH|]; intros mrs H; simpl.
  - apply IH, IH, shr_1_nonneg, H.
  - apply IH, IH, H.
  - apply shr_1_nonneg, H.
Qed.

Lemma shr_fexp_nonneg m e l :
  (0 <= m)%Z -> (0 <= shr_m (fst (shr_fexp prec emax m e l)))%Z.
Proof.
  intros H. unfold shr_fexp, shr.
  assert (H0 : (0 <= shr_m (shr_record_of_loc m l))%Z).
  { destruct l as [|[]]; simpl; exact H. }
  destruct (_ - e)%Z; simpl; auto using iter_shr_1_nonneg.
Qed.

Lemma round_nearest_even_nonneg m l :
  (0 <= m)%Z -> (0 <= round_nearest_even m l)%Z.
Proof.
  intros H. destruct l as [|[]]; simpl; try lia.
  destruct (Z.even m); lia.
Qed.

(** Rounding keeps the sign and never makes a NaN. *)
Lemma binary_round_aux_signed sx mx ex lx :
  (0 <= mx)%Z -> sf_signed sx (binary_round_aux prec emax sx mx ex lx).
Proof.
  intros H. unfold binary_round_aux.
  pose proof (shr_fexp_nonneg mx ex lx H) as H1.
  destruct (shr_fexp prec emax mx ex lx) as [mrs' e']. simpl in H1.
  pose proof (shr_fexp_nonneg _ e' loc_Exact
                (round_nearest_even_nonneg _ (loc_of_shr_record mrs') H1)) as H2.
  destruct (shr_fexp prec emax _ e' loc_Exact) as [mrs'' e'']. simpl in H2.
  destruct (shr_m mrs'') as [|p|p]; simpl; [reflexivity| |lia].
  destruct (Z.leb e'' _); reflexivity.
Qed.

Lemma binary_round_signed sx mx ex : sf_signed sx (binary_round prec emax sx mx ex).
Proof.
  unfold binary_round. destruct (shl_align _ _ _) as [mz ez].
  apply binary_round_aux_signed. lia.
Qed.

Lemma binary_normalize_pos m e sz :
  (0 < m)%Z -> sf_signed false (binary_normalize prec emax m e sz).
Proof. destruct m; simpl; try lia. intros _. apply binary_round_signed. Qed.

Lemma binary_normalize_not_nan m e sz : binary_normalize prec emax m e sz <> S754_nan.
Proof.
  destruct m; simpl; [discriminate| |].
  - pose proof (binary_round_signed false p e) as H. intros E. rewrite E in H. exact H.
  - pose proof (binary_round_signed true p e) as H. intros E. rewrite E in H. exact H.
Qed.

Lemma SFcompare_refl v : v <> S754_nan -> SFcompare v v = Some Eq.
Proof.
  destruct v as [s|s| |s m e]; simpl; intros H; try congruence.
  - destruct s; reflexivity.
  - destruct s; rewrite Z.compare_refl;
      change PosDef.Pos.compare_cont with Pos.compare_cont;
      rewrite Pos.compare_cont_refl; reflexivity.
Qed.

Lemma SFcompare_antisym a b c :
  SFcompare a b = Some c -> SFcompare b a = Some (CompOpp c).
Proof.
  destruct a as [s|s| |s m e], b as [s'|s'| |s' m' e']; simpl;
    try destruct s; try destruct s'; simpl; intros H; inversion H; subst; clear H;
    try reflexivity.
  all: rewrite (Z.compare_antisym e e'); destruct (e ?= e')%Z; simpl; try reflexivity.
  all: change PosDef.Pos.compare_cont with Pos.compare_cont;
       rewrite (Pos.compare_cont_antisym m m' Eq); simpl;
       try rewrite CompOpp_involutive; reflexivity.
Qed.

(** The tests on numbers, read on the specification. *)
Lemma is_nan_spec x :
  is_nan x = match Prim2SF x with S754_nan => true | _ => false end.
Proof.
  unfold is_nan. rewrite FloatAxioms.eqb_spec. unfold SFeqb.
  destruct (Prim2SF x) eqn:E; try (rewrite SFcompare_refl by discriminate; reflexivity).
  reflexivity.
Qed.

Lemma ltb0_spec x :
  (0 <? x) = match Prim2SF x with
             | S754_infinity false | S754_finite false _ _ => true
             | _ => false
             end.
Proof.
  rewrite FloatAxioms.ltb_spec. change (Prim2SF 0) with (S754_zero false).
  destruct (Prim2SF x) as [s|s| |s m e]; try destruct s; reflexivity.
Qed.

Lemma leb0_spec x :
  (0 <=? x) = match Prim2SF x with
              | S754_zero _ | S754_infinity false | S754_finite false _ _ => true
              | _ => false
              end.
Proof.
  rewrite FloatAxioms.leb_spec. change (Prim2SF 0) with (S754_zero false).
  destruct (Prim2SF x) as [s|s| |s m e]; try destruct s; reflexivity.
Qed.

Lemma is_infinity_spec x :
  is_infinity x = match Prim2SF x with S754_infinity _ => true | _ => false end.
Proof.
  unfold is_infinity. rewrite FloatAxioms.eqb_spec, FloatAxioms.abs_spec.
  change (Prim2SF infinity) with (S754_infinity false).
  destruct (Prim2SF x) as [s|s| |s m e]; reflexivity.
Qed.

Lemma is_finite_spec x :
  is_finite x = match Prim2SF x with
                | S754_zero _ | S754_finite _ _ _ => true
                | _ => false
                end.
Proof.
  unfold is_finite. rewrite is_nan_spec, is_infinity_spec.
  destruct (Prim2SF x); reflexivity.
Qed.

Lemma finite_not_nan x : is_finite x = true -> is_nan x = false.
Proof.
  rewrite is_finite_spec, is_nan_spec. destruct (Prim2SF x); congruence.
Qed.

Lemma positive_not_nan x : (0 <? x) = true -> is_nan x = false.
Proof.
  rewrite ltb0_spec, is_nan_spec. destruct (Prim2SF x) as [s|s| |s m e]; congruence.
Qed.

Lemma nonneg_not_nan x : (0 <=? x) = true -> is_nan x = false.
Proof.
  rewrite leb0_spec, is_nan_spec. destruct (Prim2SF x) as [s|s| |s m e]; congruence.
Qed.

Lemma positive_nonneg x : (0 <? x) = true -> (0 <=? x) = true.
Proof.
  rewrite ltb0_spec, leb0_spec.
  destruct (Prim2SF x) as [s|s| |s m e]; try destruct s; congruence.
Qed.

Lemma leb_refl x : is_nan x = false -> (x <=? x) = true.
Proof.
  rewrite is_nan_spec, FloatAxioms.leb_spec. unfold SFleb. intros H.
  rewrite SFcompare_refl; [reflexivity|]. intros E. rewrite E in H. discriminate.
Qed.

Lemma ltb_leb a b : (a <? b) = true -> (a <=? b) = true.
Proof.
  rewrite FloatAxioms.ltb_spec, FloatAxioms.leb_spec. unfold SFltb, SFleb.
  destruct (SFcompare _ _) as [[]|]; congruence.
Qed.

Lemma not_ltb_leb a b :
  is_nan a = false -> is_nan b = false -> (a <? b) = false -> (b <=? a) = true.
Proof.
  rewrite !is_nan_spec, FloatAxioms.ltb_spec, FloatAxioms.leb_spec. unfold SFltb, SFleb.
  intros Ha Hb.
  destruct (SFcompare (Prim2SF a) (Prim2SF b)) as [c|] eqn:E.
  - rewrite (SFcompare_antisym _ _ _ E). destruct c; simpl; congruence.
  - destruct (Prim2SF a) as [s|s| |s m e], (Prim2SF b) as [s'|s'| |s' m' e'];
      simpl in *; congruence.
Qed.

(** The sum of a number that is not negative and a positive one is not
    negative (it may be infinite). *)
Lemma add_nonneg r x : (0 <=? r) = true -> (0 <? x) = true -> (0 <=? r + x) = true.
Proof.
  rewrite !leb0_spec, ltb0_spec, FloatAxioms.add_spec. unfold SF64add.
  destruct (Prim2SF r) as [s|s| |s m e], (Prim2SF x) as [s'|s'| |s' m' e'];
    try destruct s; try destruct s'; try discriminate; intros _ _; try reflexivity.
  unfold SFadd. simpl cond_Zopp.
  match goal with |- context [binary_normalize ?p ?q ?m ?e ?z] =>
    pose proof (binary_normalize_pos m e z) as H end.
  match type of H with (_ -> sf_signed _ ?v) => destruct v as [s|s| |s m0 e0] end;
    simpl in H; try (rewrite H by lia; reflexivity).
  - reflexivity.
  - exfalso; apply H; lia.
Qed.

(** Subtracting a finite number from one that is not negative gives a
    number. *)
Lemma sub_not_nan r a :
  (0 <=? r) = true -> is_finite a = true -> is_nan (r - a) = false.
Proof.
  rewrite leb0_spec, is_finite_spec, is_nan_spec, FloatAxioms.sub_spec. unfold SF64sub.
  destruct (Prim2SF r) as [s|s| |s m e], (Prim2SF a) as [s'|s'| |s' m' e'];
    try destruct s; try destruct s'; try discriminate; intros _ _; try reflexivity.
  all: unfold SFsub;
    match goal with |- context [binary_normalize ?p ?q ?m ?e ?z] =>
      pose proof (binary_normalize_not_nan m e z) as H;
      destruct (binary_normalize p q m e z); congruence end.
Qed.

(** The handler's test [!amount || amount <= 0 || !isFinite(amount)] is
    passed exactly by the positive finite numbers. *)
Lemma amount_check_spec a :
  Js.falsy a || (a <=? 0) || negb (Js.isFinite a)
  = negb ((0 <? a) && Js.isFinite a).
Proof.
  unfold Js.falsy, Js.isFinite, is_zero.
  rewrite is_finite_spec, ltb0_spec, is_nan_spec, FloatAxioms.eqb_spec, FloatAxioms.leb_spec.
  change (Prim2SF zero) with (S754_zero false).
  change (Prim2SF 0) with (S754_zero false).
  destruct (Prim2SF a) as [s|s| |s m e]; try destruct s; reflexivity.
Qed.

(** [Math.min] of two numbers is one of them, and not above either. *)
Lemma Math_min_cases a b :
  is_nan a = false -> is_nan b = false ->
  Js.Math_min a b = a \/ Js.Math_min a b = b.
Proof.
  intros Ha Hb. unfold Js.Math_min. rewrite Ha, Hb. simpl.
  destruct (a <? b); [left; reflexivity|].
  destruct (b <? a); [right; reflexivity|].
  destruct (get_sign a); [left|right]; reflexivity.
Qed.

Lemma Math_min_pos a b :
  (0 <? a) = true -> (0 <? b) = true -> (0 <? Js.Math_min a b) = true.
Proof.
  intros Ha Hb.
  destruct (Math_min_cases a b) as [E|E]; auto using positive_not_nan;
    rewrite E; assumption.
Qed.

Lemma Math_min_le_l a b :
  is_nan a = false -> is_nan b = false -> (Js.Math_min a b <=? a) = true.
Proof.
  intros Ha Hb. unfold Js.Math_min. rewrite Ha, Hb. simpl.
  destruct (a <? b) eqn:Hab; [apply leb_refl, Ha|].
  destruct (b <? a) eqn:Hba; [apply ltb_leb, Hba|].
  destruct (get_sign a); [apply leb_refl, Ha|].
  apply not_ltb_leb; assumption.
Qed.

Lemma Math_min_le_r a b :
  is_nan a = false -> is_nan b = false -> (Js.Math_min a b <=? b) = true.
Proof.
  intros Ha Hb. unfold Js.Math_min. rewrite Ha, Hb. simpl.
  destruct (a <? b) eqn:Hab; [apply ltb_leb, Hab|].
  destruct (b <? a) eqn:Hba; [apply leb_refl, Hb|].
  destruct (get_sign a); [|apply leb_refl, Hb].
  apply not_ltb_leb; assumption.
Qed.

Lemma Math_min_finite a b :
  (0 <? a) = true -> is_finite a = true -> (0 <? b) = true ->
  is_finite (Js.Math_min a b) = true.
Proof.
  intros Ha Hfa Hb. unfold Js.Math_min.
  rewrite (positive_not_nan a Ha), (positive_not_nan b Hb). simpl.
  destruct (a <? b) eqn:Hab; [exact Hfa|].
  assert (Hfb : is_finite b = true).
  { revert Hab Hfa Ha Hb. rewrite !is_finite_spec, !ltb0_spec, FloatAxioms.ltb_spec. unfold SFltb.
    destruct (Prim2SF a) as [s|s| |s m e], (Prim2SF b) as [s'|s'| |s' m' e'];
      try destruct s; try destruct s'; simpl; congruence. }
  destruct (b <? a); [exact Hfb|]. destruct (get_sign a); assumption.
Qed.

Lemma floor0_nonneg x : (0 <=? floor0 x) = true.
Proof.
  unfold floor0. destruct (0 <? x) eqn:H; [apply positive_nonneg, H|reflexivity].
Qed.

Lemma max0_floor0 x : is_nan x = false -> Sql.max0 x = Some (floor0 x).
Proof. intros H. unfold Sql.max0, floor0. rewrite H. reflexivity. Qed.

Lemma flag_of_bool (b : bool) : Sql.flag (if b then 1 else 0) = Some b.
Proof. destruct b; reflexivity. Qed.

Lemma nonneg_spec x :
  Sql.nonneg x = true <-> Js.isFinite x = true /\ (0 <=? x) = true.
Proof. unfold Sql.nonneg. apply andb_true_iff. Qed.

Lemma positive_spec x :
  Sql.positive x = true <-> Js.isFinite x = true /\ (0 <? x) = true.
Proof. unfold Sql.positive. apply andb_true_iff. Qed.

Lemma nonneg_infinite x : Js.isFinite x = false -> Sql.nonneg x = false.
Proof. unfold Sql.nonneg. intros ->. reflexivity. Qed.

End Binary64.

(* ================================================================== *)
(** ** Rounding to nearest in binary64 *)
(* ================================================================== *)

Section Rounding.

Local Open Scope Z_scope.

Local Abbreviation emin := (SpecFloat.emin prec emax).
Local Abbreviation fexp := (SpecFloat.fexp prec emax).

(** The value of a mantissa and an exponent, in units of the smallest
    positive number. *)
Definition scaled (m : Z) (e : Z) : Z := m * 2 ^ (e - emin).

Lemma fexp_ge e : emin <= fexp e.
Proof. unfold SpecFloat.fexp. lia. Qed.

Lemma fexp_mono a b : a <= b -> fexp a <= fexp b.
Proof. unfold SpecFloat.fexp. lia. Qed.

Lemma iter_xO m d : Zpos (Pos.iter xO m d) = Zpos m * 2 ^ Zpos d.
Proof.
  induction d as [|d IH] using Pos.peano_ind.
  - cbn. lia.
  - rewrite Pos.iter_succ, Pos2Z.inj_xO, IH, Pos2Z.inj_succ, Z.pow_succ_r by lia. lia.
Qed.

Lemma shl_align_spec m e e' :
  let r := shl_align m e e' in
  snd r = Z.min e e' /\ Zpos (fst r) = Zpos m * 2 ^ (e - Z.min e e').
Proof.
  unfold shl_align. destruct (e' - e) as [|d|d] eqn:E; cbn [fst snd].
  - replace (Z.min e e') with e by lia. rewrite Z.sub_diag. lia.
  - replace (Z.min e e') with e by lia. rewrite Z.sub_diag. lia.
  - replace (Z.min e e') with e' by lia. split; [reflexivity|].
    rewrite iter_xO. f_equal. f_equal. lia.
Qed.

Lemma digits2_pos_spec m :
  2 ^ (Zpos (digits2_pos m) - 1) <= Zpos m < 2 ^ Zpos (digits2_pos m).
Proof.
  induction m as [m IH|m IH|]; cbn [digits2_pos].
  - rewrite Pos2Z.inj_succ.
    replace (Z.succ (Zpos (digits2_pos m)) - 1) with (Z.succ (Zpos (digits2_pos m) - 1)) by lia.
    rewrite !Z.pow_succ_r by lia. lia.
  - rewrite Pos2Z.inj_succ.
    replace (Z.succ (Zpos (digits2_pos m)) - 1) with (Z.succ (Zpos (digits2_pos m) - 1)) by lia.
    rewrite !Z.pow_succ_r by lia. lia.
  - cbn. lia.
Qed.

Lemma shr_1_div mrs : 0 <= shr_m mrs -> shr_m (shr_1 mrs) = shr_m mrs / 2.
Proof.
  destruct mrs as [m r s]; cbn [shr_m shr_1].
  destruct m as [|p|p]; [reflexivity| |lia]. intros _.
  destruct p as [p|p|]; cbn [shr_m].
  - rewrite Pos2Z.inj_xI. apply Z.div_unique with 1; lia.
  - rewrite Pos2Z.inj_xO. apply Z.div_unique with 0; lia.
  - reflexivity.
Qed.

Lemma iter_shr_1_div p : forall mrs,
  0 <= shr_m mrs ->
  shr_m (SpecFloat.iter_pos shr_1 p mrs) = shr_m mrs / 2 ^ Zpos p
  /\ 0 <= shr_m (SpecFloat.iter_pos shr_1 p mrs).
Proof.
  induction p as [p IH|p IH|]; intros mrs H; cbn [SpecFloat.iter_pos].
  - assert (H1 : 0 <= shr_m (shr_1 mrs)) by (rewrite shr_1_div by exact H; apply Z.div_pos; lia).
    destruct (IH _ H1) as [E1 P1]. destruct (IH _ P1) as [E2 P2].
    split; [|exact P2]. rewrite E2, E1, shr_1_div by exact H.
    rewrite !Z.div_div by lia. f_equal.
    rewrite Pos2Z.inj_xI, <- !Z.pow_add_r, <- Z.pow_succ_r by lia. f_equal. lia.
  - destruct (IH _ H) as [E1 P1]. destruct (IH _ P1) as [E2 P2].
    split; [|exact P2]. rewrite E2, E1.
    rewrite !Z.div_div by lia. f_equal.
    rewrite Pos2Z.inj_xO, <- !Z.pow_add_r by lia. f_equal. lia.
  - split; [rewrite shr_1_div by exact H; reflexivity|].
    rewrite shr_1_div by exact H. apply Z.div_pos; lia.
Qed.

Lemma shr_record_of_loc_m m l : shr_m (shr_record_of_loc m l) = m.
Proof. destruct l as [|[]]; reflexivity. Qed.

(** The shift to the exponent that the format prescribes truncates the
    mantissa. *)
Lemma shr_fexp_spec m e l :
  0 <= m ->
  let r := shr_fexp prec emax m e l in
  snd r = Z.max e (fexp (Zdigits2 m + e))
  /\ shr_m (fst r) = m / 2 ^ (snd r - e).
Proof.
  intros Hm. unfold shr_fexp, shr.
  destruct (fexp (Zdigits2 m + e) - e) as [|p|p] eqn:E; cbn [fst snd].
  - replace (Z.max e _) with e by lia.
    rewrite Z.sub_diag, shr_record_of_loc_m, Z.div_1_r. auto.
  - replace (Z.max e _) with (e + Zpos p) by lia. split; [reflexivity|].
    destruct (iter_shr_1_div p (shr_record_of_loc m l)) as [H _].
    { rewrite shr_record_of_loc_m. exact Hm. }
    rewrite H, shr_record_of_loc_m. f_equal. f_equal. lia.
  - replace (Z.max e _) with e by lia.
    rewrite Z.sub_diag, shr_record_of_loc_m, Z.div_1_r. auto.
Qed.

Lemma round_nearest_even_ge m l : m <= round_nearest_even m l.
Proof. destruct l as [|[]]; cbn; try lia. destruct (Z.even m); lia. Qed.

Lemma scaled_pow k e : emin <= e -> 0 <= k -> scaled (2 ^ k) e = 2 ^ (k + e - emin).
Proof.
  intros He Hk. unfold scaled. rewrite <- Z.pow_add_r by lia. f_equal. lia.
Qed.

Lemma scaled_mono m m' e : emin <= e -> m <= m' -> scaled m e <= scaled m' e.
Proof.
  intros He H. unfold scaled. apply Z.mul_le_mono_nonneg_r; [|exact H].
  apply Z.pow_nonneg. lia.
Qed.

(** Truncating a number to the exponent that the format prescribes for
    it does not take it below a number of the format that it is not
    below. *)
Lemma truncate_ge ma ea p E :
  emin <= E ->
  fexp (Zpos (digits2_pos ma) + ea) = ea ->
  scaled (Zpos ma) ea <= scaled (Zpos p) E ->
  let E' := Z.max E (fexp (Zpos (digits2_pos p) + E)) in
  scaled (Zpos ma) ea <= scaled (Zpos p / 2 ^ (E' - E)) E'.
Proof.
  intros HE Hcan Hle E'. subst E'.
  set (D := Zpos (digits2_pos p) + E). set (F := fexp D).
  destruct (Z.le_gt_cases F E) as [HF|HF].
  - rewrite Z.max_l by lia. rewrite Z.sub_diag, Z.pow_0_r, Z.div_1_r. exact Hle.
  - rewrite Z.max_r by lia.
    assert (Hea : emin <= ea) by (rewrite <- Hcan; apply fexp_ge).
    assert (HFm : emin <= F) by apply fexp_ge.
    set (G := 2 ^ (F - emin)).
    assert (HG : 0 < G) by (apply Z.pow_pos_nonneg; lia).
    assert (HB : scaled (Zpos p) E / G = Zpos p / 2 ^ (F - E)).
    { unfold scaled, G. replace (F - emin) with ((F - E) + (E - emin)) by lia.
      rewrite Z.pow_add_r by lia.
      apply Z.div_mul_cancel_r; apply Z.pow_nonzero; lia. }
    assert (Hk : exists k, scaled (Zpos ma) ea <= k * G /\ k * G <= scaled (Zpos p) E).
    { destruct (Z.le_gt_cases F ea) as [Hc|Hc].
      - exists (Zpos ma * 2 ^ (ea - F)). split; [|].
        + unfold scaled, G. rewrite <- Z.mul_assoc, <- Z.pow_add_r by lia.
          replace (ea - F + (F - emin)) with (ea - emin) by lia. lia.
        + unfold G. rewrite <- Z.mul_assoc, <- Z.pow_add_r by lia.
          replace (ea - F + (F - emin)) with (ea - emin) by lia. exact Hle.
      - assert (Hd : Zpos (digits2_pos ma) + ea <= D - 1).
        { destruct (Z.le_gt_cases D (Zpos (digits2_pos ma) + ea)) as [H|H]; [|lia].
          apply fexp_mono in H. fold F in H. lia. }
        assert (HFD : F = D - prec).
        { unfold F, SpecFloat.fexp in *. lia. }
        assert (Hprec : 1 <= prec) by (unfold prec; lia).
        exists (2 ^ (D - 1 - F)). unfold G. rewrite <- Z.pow_add_r by lia.
        replace (D - 1 - F + (F - emin)) with (D - 1 - emin) by lia.
        pose proof (digits2_pos_spec ma) as [_ Hma].
        pose proof (digits2_pos_spec p) as [Hp _].
        split.
        + apply Z.le_trans with (scaled (2 ^ Zpos (digits2_pos ma)) ea).
          * apply scaled_mono; lia.
          * rewrite scaled_pow by lia. apply Z.pow_le_mono_r; lia.
        + apply Z.le_trans with (scaled (2 ^ (Zpos (digits2_pos p) - 1)) E).
          * rewrite scaled_pow by lia. apply Z.pow_le_mono_r; unfold D; lia.
          * apply scaled_mono; lia. }
    destruct Hk as (k & Hk1 & Hk2).
    unfold scaled at 2. fold G. rewrite <- HB.
    assert (k <= scaled (Zpos p) E / G) by (apply Z.div_le_lower_bound; lia).
    apply Z.le_trans with (k * G); [exact Hk1|].
    apply Z.mul_le_mono_nonneg_r; lia.
Qed.

Lemma scaled_pos m e : emin <= e -> 0 < scaled (Zpos m) e.
Proof. intros He. unfold scaled. apply Z.mul_pos_pos; [lia|]. apply Z.pow_pos_nonneg; lia. Qed.

Lemma scaled_pos_inv m e : 0 < scaled m e -> 0 < m.
Proof.
  unfold scaled. intros H.
  assert (0 <= 2 ^ (e - emin)) by (apply Z.pow_nonneg; lia). nia.
Qed.

Lemma scaled_shift m e e' :
  emin <= e' <= e -> scaled (m * 2 ^ (e - e')) e' = scaled m e.
Proof.
  intros H. unfold scaled. rewrite <- Z.mul_assoc, <- Z.pow_add_r by lia.
  f_equal. f_equal. lia.
Qed.

(** Rounding to nearest: the result is not below a number of the format
    that the rounded number is not below. *)
Lemma binary_round_ge ma ea mz ez :
  emin <= ez ->
  fexp (Zpos (digits2_pos ma) + ea) = ea ->
  scaled (Zpos ma) ea <= scaled (Zpos mz) ez ->
  match binary_round prec emax false mz ez with
  | S754_finite s m e =>
      s = false /\ emin <= e /\ scaled (Zpos ma) ea <= scaled (Zpos m) e
  | S754_infinity s => s = false
  | _ => False
  end.
Proof.
  intros Hez Hcan Hle. unfold binary_round.
  assert (Hea : emin <= ea) by (rewrite <- Hcan; apply fexp_ge).
  pose proof (shl_align_spec mz ez (fexp (Zpos (digits2_pos mz) + ez))) as [Hs Hf].
  pose proof (fexp_ge (Zpos (digits2_pos mz) + ez)) as Hfe.
  destruct (shl_align mz ez _) as [m0 e0]. cbn [fst snd] in Hs, Hf.
  assert (He0 : emin <= e0 <= ez) by lia.
  assert (H0 : scaled (Zpos ma) ea <= scaled (Zpos m0) e0).
  { rewrite Hf, Hs. rewrite <- Hs. rewrite scaled_shift by lia. exact Hle. }
  clear Hs Hf Hfe Hle.
  unfold binary_round_aux.
  pose proof (shr_fexp_spec (Zpos m0) e0 loc_Exact ltac:(lia)) as [He' Hm'].
  pose proof (truncate_ge ma ea m0 e0 ltac:(lia) Hcan H0) as H1.
  destruct (shr_fexp prec emax (Zpos m0) e0 loc_Exact) as [mrs' e'].
  cbn [fst snd Zdigits2] in He', Hm'. cbv zeta in H1.
  rewrite <- He', <- Hm' in H1.
  pose proof (round_nearest_even_ge (shr_m mrs') (loc_of_shr_record mrs')) as Hr.
  set (m1 := round_nearest_even (shr_m mrs') (loc_of_shr_record mrs')) in *.
  assert (He'm : emin <= e') by lia.
  assert (H2 : scaled (Zpos ma) ea <= scaled m1 e').
  { apply Z.le_trans with (1 := H1). apply scaled_mono; lia. }
  assert (Hm1 : 0 < m1).
  { apply (scaled_pos_inv _ e'). pose proof (scaled_pos ma ea Hea). lia. }
  destruct m1 as [|p1|p1] eqn:Em1; try lia.
  pose proof (shr_fexp_spec (Zpos p1) e' loc_Exact ltac:(lia)) as [He'' Hm''].
  pose proof (truncate_ge ma ea p1 e' He'm Hcan H2) as H3.
  destruct (shr_fexp prec emax (Zpos p1) e' loc_Exact) as [mrs'' e''].
  cbn [fst snd Zdigits2] in He'', Hm''. cbv zeta in H3.
  rewrite <- He'', <- Hm'' in H3.
  pose proof (scaled_pos ma ea Hea) as Hpos.
  destruct (shr_m mrs'') as [|m''|m''] eqn:Em''.
  - unfold scaled in H3. lia.
  - destruct (e'' <=? emax - prec); [|reflexivity].
    split; [reflexivity|]. split; [lia|exact H3].
  - assert (scaled (Z.neg m'') e'' <= 0); [|lia].
    unfold scaled. assert (0 <= 2 ^ (e'' - emin)) by (apply Z.pow_nonneg; lia). nia.
Qed.

Lemma canonical_of_valid x s m e :
  Prim2SF x = S754_finite s m e ->
  fexp (Zpos (digits2_pos m) + e) = e /\ emin <= e.
Proof.
  intros E. pose proof (FloatAxioms.Prim2SF_valid x) as H. rewrite E in H.
  cbn in H. apply andb_prop in H as [H _].
  unfold canonical_mantissa in H. apply Z.eqb_eq in H.
  split; [exact H|]. rewrite <- H. apply fexp_ge.
Qed.

(** Adding a number that is not negative to a positive finite number
    gives a number that is not below the latter. *)
Lemma add_ge r a ma ea :
  (0 <=? r)%float = true ->
  Prim2SF a = S754_finite false ma ea ->
  is_finite (r + a) = true ->
  exists my ey,
    Prim2SF (r + a) = S754_finite false my ey
    /\ emin <= ey /\ scaled (Zpos ma) ea <= scaled (Zpos my) ey.
Proof.
  intros Hr Ha. destruct (canonical_of_valid a _ _ _ Ha) as [Hcan Hea].
  revert Hr. rewrite leb0_spec, is_finite_spec, FloatAxioms.add_spec, Ha.
  unfold SF64add.
  destruct (Prim2SF r) as [s|s| |s mr er] eqn:Er; try destruct s; try discriminate;
    intros _.
  1,2: cbn; intros _; exists ma, ea; repeat split; [exact Hea|lia].
  destruct (canonical_of_valid r _ _ _ Er) as [_ Her].
    unfold SFadd. cbn [cond_Zopp].
    pose proof (shl_align_spec mr er (Z.min er ea)) as [_ H1].
    pose proof (shl_align_spec ma ea (Z.min er ea)) as [_ H2].
    replace (Z.min er (Z.min er ea)) with (Z.min er ea) in H1 by lia.
    replace (Z.min ea (Z.min er ea)) with (Z.min er ea) in H2 by lia.
    set (p1 := fst (shl_align mr er (Z.min er ea))) in *.
    set (p2 := fst (shl_align ma ea (Z.min er ea))) in *.
    change (Z.pos p1 + Z.pos p2) with (Z.pos (p1 + p2)). cbn [binary_normalize].
    pose proof (binary_round_ge ma ea (p1 + p2) (Z.min er ea) ltac:(lia) Hcan) as H.
    destruct (binary_round prec emax false (p1 + p2) (Z.min er ea)) as [s|s| |s my ey].
    + intros _. exfalso. apply H.
      rewrite <- (scaled_shift (Zpos ma) ea (Z.min er ea)) by lia.
      rewrite <- H2. apply scaled_mono; lia.
    + discriminate.
    + discriminate.
    + intros _. destruct H as (-> & Hey & Hle).
      * rewrite <- (scaled_shift (Zpos ma) ea (Z.min er ea)) by lia.
        rewrite <- H2. apply scaled_mono; lia.
      * exists my, ey. auto.
Qed.

(** The difference of two positive finite numbers, the first not below
    the second, is +0 or positive. *)
Lemma sub_ge y a my ey ma ea :
  Prim2SF y = S754_finite false my ey ->
  Prim2SF a = S754_finite false ma ea ->
  emin <= ey -> emin <= ea ->
  scaled (Zpos ma) ea <= scaled (Zpos my) ey ->
  match Prim2SF (y - a) with
  | S754_zero s | S754_infinity s | S754_finite s _ _ => s = false
  | S754_nan => False
  end.
Proof.
  intros Hy Ha Hey Hea Hle.
  rewrite FloatAxioms.sub_spec, Hy, Ha. unfold SF64sub, SFsub. cbn [cond_Zopp].
  pose proof (shl_align_spec my ey (Z.min ey ea)) as [_ H1].
  pose proof (shl_align_spec ma ea (Z.min ey ea)) as [_ H2].
  replace (Z.min ey (Z.min ey ea)) with (Z.min ey ea) in H1 by lia.
  replace (Z.min ea (Z.min ey ea)) with (Z.min ey ea) in H2 by lia.
  set (p1 := fst (shl_align my ey (Z.min ey ea))) in *.
  set (p2 := fst (shl_align ma ea (Z.min ey ea))) in *.
  assert (Hd : Zpos p2 <= Zpos p1).
  { rewrite <- (scaled_shift (Zpos ma) ea (Z.min ey ea)) in Hle by lia.
    rewrite <- (scaled_shift (Zpos my) ey (Z.min ey ea)) in Hle by lia.
    rewrite <- H1, <- H2 in Hle. unfold scaled in Hle.
    apply Z.mul_le_mono_pos_r in Hle; [exact Hle|].
    apply Z.pow_pos_nonneg; lia. }
  destruct (Z.eq_dec (Zpos p1 - Zpos p2) 0) as [E|E].
  - rewrite E. reflexivity.
  - pose proof (binary_normalize_pos (Zpos p1 - Zpos p2) (Z.min ey ea) false
                  ltac:(lia)) as H.
    destruct (binary_normalize _ _ _ _ _); exact H.
Qed.

(** Among positive finite numbers, the order of the values is the order
    of the numbers. *)
Lemma scaled_leb a y ma ea my ey :
  Prim2SF a = S754_finite false ma ea ->
  Prim2SF y = S754_finite false my ey ->
  scaled (Zpos ma) ea <= scaled (Zpos my) ey ->
  (a <=? y)%float = true.
Proof.
  intros Ha Hy Hle.
  destruct (canonical_of_valid a _ _ _ Ha) as [Hca Hea].
  destruct (canonical_of_valid y _ _ _ Hy) as [Hcy Hey].
  rewrite FloatAxioms.leb_spec, Ha, Hy. unfold SFleb, SFcompare.
  destruct (ea ?= ey) eqn:C.
  - apply Z.compare_eq in C. subst ey.
    unfold scaled in Hle. apply Z.mul_le_mono_pos_r in Hle;
      [|apply Z.pow_pos_nonneg; lia].
    change PosDef.Pos.compare_cont with Pos.compare_cont.
    fold (Pos.compare ma my).
    destruct (Pos.compare ma my) eqn:Cm; try reflexivity.
    apply Pos.compare_gt_iff in Cm. lia.
  - reflexivity.
  - exfalso. apply Z.compare_gt_iff in C.
    assert (Hd : Zpos (digits2_pos my) + ey <= Zpos (digits2_pos ma) + ea - 1).
    { destruct (Z.le_gt_cases (Zpos (digits2_pos ma) + ea)
                              (Zpos (digits2_pos my) + ey)) as [H|H]; [|lia].
      apply fexp_mono in H. lia. }
    pose proof (digits2_pos_spec ma) as [Hma _].
    pose proof (digits2_pos_spec my) as [_ Hmy].
    assert (H1 : scaled (Zpos my) ey < scaled (2 ^ Zpos (digits2_pos my)) ey).
    { unfold scaled. apply Z.mul_lt_mono_pos_r; [apply Z.pow_pos_nonneg; lia|lia]. }
    assert (H2 : scaled (2 ^ (Zpos (digits2_pos ma) - 1)) ea <= scaled (Zpos ma) ea).
    { apply scaled_mono; lia. }
    rewrite scaled_pow in H1 by lia. rewrite scaled_pow in H2 by lia.
    assert (H3 : 2 ^ (Zpos (digits2_pos my) + ey - emin)
                 <= 2 ^ (Zpos (digits2_pos ma) - 1 + ea - emin)).
    { apply Z.pow_le_mono_r; lia. }
    lia.
Qed.

(** Taking a positive finite number away again from a sum it was added to
    never gives a negative number: the floor at 0 leaves the result as it
    is. *)
Lemma add_sub_floor r a :
  (0 <=? r)%float = true -> (0 <? a)%float = true -> is_finite a = true ->
  is_finite (r + a) = true ->
  (a <=? r + a)%float = true
  /\ (0 <=? r + a - a)%float = true /\ floor0 (r + a - a) = (r + a - a)%float.
Proof.
  intros Hr Ha Hfa Hf.
  assert (Ea : exists ma ea, Prim2SF a = S754_finite false ma ea).
  { revert Ha Hfa. rewrite ltb0_spec, is_finite_spec.
    destruct (Prim2SF a) as [s|s| |s m e]; try destruct s; try discriminate.
    eauto. }
  destruct Ea as (ma & ea & Ea).
  destruct (add_ge r a ma ea Hr Ea Hf) as (my & ey & Ey & Hey & Hle).
  destruct (canonical_of_valid a _ _ _ Ea) as [_ Hea].
  pose proof (sub_ge (r + a) a my ey ma ea Ey Ea Hey Hea Hle) as H.
  split; [exact (scaled_leb a (r + a) _ _ _ _ Ea Ey Hle)|].
  unfold floor0. rewrite leb0_spec, ltb0_spec.
  destruct (Prim2SF (r + a - a)) as [s|s| |s m e] eqn:E; try contradiction; subst s.
  - split; [reflexivity|].
    rewrite <- (FloatAxioms.SF2Prim_Prim2SF (r + a - a)), E. reflexivity.
  - split; reflexivity.
  - split; reflexivity.
Qed.

End Rounding.


(* ================================================================== *)
(** ** The example stores satisfy the invariant *)
(* ================================================================== *)

Lemma registry_ok it : item_ok it -> store_ok (Ex.registry it).
Proof.
  intros H. split; cbn; intros id x Hl.
  - apply lookup_singleton_Some in Hl as [_ <-]. exact H.
  - apply lookup_singleton_Some in Hl as [<- _]. lia.
  - rewrite lookup_empty in Hl. discriminate.
  - rewrite lookup_empty in Hl. discriminate.
Qed.

Lemma registry_with_ok it amt ip :
  item_ok it -> (0 <? amt)%float = true -> Js.isFinite amt = true ->
  store_ok (Ex.registry_with it amt ip).
Proof.
  intros H Hp Hf. split; cbn; intros id x Hl.
  - apply lookup_singleton_Some in Hl as [_ <-]. exact H.
  - apply lookup_singleton_Some in Hl as [<- _]. lia.
  - apply lookup_singleton_Some in Hl as [_ <-].
    repeat split; cbn; auto; rewrite ?lookup_singleton_eq; eauto.
  - apply lookup_singleton_Some in Hl as [<- _]. lia.
Qed.

Lemma gift_ok total raised funded :
  (0 <=? total)%float = true -> (0 <=? raised)%float = true ->
  item_ok (Ex.gift total raised funded).
Proof. intros Ht Hr. repeat split; assumption. Qed.

(* ================================================================== *)
(** ** Facts about the string helpers *)
(* ================================================================== *)

(** [s] occurs in [raw]. *)
Definition substring_of (s raw : string) : Prop :=
  exists pre post, raw = pre +:+ s +:+ post.

Lemma from_spec c s t :
  Str.from c s = Some t ->
  exists pre t', s = pre +:+ t /\ t = String c t' /\ Str.contains c pre = false.
Proof.
  revert t. induction s as [|d r IH]; intros t H; [discriminate|].
  cbn in H. destruct (Ascii.eqb c d) eqn:E.
  - apply Ascii.eqb_eq in E. subst d. inversion H; subst.
    exists EmptyString, r. repeat split.
  - destruct (IH t H) as (pre & t' & -> & -> & Hpre).
    exists (String d pre), t'. cbn. rewrite E, Hpre. repeat split.
Qed.

Lemma from_none c s : Str.from c s = None -> Str.contains c s = false.
Proof.
  induction s as [|d r IH]; intros H; [reflexivity|].
  cbn in *. destruct (Ascii.eqb c d); [discriminate|]. apply IH, H.
Qed.

Lemma through_spec c s u :
  Str.through c s = Some u ->
  exists mid post,
    s = u +:+ post /\ u = mid +:+ String c EmptyString
    /\ Str.contains c mid = false.
Proof.
  revert u. induction s as [|d r IH]; intros u H; [discriminate|].
  cbn in H. destruct (Ascii.eqb c d) eqn:E.
  - apply Ascii.eqb_eq in E. subst d. inversion H; subst.
    exists EmptyString, r. repeat split.
  - destruct (Str.through c r) as [u'|] eqn:Hu; [|discriminate].
    inversion H; subst. destruct (IH u' eq_refl) as (mid & post & -> & -> & Hmid).
    exists (String d mid), post. cbn. rewrite E, Hmid. repeat split.
Qed.

Lemma through_none c s : Str.through c s = None -> Str.contains c s = false.
Proof.
  induction s as [|d r IH]; intros H; [reflexivity|].
  cbn in *. destruct (Ascii.eqb c d); [discriminate|].
  destruct (Str.through c r); [discriminate|]. apply IH. reflexivity.
Qed.

(** The lazy match: the text from the first opening brace to the first
    closing brace after it. *)
Lemma match_braces_spec raw m :
  Str.match_braces raw = Some m ->
  exists pre mid post,
    raw = pre +:+ m +:+ post
    /\ m = "{" +:+ mid +:+ "}"
    /\ Str.contains "{" pre = false
    /\ Str.contains "}" mid = false.
Proof.
  unfold Str.match_braces. destruct (Str.from "{" raw) as [t|] eqn:Hf; [|discriminate].
  intros Ht. destruct (from_spec _ _ _ Hf) as (pre & t' & -> & -> & Hpre).
  cbn in Ht. destruct (Str.through "}" t') as [u|] eqn:Hu; [|discriminate].
  inversion Ht; subst. destruct (through_spec _ _ _ Hu) as (mid & post & -> & -> & Hmid).
  exists pre, mid, post. repeat split; assumption.
Qed.

(** No match: there is no opening brace, or no closing brace after the
    first opening one. *)
Lemma match_braces_none raw :
  Str.match_braces raw = None ->
  Str.contains "{" raw = false
  \/ exists pre rest,
       raw = pre +:+ String "{" rest /\ Str.contains "{" pre = false
       /\ Str.contains "}" rest = false.
Proof.
  unfold Str.match_braces. destruct (Str.from "{" raw) as [t|] eqn:Hf.
  - intros Ht. right. destruct (from_spec _ _ _ Hf) as (pre & t' & -> & -> & Hpre).
    exists pre, t'. repeat split; [assumption|].
    cbn in Ht. destruct (Str.through "}" t') eqn:Hu; [discriminate|].
    apply through_none, Hu.
  - intros _. left. apply from_none, Hf.
Qed.

Lemma match_braces_substring raw m :
  Str.match_braces raw = Some m -> substring_of m raw.
Proof.
  intros H. destruct (match_braces_spec _ _ H) as (pre & mid & post & -> & _).
  exists pre, post. reflexivity.
Qed.

Lemma append_cons d (pre s : string) : String d pre +:+ s = String d (pre +:+ s).
Proof. reflexivity. Qed.

Lemma append_nil (s : string) : EmptyString +:+ s = s.
Proof. reflexivity. Qed.

Lemma from_here c pre rest :
  Str.contains c pre = false ->
  Str.from c (pre +:+ String c rest) = Some (String c rest).
Proof.
  induction pre as [|d pre IH]; cbn [Str.contains].
  - intros _. rewrite append_nil. cbn [Str.from]. rewrite Ascii.eqb_refl. reflexivity.
  - intros H. apply orb_false_elim in H as [Hd Hpre].
    rewrite append_cons. cbn [Str.from]. rewrite Hd. apply IH, Hpre.
Qed.

Lemma through_here c mid post :
  Str.contains c mid = false ->
  Str.through c (mid +:+ String c post) = Some (mid +:+ String c EmptyString).
Proof.
  induction mid as [|d mid IH]; cbn [Str.contains].
  - intros _. rewrite !append_nil. cbn [Str.through]. rewrite Ascii.eqb_refl.
    reflexivity.
  - intros H. apply orb_false_elim in H as [Hd Hmid].
    rewrite !append_cons. cbn [Str.through]. rewrite Hd, (IH Hmid). reflexivity.
Qed.

(** The converse: a text with an opening brace, and a closing brace after
    it, matches from the first opening brace to the first closing brace
    after it. *)
Lemma match_braces_here pre mid post :
  Str.contains "{" pre = false ->
  Str.contains "}" mid = false ->
  Str.match_braces (pre +:+ "{" +:+ mid +:+ "}" +:+ post)
  = Some ("{" +:+ mid +:+ "}").
Proof.
  intros Hpre Hmid. unfold Str.match_braces.
  change (pre +:+ "{" +:+ mid +:+ "}" +:+ post)
    with (pre +:+ String "{" (mid +:+ String "}" post)).
  rewrite (from_here _ _ _ Hpre). cbn [Str.through].
  change (Ascii.eqb "}" "{") with false. cbv iota.
  rewrite (through_here _ _ _ Hmid). reflexivity.
Qed.

(* ================================================================== *)
(** ** Funding ledger: applying a contribution *)
(* ================================================================== *)

(** The batch of a contribution goes through when the applied amount is
    positive and finite and the new raised amount is finite: the row is
    inserted under a fresh id and the item is updated. *)
Lemma contribution_batch now db itemId item name applied msg ip funded :
  items db !! itemId = Some item ->
  Sql.nonempty name = true ->
  (0 <? applied)%float = true ->
  Js.isFinite applied = true ->
  (0 <=? price_raised item)%float = true ->
  Js.isFinite (price_raised item + applied) = true ->
  Sql.batch now
    [ InsertContribution itemId name applied msg ip;
      SetItemFunding (price_raised item + applied) funded itemId ] db
  = Some
      (set_items
         (<[itemId := set_funding (price_raised item + applied) funded item]>
            (items db))
         (items_seq db)
         (set_contributions
            (<[(contributions_seq db + 1)%Z :=
                 {| item_id := itemId; contributor_name := name;
                    contributor_ip := Some ip; amount := applied;
                    message := msg; c_created_at := now |}]> (contributions db))
            (contributions_seq db + 1)%Z db)).
Proof.
  intros Hitem Hname Hpos Hfin Hr Hsum.
  unfold Sql.batch, Sql.exec at 1. rewrite Hitem.
  unfold Sql.positive. rewrite Hname, Hfin, Hpos. cbn [andb].
  unfold Sql.exec. cbn [items set_contributions]. rewrite Hitem.
  unfold Sql.nonneg. rewrite Hsum, (add_nonneg _ _ Hr Hpos). reflexivity.
Qed.

Section AddContribution.

Local Open Scope float_scope.

Variables (g : Globals) (request : Request) (env : Env) (origin : string).
Variables (db : DB) (b : Body) (itemId : Z) (name : string) (amt : float).

Hypothesis Hauth : authorised request env.
Hypothesis Hjson : json request = Some b.
Hypothesis Hvalid : valid_pledge b itemId name amt.

(** An authorised, valid request reaches the look-up of the item. *)
Lemma create_contribution_lookup :
  handleCreateContribution g request env origin db =
  match items db !! itemId with
  | None => Returns (jsonResponse (JError "Item not found") 404 origin) db
  | Some item =>
      if is_funded item then
        Returns (jsonResponse (JError "This item is already fully funded")
                              409 origin) db
      else
        let remaining := price_total item - price_raised item in
        let appliedAmount := Js.Math_min amt remaining in
        let newRaised := price_raised item + appliedAmount in
        let isFunded := price_total item <=? newRaised in
        commit (jsonResponse (JApplied appliedAmount newRaised isFunded) 201 origin)
          (Sql.batch (datetime_now g)
             [ InsertContribution itemId name appliedAmount
                 (sanitise (b_message b) MAX_MESSAGE_LENGTH) (getIP request);
               SetItemFunding newRaised isFunded itemId ] db)
  end.
Proof.
  destruct Hvalid as [Hi Hnz Hn Hnp Ha Hpos Hfin].
  unfold handleCreateContribution, authorised in *.
  assert (Hg : negb (isGuest request env) && negb (isAdmin request env) = false).
  { destruct (isGuest request env), (isAdmin request env); simpl in *; congruence. }
  rewrite Hg, Hjson, Hi, Hn, Hnp, Ha. simpl Js.Number.
  rewrite amount_check_spec, Hpos, Hfin. simpl.
  destruct itemId; [congruence| |]; reflexivity.
Qed.

(** An accepted contribution: the answer and the store it leaves. *)
Lemma contribution_applied item :
  store_ok db ->
  items db !! itemId = Some item ->
  is_funded item = false ->
  (0 <? price_total item - price_raised item) = true ->
  let applied := Js.Math_min amt (price_total item - price_raised item) in
  let new_raised := price_raised item + applied in
  let funded := price_total item <=? new_raised in
  let cid := (contributions_seq db + 1)%Z in
  Js.isFinite new_raised = true ->
  handleCreateContribution g request env origin db =
    Returns (jsonResponse (JApplied applied new_raised funded) 201 origin)
      (set_items (<[itemId := set_funding new_raised funded item]> (items db))
         (items_seq db)
         (set_contributions
            (<[cid := {| item_id := itemId; contributor_name := name;
                         contributor_ip := Some (getIP request);
                         amount := applied;
                         message := sanitise (b_message b) MAX_MESSAGE_LENGTH;
                         c_created_at := datetime_now g |}]> (contributions db))
            cid db)).
Proof.
  intros Hok Hitem Hopen Hrem applied new_raised funded cid Hsum.
  pose proof (pledge_amount_positive _ _ _ _ Hvalid) as Hpos.
  rewrite create_contribution_lookup, Hitem, Hopen. cbn zeta.
  fold applied. fold new_raised. fold funded.
  unfold new_raised. rewrite contribution_batch; [reflexivity|exact Hitem| | | | |].
  - unfold Sql.nonempty. rewrite (pledge_name_present _ _ _ _ Hvalid). reflexivity.
  - apply Math_min_pos; assumption.
  - apply Math_min_finite; [exact Hpos| |exact Hrem].
    apply (pledge_amount_finite _ _ _ _ Hvalid).
  - apply (items_ok _ Hok _ _ Hitem).
  - exact Hsum.
Qed.

(** C1 (as amended).  For an existing item that is not funded and has a
    positive remaining amount, in a store that satisfies the schema, an
    authorised valid request computes [remaining = price_total -
    price_raised], [applied = min(amount, remaining)], [new_raised =
    price_raised + applied] and [is_funded = (new_raised >= price_total)] in
    binary64 arithmetic; when [new_raised] is finite, the batch inserts the
    contribution with the applied amount and updates the item, and the
    answer is 201 with [{applied_amount, new_raised, is_funded}].  The
    applied amount is positive and exceeds neither the requested nor the
    remaining amount. *)
Theorem add_contribution_applies item :
  store_ok db ->
  items db !! itemId = Some item ->
  is_funded item = false ->
  (0 <? price_total item - price_raised item) = true ->
  let remaining := price_total item - price_raised item in
  let applied := Js.Math_min amt remaining in
  let new_raised := price_raised item + applied in
  let funded := price_total item <=? new_raised in
  let cid := (contributions_seq db + 1)%Z in
  Js.isFinite new_raised = true ->
  handleCreateContribution g request env origin db =
    Returns (jsonResponse (JApplied applied new_raised funded) 201 origin)
      (set_items (<[itemId := set_funding new_raised funded item]> (items db))
         (items_seq db)
         (set_contributions
            (<[cid := {| item_id := itemId; contributor_name := name;
                         contributor_ip := Some (getIP request);
                         amount := applied;
                         message := sanitise (b_message b) MAX_MESSAGE_LENGTH;
                         c_created_at := datetime_now g |}]> (contributions db))
            cid db))
  /\ (0 <? applied) = true
  /\ (applied <=? amt) = true
  /\ (applied <=? remaining) = true.
Proof.
  intros Hok Hitem Hopen Hrem remaining applied new_raised funded cid Hsum.
  pose proof (pledge_amount_positive _ _ _ _ Hvalid) as Hpos.
  split; [|split; [|split]].
  - apply contribution_applied; assumption.
  - apply Math_min_pos; assumption.
  - apply Math_min_le_l; auto using positive_not_nan.
  - apply Math_min_le_r; auto using positive_not_nan.
Qed.

(** C3.  An authorised valid request fails with 404 when no item has the
    given id and with 409 when the item is already funded; in both cases
    the store is returned as it was: no contribution is inserted and the
    item is unchanged. *)
Theorem add_contribution_rejects :
  (items db !! itemId = None ->
   handleCreateContribution g request env origin db
   = Returns (jsonResponse (JError "Item not found") 404 origin) db)
  /\ (forall item,
        items db !! itemId = Some item -> is_funded item = true ->
        handleCreateContribution g request env origin db
        = Returns (jsonResponse (JError "This item is already fully funded")
                                409 origin) db).
Proof.
  split.
  - intros Hnone. rewrite create_contribution_lookup, Hnone. reflexivity.
  - intros item Hitem Hfunded.
    rewrite create_contribution_lookup, Hitem, Hfunded. reflexivity.
Qed.

End AddContribution.

(** The example of the design document: 50 offered on an item at 80 of 100
    applies 20, raises the item to 100 and funds it. *)
Lemma add_contribution_applies_witness :
  handleCreateContribution Ex.globals
    (Ex.guest "POST" "/api/contributions" "203.0.113.5" (Ex.pledge 1 "Ana" 50))
    (Ex.env Ex.silent) "*" (Ex.registry (Ex.gift 100 80 false))
  = Returns (jsonResponse (JApplied 20 100 true) 201 "*")
      (set_items (<[1 := Ex.gift 100 100 true]> {[ 1 := Ex.gift 100 80 false ]}) 1
         (set_contributions
            (<[1 := {| item_id := 1; contributor_name := "Ana";
                       contributor_ip := Some "203.0.113.5";
                       amount := 20%float; message := EmptyString;
                       c_created_at := "2026-04-01 12:00:00" |}]> ∅)
            1 (Ex.registry (Ex.gift 100 80 false)))).
Proof.
  refine (proj1 (add_contribution_applies Ex.globals
                   (Ex.guest "POST" "/api/contributions" "203.0.113.5"
                             (Ex.pledge 1 "Ana" 50))
                   (Ex.env Ex.silent) "*" (Ex.registry (Ex.gift 100 80 false))
                   (Ex.pledge 1 "Ana" 50) 1 "Ana" 50%float
                   _ _ _ (Ex.gift 100 80 false) _ _ _ _ _)).
  - reflexivity.
  - reflexivity.
  - split; solve [reflexivity | discriminate].
  - apply registry_ok, gift_ok; reflexivity.
  - reflexivity.
  - reflexivity.
  - reflexivity.
  - reflexivity.
Defined.

(** C1 fails as stated, twice.  Rounding: on an item at 0.03 of 0.29 an
    offer of 1 is clipped to 0.26 and accepted, and leaves [price_raised]
    above [price_total].  Nothing remaining: on an item of price 0 that is
    not funded the applied amount is 0, the store refuses the row (CHECK
    amount > 0), and the answer is 500 with nothing written. *)
Lemma add_contribution_counterexample :
  (let request :=
     Ex.guest "POST" "/api/contributions" "203.0.113.5" (Ex.pledge 1 "Ana" 1) in
   let db := Ex.registry (Ex.gift (Ex.cents 29) (Ex.cents 3) false) in
   let out := fetch Ex.globals request (Ex.env Ex.silent) db in
   out.1 = jsonResponse (JApplied (Ex.cents 26) (Ex.cents 3 + Ex.cents 26) true)
                        201 "https://example.org"
   /\ (price_raised <$> items out.2 !! 1) = Some (Ex.cents 3 + Ex.cents 26)%float
   /\ (Ex.cents 29 <? Ex.cents 3 + Ex.cents 26)%float = true)
  /\
  (let request :=
     Ex.guest "POST" "/api/contributions" "203.0.113.5" (Ex.pledge 1 "Ana" 5) in
   let db := Ex.registry (Ex.gift 0 0 false) in
   fetch Ex.globals request (Ex.env Ex.silent) db
   = (jsonResponse (JError "Internal Server Error") 500 "https://example.org", db)).
Proof. split; [repeat split|]; vm_compute; reflexivity. Qed.

(** A sum that is not finite.  On an item of price 1.7976931348623157e308,
    the largest number, raised to 2.9937604643020797e292, an offer of the
    price is clipped to what remains; the new raised amount is Infinity,
    which is bound as NULL: the batch is refused and the answer is 500,
    with nothing written. *)
Example add_contribution_overflow :
  let largest := 0x1.fffffffffffffp+1023%float in
  let db := Ex.registry (Ex.gift largest 0x1.8p+971 false) in
  Js.isFinite (0x1.8p+971 + Js.Math_min largest (largest - 0x1.8p+971)) = false
  /\ fetch Ex.globals
       (Ex.guest "POST" "/api/contributions" "203.0.113.5"
                 (Ex.pledge 1 "Ana" largest))
       (Ex.env Ex.silent) db
     = (jsonResponse (JError "Internal Server Error") 500 "https://example.org",
        db).
Proof. split; vm_compute; reflexivity. Qed.

(** A pledge for item 2, which does not exist, and one for item 1, which is
    funded: 404 and 409, and the store is as before. *)
Lemma add_contribution_rejects_witness :
  let db := Ex.registry (Ex.gift 100 100 true) in
  handleCreateContribution Ex.globals
    (Ex.guest "POST" "/api/contributions" "203.0.113.5" (Ex.pledge 2 "Ana" 50))
    (Ex.env Ex.silent) "*" db
  = Returns (jsonResponse (JError "Item not found") 404 "*") db
  /\ handleCreateContribution Ex.globals
       (Ex.guest "POST" "/api/contributions" "203.0.113.5" (Ex.pledge 1 "Ana" 50))
       (Ex.env Ex.silent) "*" db
     = Returns (jsonResponse (JError "This item is already fully funded")
                             409 "*") db.
Proof.
  intros db. split.
  - refine (proj1 (add_contribution_rejects Ex.globals
                     (Ex.guest "POST" "/api/contributions" "203.0.113.5"
                               (Ex.pledge 2 "Ana" 50))
                     (Ex.env Ex.silent) "*" db (Ex.pledge 2 "Ana" 50) 2 "Ana"
                     50%float _ _ _) _);
      try reflexivity.
    split; solve [reflexivity | discriminate].
  - refine (proj2 (add_contribution_rejects Ex.globals
                     (Ex.guest "POST" "/api/contributions" "203.0.113.5"
                               (Ex.pledge 1 "Ana" 50))
                     (Ex.env Ex.silent) "*" db (Ex.pledge 1 "Ana" 50) 1 "Ana"
                     50%float _ _ _) (Ex.gift 100 100 true) _ _);
      try reflexivity.
    split; solve [reflexivity | discriminate].
Defined.

(* ================================================================== *)
(** ** Funding ledger: cancelling a contribution *)
(* ================================================================== *)

(** The batch of a cancellation goes through when the item's raised amount
    is not negative and the contribution's amount is finite. *)
Lemma refund_batch now db id c it :
  items db !! item_id c = Some it ->
  (0 <=? price_raised it)%float = true ->
  Js.isFinite (amount c) = true ->
  Sql.batch now [ DeleteContribution id; RefundItem (amount c) (item_id c) ] db
  = Some (set_items
            (<[item_id c := set_funding (floor0 (price_raised it - amount c)%float)
                                        false it]> (items db))
            (items_seq db)
            (set_contributions (delete id (contributions db))
                               (contributions_seq db) db)).
Proof.
  intros Hit Hnn Hfin.
  unfold Sql.batch, Sql.exec. cbn [items set_contributions]. rewrite Hit, Hfin.
  rewrite max0_floor0; [reflexivity|]. apply sub_not_nan; assumption.
Qed.

Section CancelContribution.

Local Open Scope float_scope.

Variables (g : Globals) (request : Request) (env : Env) (origin : string).
Variables (db : DB) (id : Z) (c : Contribution) (it : Item).

Hypothesis Hok : store_ok db.
Hypothesis Hc : contributions db !! id = Some c.
Hypothesis Hit : items db !! item_id c = Some it.

(** The store after the batch of a cancellation: the row is gone, the item
    is at [MAX(0, price_raised - amount)] and not funded. *)
Definition cancelled : DB :=
  set_items
    (<[item_id c := set_funding (floor0 (price_raised it - amount c)) false it]>
       (items db))
    (items_seq db)
    (set_contributions (delete id (contributions db)) (contributions_seq db) db).

Lemma cancel_batch :
  Sql.batch (datetime_now g)
    [ DeleteContribution id; RefundItem (amount c) (item_id c) ] db
  = Some cancelled.
Proof.
  apply refund_batch.
  - exact Hit.
  - apply (items_ok _ Hok _ _ Hit).
  - apply (contributions_ok _ Hok _ _ Hc).
Qed.

(** C2.  Cancelling an existing contribution of amount [a] on an item whose
    [price_raised] is [r], by its owner on DELETE /api/my-contributions/:id
    or by the admin on DELETE /api/contributions/:id, deletes the row and in
    the same batch sets [price_raised] to [MAX(0, r - a)], which is never
    negative, and [is_funded] to false whatever the prices are. *)
Theorem cancel_contribution_refunds :
  (authorised request env -> owned_by (getIP request) c = true ->
   handleDeleteMyContribution g request env origin (Some id) db
   = Returns (jsonResponse JSuccess 200 origin) cancelled)
  /\ (isAdmin request env = true ->
      handleAdminDeleteContribution g request env origin (Some id) db
      = Returns (jsonResponse JSuccess 200 origin) cancelled)
  /\ contributions cancelled !! id = None
  /\ items cancelled !! item_id c
     = Some (set_funding (floor0 (price_raised it - amount c)) false it)
  /\ (0 <=? floor0 (price_raised it - amount c)) = true.
Proof.
  repeat split.
  - intros Hauth Hown. unfold handleDeleteMyContribution, authorised in *.
    assert (Hg : negb (isGuest request env) && negb (isAdmin request env) = false).
    { destruct (isGuest request env), (isAdmin request env); simpl in *; congruence. }
    rewrite Hg, Hc, Hown, cancel_batch. reflexivity.
  - intros Hadmin. unfold handleAdminDeleteContribution.
    rewrite Hadmin, Hc, cancel_batch. reflexivity.
  - cbn. apply lookup_delete_eq.
  - cbn. apply lookup_insert_eq.
  - apply floor0_nonneg.
Qed.

End CancelContribution.

(** Cancelling 150 against an item raised to 100 leaves 0, for the owner
    and for the admin. *)
Lemma cancel_contribution_refunds_witness :
  let db := Ex.registry_with (Ex.gift 100 100 true) 150 "203.0.113.5" in
  let after :=
    set_items (<[1 := Ex.gift 100 0 false]> (items db)) 1
      (set_contributions (delete 7 (contributions db)) 7 db) in
  handleDeleteMyContribution Ex.globals
    (Ex.guest "DELETE" "/api/my-contributions/7" "203.0.113.5" Ex.empty_body)
    (Ex.env Ex.silent) "*" (Some 7) db
  = Returns (jsonResponse JSuccess 200 "*") after
  /\ handleAdminDeleteContribution Ex.globals
       (Ex.admin "DELETE" "/api/contributions/7" "198.51.100.9" Ex.empty_body)
       (Ex.env Ex.silent) "*" (Some 7) db
     = Returns (jsonResponse JSuccess 200 "*") after.
Proof.
  intros db after.
  assert (Hok : store_ok db).
  { apply registry_with_ok; [apply gift_ok| |]; reflexivity. }
  split.
  - refine (proj1 (cancel_contribution_refunds Ex.globals
                     (Ex.guest "DELETE" "/api/my-contributions/7" "203.0.113.5"
                               Ex.empty_body)
                     (Ex.env Ex.silent) "*" db 7 (Ex.pledged 150 "203.0.113.5")
                     (Ex.gift 100 100 true) Hok _ _) _ _); reflexivity.
  - refine (proj1 (proj2 (cancel_contribution_refunds Ex.globals
                     (Ex.admin "DELETE" "/api/contributions/7" "198.51.100.9"
                               Ex.empty_body)
                     (Ex.env Ex.silent) "*" db 7 (Ex.pledged 150 "203.0.113.5")
                     (Ex.gift 100 100 true) Hok _ _)) _); reflexivity.
Defined.

(** A cancellation resets [is_funded] although the raised amount still
    reaches the price: 30 cancelled on an item raised to 100 of a price
    lowered to 50. *)
Example cancel_keeps_unfunded :
  items (fetch Ex.globals
           (Ex.guest "DELETE" "/api/my-contributions/7" "203.0.113.5"
                     Ex.empty_body)
           (Ex.env Ex.silent)
           (Ex.registry_with (Ex.gift 50 100 true) 30 "203.0.113.5")).2 !! 1
  = Some (Ex.gift 50 70 false).
Proof. vm_compute. reflexivity. Qed.

(* ================================================================== *)
(** ** Access guard: the login-attempt limiter *)
(* ================================================================== *)

Section LoginLimiter.

Variables (admin : bool) (g : Globals) (env : Env) (origin : string).

Let key (request : Request) : string * string :=
  (auth_identity admin request, todayUTC g).

Lemma auth_handler_unfold request db :
  auth_handler admin g request env origin db =
  if (10 <=? attempts admin g request db)%Z then Returns (too_many origin) db
  else
    match json request with
    | None => Throws
    | Some b =>
        if match b_password b with
           | Some p => String.eqb p (auth_secret admin env)
           | None => false
           end
        then
          Returns (jsonResponse JSuccess 200 origin)
            (set_chat_rate_limit (delete (key request) (chat_rate_limit db)) db)
        else
          Returns (jsonResponse (JError (auth_wrong admin)) 401 origin)
            (set_chat_rate_limit
               (<[key request := attempts admin g request db + 1]>
                  (chat_rate_limit db)) db)
    end.
Proof.
  unfold auth_handler, attempts, key, auth_identity, auth_secret, auth_wrong.
  destruct admin; unfold handleAdminAuth, handleGuestAuth, handleAuth;
    cbn [Sql.exec commit];
    destruct (chat_rate_limit db !! _); reflexivity.
Qed.

Lemma password_test b secret :
  match b_password b with
  | Some p => String.eqb p secret
  | None => false
  end = true <-> b_password b = Some secret.
Proof.
  destruct (b_password b) as [p|]; [|split; discriminate].
  rewrite String.eqb_eq. split; congruence.
Qed.

Lemma auth_limited request db :
  10 <= attempts admin g request db ->
  auth_handler admin g request env origin db = Returns (too_many origin) db.
Proof.
  intros H. rewrite auth_handler_unfold.
  destruct (Z.leb_spec 10 (attempts admin g request db)); [reflexivity|lia].
Qed.

Lemma auth_success request db b :
  attempts admin g request db < 10 ->
  json request = Some b ->
  b_password b = Some (auth_secret admin env) ->
  auth_handler admin g request env origin db
  = Returns (jsonResponse JSuccess 200 origin)
      (set_chat_rate_limit (delete (key request) (chat_rate_limit db)) db).
Proof.
  intros H Hb Hp. rewrite auth_handler_unfold, Hb.
  destruct (Z.leb_spec 10 (attempts admin g request db)); [lia|].
  apply password_test in Hp. rewrite Hp. reflexivity.
Qed.

Lemma auth_failure request db b :
  attempts admin g request db < 10 ->
  json request = Some b ->
  b_password b <> Some (auth_secret admin env) ->
  auth_handler admin g request env origin db
  = Returns (jsonResponse (JError (auth_wrong admin)) 401 origin)
      (set_chat_rate_limit
         (<[key request := attempts admin g request db + 1]>
            (chat_rate_limit db)) db).
Proof.
  intros H Hb Hp. rewrite auth_handler_unfold, Hb.
  destruct (Z.leb_spec 10 (attempts admin g request db)); [lia|].
  destruct (match b_password b with Some p => _ | None => _ end) eqn:E;
    [|reflexivity].
  apply password_test in E. contradiction.
Qed.

(** After [k <= 10] wrong passwords in a row the counter stands at [k]. *)
Lemma attempts_after_failures request db b (k : nat) :
  chat_rate_limit db !! key request = None ->
  json request = Some b ->
  b_password b <> Some (auth_secret admin env) ->
  (k <= 10)%nat ->
  attempts admin g request
    (Nat.iter k (after_attempt admin g request env origin) db) = Z.of_nat k.
Proof.
  intros Hnone Hb Hp. induction k as [|k IH]; intros Hk.
  - cbn. unfold attempts. fold (key request). rewrite Hnone. reflexivity.
  - rewrite Nat.iter_succ.
    set (dbk := Nat.iter k (after_attempt admin g request env origin) db) in *.
    unfold after_attempt.
    rewrite (auth_failure _ _ b) by (rewrite ?IH; auto; lia).
    unfold attempts at 1. cbn [chat_rate_limit set_chat_rate_limit].
    fold (key request). rewrite lookup_insert_eq.
    change (attempts admin g request dbk + 1 = Z.of_nat (S k)).
    rewrite IH; lia.
Qed.

(** C4.  On either login endpoint, for the caller's identity on one day: a
    counter of 10 or more answers 429 without reading the password; below
    10 the right password deletes the counter and answers 200, and a wrong
    one adds 1 to it and answers 401; so 10 wrong passwords in a row from
    no counter are answered 401 each, and the 11th attempt of that identity
    is answered 429 whatever password it carries. *)
Theorem login_limiter request db :
  (10 <= attempts admin g request db ->
   auth_handler admin g request env origin db = Returns (too_many origin) db)
  /\ (forall b,
        attempts admin g request db < 10 -> json request = Some b ->
        (b_password b = Some (auth_secret admin env) ->
         auth_handler admin g request env origin db
         = Returns (jsonResponse JSuccess 200 origin)
             (set_chat_rate_limit (delete (key request) (chat_rate_limit db)) db))
        /\ (b_password b <> Some (auth_secret admin env) ->
            auth_handler admin g request env origin db
            = Returns (jsonResponse (JError (auth_wrong admin)) 401 origin)
                (set_chat_rate_limit
                   (<[key request := attempts admin g request db + 1]>
                      (chat_rate_limit db)) db)))
  /\ (forall b,
        chat_rate_limit db !! key request = None ->
        json request = Some b ->
        b_password b <> Some (auth_secret admin env) ->
        let tried k := Nat.iter k (after_attempt admin g request env origin) db in
        (forall k, (k < 10)%nat ->
           auth_handler admin g request env origin (tried k)
           = Returns (jsonResponse (JError (auth_wrong admin)) 401 origin)
                     (tried (S k)))
        /\ (forall request',
              auth_identity admin request' = auth_identity admin request ->
              auth_handler admin g request' env origin (tried 10%nat)
              = Returns (too_many origin) (tried 10%nat))).
Proof.
  split; [apply auth_limited|]. split.
  - intros b Hlt Hb. split; intros Hp;
      [apply (auth_success _ _ b)|apply (auth_failure _ _ b)]; assumption.
  - intros b Hnone Hb Hp tried. split.
    + intros k Hk. unfold tried. rewrite Nat.iter_succ.
      set (dbk := Nat.iter k (after_attempt admin g request env origin) db).
      assert (Hlt : attempts admin g request dbk < 10).
      { unfold dbk. rewrite (attempts_after_failures _ _ b); auto; lia. }
      unfold after_attempt.
      rewrite (auth_failure _ _ b Hlt Hb Hp). reflexivity.
    + intros request' Hsame. apply auth_limited.
      unfold attempts. rewrite Hsame.
      change (10 <= attempts admin g request (tried 10%nat)).
      unfold tried. rewrite (attempts_after_failures _ _ b); auto; lia.
Qed.

End LoginLimiter.

(** Ten wrong admin passwords from one address, then the right one: the
    eleventh attempt is answered 429. *)
Lemma login_limiter_witness :
  auth_handler true Ex.globals Ex.right_login (Ex.env Ex.silent) "*"
    (Nat.iter 10
       (after_attempt true Ex.globals Ex.wrong_login (Ex.env Ex.silent) "*")
       Ex.shop)
  = Returns (too_many "*")
      (Nat.iter 10
         (after_attempt true Ex.globals Ex.wrong_login (Ex.env Ex.silent) "*")
         Ex.shop).
Proof.
  pose proof (login_limiter true Ex.globals (Ex.env Ex.silent) "*"
                Ex.wrong_login Ex.shop) as [_ [_ H]].
  specialize (H (Ex.password "guess")).
  assert (H1 : chat_rate_limit Ex.shop
               !! (auth_identity true Ex.wrong_login, todayUTC Ex.globals) = None)
    by (vm_compute; reflexivity).
  assert (H2 : json Ex.wrong_login = Some (Ex.password "guess")) by reflexivity.
  assert (H3 : b_password (Ex.password "guess")
               <> Some (auth_secret true (Ex.env Ex.silent)))
    by (vm_compute; discriminate).
  destruct (H H1 H2 H3) as [_ H4].
  apply H4. vm_compute. reflexivity.
Defined.

(** After the ten wrong passwords the counter of the address stands at 10. *)
Example ten_failures_counted :
  chat_rate_limit
    (Nat.iter 10
       (after_attempt true Ex.globals Ex.wrong_login (Ex.env Ex.silent) "*")
       Ex.shop)
  !! ("admin:203.0.113.5", "2026-04-01") = Some 10.
Proof. vm_compute. reflexivity. Qed.

(* ================================================================== *)
(** ** Owner cancellation: a foreign contribution looks absent *)
(* ================================================================== *)

(** C7.  On DELETE /api/my-contributions/:id an authorised caller whose
    address is not the stored [contributor_ip] of an existing contribution
    gets the very answer given for an id that names no contribution: 404
    with the same body; in both cases the store is returned unchanged. *)
Theorem foreign_contribution_not_found g request env origin db id c id' :
  authorised request env ->
  contributions db !! id = Some c ->
  owned_by (getIP request) c = false ->
  contributions db !! id' = None ->
  handleDeleteMyContribution g request env origin (Some id) db
  = Returns (jsonResponse (JError NOT_FOUND_PT) 404 origin) db
  /\ handleDeleteMyContribution g request env origin (Some id') db
     = Returns (jsonResponse (JError NOT_FOUND_PT) 404 origin) db.
Proof.
  intros Hauth Hc Hown Hnone. unfold handleDeleteMyContribution, authorised in *.
  assert (Hg : negb (isGuest request env) && negb (isAdmin request env) = false).
  { destruct (isGuest request env), (isAdmin request env); simpl in *; congruence. }
  rewrite Hg, Hc, Hown, Hnone. split; reflexivity.
Qed.

(** Contribution 7 was made from another address; contribution 8 does not
    exist. *)
Lemma foreign_contribution_not_found_witness :
  let request :=
    Ex.guest "DELETE" "/api/my-contributions/7" "198.51.100.9" Ex.empty_body in
  let db := Ex.registry_with (Ex.gift 100 80 false) 80 "203.0.113.5" in
  handleDeleteMyContribution Ex.globals request (Ex.env Ex.silent) "*" (Some 7) db
  = Returns (jsonResponse (JError NOT_FOUND_PT) 404 "*") db
  /\ handleDeleteMyContribution Ex.globals request (Ex.env Ex.silent) "*" (Some 8) db
     = Returns (jsonResponse (JError NOT_FOUND_PT) 404 "*") db.
Proof.
  intros request db.
  refine (foreign_contribution_not_found Ex.globals request (Ex.env Ex.silent) "*"
            db 7 (Ex.pledged 80 "203.0.113.5") 8 _ _ _ _); reflexivity.
Defined.

(* ================================================================== *)
(** ** Updating an item *)
(* ================================================================== *)

Section UpdateItem.

Local Open Scope float_scope.

Variables (g : Globals) (request : Request) (env : Env) (origin : string).
Variables (db : DB) (id : Z) (b : Body) (existing : Item).

Hypothesis Hadmin : isAdmin request env = true.
Hypothesis Hjson : json request = Some b.
Hypothesis Hexisting : items db !! id = Some existing.
Hypothesis Hok : store_ok db.

(** The row that a patch with a title writes. *)
Definition patched : Item :=
  {| title := sanitise (b_title b) MAX_GENERIC_STRING;
     description :=
       or_else (sanitise (b_description b) MAX_GENERIC_STRING) (description existing);
     image_url :=
       or_else (sanitise (b_image_url b) MAX_GENERIC_STRING) (image_url existing);
     product_url :=
       or_else (sanitise (b_product_url b) MAX_GENERIC_STRING) (product_url existing);
     price_total := default (price_total existing) (b_price_total b);
     price_raised := price_raised existing;
     is_funded :=
       match b_is_funded b with
       | Some f => f =? 1
       | None => is_funded existing
       end;
     created_at := created_at existing |}.

(** C8 (as amended).  The title is required: a patch whose title is blank
    or absent once sanitised is answered 400 and changes nothing.  A patch
    with a title, whose price (if given) is a finite number that is not
    negative and whose funded flag (if given) is 0 or 1, is answered 200
    and rewrites the row: the sanitised title; for description, image and
    product link the sanitised value, or the stored one when that is blank
    or absent; for price and funded flag the number given, or the stored
    one when the field is absent (the stored price is bound again and has
    to be finite); and [price_raised] and [created_at], which no patch
    reaches, as stored.  Every other row of the store is left as it was. *)
Theorem update_item_patches :
  (blank (sanitise (b_title b) MAX_GENERIC_STRING) = true ->
   handleUpdateItem g request env origin (Some id) db
   = Returns (jsonResponse (JError "title is required") 400 origin) db)
  /\ (blank (sanitise (b_title b) MAX_GENERIC_STRING) = false ->
      (forall t, b_price_total b = Some t -> Sql.nonneg t = true) ->
      (b_price_total b = None -> Js.isFinite (price_total existing) = true) ->
      (forall f, b_is_funded b = Some f -> Sql.flag f <> None) ->
      handleUpdateItem g request env origin (Some id) db
      = Returns (jsonResponse JSuccess 200 origin)
          (set_items (<[id := patched]> (items db)) (items_seq db) db)
      /\ (blank (sanitise (b_description b) MAX_GENERIC_STRING) = true ->
          description patched = description existing)
      /\ (blank (sanitise (b_image_url b) MAX_GENERIC_STRING) = true ->
          image_url patched = image_url existing)
      /\ (blank (sanitise (b_product_url b) MAX_GENERIC_STRING) = true ->
          product_url patched = product_url existing)
      /\ (b_price_total b = None -> price_total patched = price_total existing)
      /\ (b_is_funded b = None -> is_funded patched = is_funded existing)
      /\ price_raised patched = price_raised existing
      /\ created_at patched = created_at existing).
Proof.
  split.
  - intros Hblank. unfold handleUpdateItem. rewrite Hadmin, Hjson, Hblank.
    reflexivity.
  - intros Htitle Hprice Hstored Hflag. split.
    + unfold handleUpdateItem. rewrite Hadmin, Hjson, Htitle, Hexisting.
      cbn [negb]. unfold Sql.exec. rewrite Hexisting.
      assert (Hf : Sql.flag (match b_is_funded b with
                             | Some funded => funded
                             | None => if is_funded existing then 1 else 0
                             end) = Some (is_funded patched)).
      { cbn [is_funded patched]. destruct (b_is_funded b) as [f|] eqn:E.
        - specialize (Hflag f eq_refl). unfold Sql.flag in *.
          destruct (f =? 1); [reflexivity|]. destruct (f =? 0); congruence.
        - apply flag_of_bool. }
      rewrite Hf.
      assert (Hp : Sql.nonneg (match b_price_total b with
                               | Some total => total
                               | None => price_total existing
                               end) = true).
      { destruct (b_price_total b) as [t|] eqn:E; [apply Hprice; reflexivity|].
        apply nonneg_spec. split; [apply Hstored; reflexivity|].
        apply (items_ok _ Hok _ _ Hexisting). }
      unfold Sql.nonempty. rewrite Htitle, Hp. cbn [negb andb commit].
      unfold patched, set_details.
      destruct (b_price_total b); reflexivity.
    + cbn. unfold or_else. repeat split.
      * intros ->. reflexivity.
      * intros ->. reflexivity.
      * intros ->. reflexivity.
      * intros ->. reflexivity.
      * intros ->. reflexivity.
Qed.

End UpdateItem.

(** A patch that renames item 1 and leaves everything else out: the other
    columns keep their values. *)
Lemma update_item_patches_witness :
  handleUpdateItem Ex.globals
    (Ex.admin "PUT" "/api/items/1" "198.51.100.9" (Ex.patch (Some " Camera ") None))
    (Ex.env Ex.silent) "*" (Some 1) Ex.shop
  = Returns (jsonResponse JSuccess 200 "*")
      (set_items
         (<[1 := {| title := "Camera"; description := "Video monitor";
                    image_url := EmptyString; product_url := EmptyString;
                    price_total := 100%float; price_raised := 80%float;
                    is_funded := false;
                    created_at := "2026-03-01 10:00:00" |}]> (items Ex.shop))
         1 Ex.shop).
Proof.
  pose proof (update_item_patches Ex.globals
                (Ex.admin "PUT" "/api/items/1" "198.51.100.9"
                          (Ex.patch (Some " Camera ") None))
                (Ex.env Ex.silent) "*" Ex.shop 1
                (Ex.patch (Some " Camera ") None) (Ex.gift 100 80 false)) as H.
  assert (H1 : isAdmin (Ex.admin "PUT" "/api/items/1" "198.51.100.9"
                                 (Ex.patch (Some " Camera ") None))
                       (Ex.env Ex.silent) = true) by (vm_compute; reflexivity).
  assert (H2 : store_ok Ex.shop) by (apply registry_ok, gift_ok; reflexivity).
  destruct (H H1 eq_refl eq_refl H2) as [_ H3].
  apply H3; [reflexivity | discriminate | reflexivity | discriminate].
Defined.

(** C8 fails as stated for the title: a patch with an empty title and a new
    description is answered 400 and the item keeps its description; so is
    a patch that does not mention the title.  It fails for a blank number
    too: a price that is present but null is read as [Number(null)], and
    the price of 100 is rewritten to 0. *)
Lemma update_item_counterexample :
  fetch Ex.globals
    (Ex.admin "PUT" "/api/items/1" "198.51.100.9"
              (Ex.patch (Some EmptyString) (Some "A better monitor")))
    (Ex.env Ex.silent) Ex.shop
  = (jsonResponse (JError "title is required") 400 "https://example.org", Ex.shop)
  /\ fetch Ex.globals
       (Ex.admin "PUT" "/api/items/1" "198.51.100.9"
                 (Ex.patch None (Some "A better monitor")))
       (Ex.env Ex.silent) Ex.shop
     = (jsonResponse (JError "title is required") 400 "https://example.org", Ex.shop)
  /\ (let out :=
        fetch Ex.globals
          (Ex.admin "PUT" "/api/items/1" "198.51.100.9"
                    (Ex.priced "Monitor" Js.Number_null))
          (Ex.env Ex.silent) Ex.shop in
      out.1 = jsonResponse JSuccess 200 "https://example.org"
      /\ (price_total <$> items Ex.shop !! 1) = Some 100%float
      /\ (price_total <$> items out.2 !! 1) = Some 0%float).
Proof. repeat split; vm_compute; reflexivity. Qed.

(** A price that is not finite is bound as NULL: the update is refused and
    the request is answered 500, with nothing written. *)
Example update_item_infinite_price :
  fetch Ex.globals
    (Ex.admin "PUT" "/api/items/1" "198.51.100.9" (Ex.priced "Monitor" infinity))
    (Ex.env Ex.silent) Ex.shop
  = (jsonResponse (JError "Internal Server Error") 500 "https://example.org",
     Ex.shop).
Proof. vm_compute. reflexivity. Qed.

(* ================================================================== *)
(** ** Chat: validation of the extracted proposal *)
(* ================================================================== *)

Lemma pending_no_match g items mine raw :
  Str.match_braces raw = None -> pending g items mine raw = (None, None).
Proof. intros H. unfold pending. rewrite H. reflexivity. Qed.

Lemma pending_no_parse g items mine raw m :
  Str.match_braces raw = Some m -> JSON_parse g m = None ->
  pending g items mine raw = (None, None).
Proof. intros H1 H2. unfold pending. rewrite H1, H2. reflexivity. Qed.

Section Pending.

Local Open Scope float_scope.

Variables (g : Globals) (items : list (Z * Item)) (mine : list ContributionRow).




(** The text between the first opening brace and the first closing brace
    after it is the text that is parsed. *)
Lemma pending_match pre mid post :
  Str.contains "{" pre = false ->
  Str.contains "}" mid = false ->
  pending g items mine (pre +:+ "{" +:+ mid +:+ "}" +:+ post)
  = match JSON_parse g ("{" +:+ mid +:+ "}") with
    | Some data => proposal items mine data
    | None => (None, None)
    end.
Proof.
  intros Hpre Hmid. unfold pending.
  rewrite (match_braces_here _ _ _ Hpre Hmid). reflexivity.
Qed.

End Pending.

Section Chat.

Local Open Scope float_scope.

Variables (g : Globals) (request : Request) (env : Env) (origin : string).
Variables (db : DB) (b : Body).

Hypothesis Hauth : authorised request env.
Hypothesis Hjson : json request = Some b.
Hypothesis Hmessage : blank (sanitise (b_message b) MAX_MESSAGE_LENGTH) = false.

(** The snapshots and the history of the turn. *)
Let message := sanitise (b_message b) MAX_MESSAGE_LENGTH.
Let gifts := select_items db.
Let mine := select_contributions (owned_by (getIP request)) db.
Let history := Str.last_n 10 (default [] (b_history b)).

Definition reply_of (response : option string) : string :=
  Str.trim (Str.strip_markers false (default APOLOGY response)).

(** The turn of an authorised caller with a message, call by call. *)
Lemma chat_turn :
  handleChat g request env origin db =
  match AI env (Responder gifts mine history message) with
  | AiRejects => Throws
  | AiResolves response =>
      match AI env (Extractor gifts mine history message (reply_of response)) with
      | AiRejects => Throws
      | AiResolves response' =>
          Returns (jsonResponse
                     (JChat (reply_of response)
                        (pending g gifts mine (default "null" response')).1
                        (pending g gifts mine (default "null" response')).2)
                     200 origin) db
      end
  end.
Proof.
  unfold handleChat, authorised in *.
  assert (Hg : negb (isGuest request env) && negb (isAdmin request env) = false).
  { destruct (isGuest request env), (isAdmin request env); simpl in *; congruence. }
  rewrite Hg, Hjson, Hmessage.
  fold message. fold gifts. fold mine. fold history.
  destruct (AI env (Responder gifts mine history message)) as [|response];
    [reflexivity|].
  fold (reply_of response).
  destruct (AI env (Extractor gifts mine history message (reply_of response)))
    as [|response']; [reflexivity|].
  destruct (pending g gifts mine (default "null" response')); reflexivity.
Qed.


(** C6 (as amended).  The pipeline takes the text from the first opening
    brace of the extractor's output to the first closing brace after it,
    whatever stands before, between and after, and gives exactly that text
    to [JSON.parse]: the turn is answered 200 with what the parsed object
    puts forward, and with both pending fields null when the text does not
    parse.  When the output has no such text the answer is 200 with both
    fields null; that is so for every output no part of which parses, and
    for a missing output or the word null. *)
Theorem extraction_lazy_match response response' :
  AI env (Responder gifts mine history message) = AiResolves response ->
  AI env (Extractor gifts mine history message (reply_of response))
  = AiResolves response' ->
  let raw := default "null" response' in
  let answer p :=
    Returns (jsonResponse (JChat (reply_of response) p.1 p.2) 200 origin) db in
  (forall pre mid post,
     raw = pre +:+ "{" +:+ mid +:+ "}" +:+ post ->
     Str.contains "{" pre = false ->
     Str.contains "}" mid = false ->
     Str.match_braces raw = Some ("{" +:+ mid +:+ "}")
     /\ handleChat g request env origin db
        = answer match JSON_parse g ("{" +:+ mid +:+ "}") with
                 | Some data => proposal gifts mine data
                 | None => (None, None)
                 end)
  /\ (Str.match_braces raw = None ->
      handleChat g request env origin db = answer (None, None))
  /\ ((forall s, substring_of s raw -> JSON_parse g s = None) ->
      handleChat g request env origin db = answer (None, None))
  /\ (response' = None \/ response' = Some "null" ->
      handleChat g request env origin db = answer (None, None)).
Proof.
  intros H1 H2 raw answer.
  assert (Hturn : handleChat g request env origin db
                  = answer (pending g gifts mine raw)).
  { rewrite chat_turn, H1, H2. reflexivity. }
  assert (Hnone : Str.match_braces raw = None ->
                  handleChat g request env origin db = answer (None, None)).
  { intros Hm. rewrite Hturn, (pending_no_match _ _ _ _ Hm). reflexivity. }
  split; [|split; [exact Hnone|split]].
  - intros pre mid post Hraw Hpre Hmid. split.
    + rewrite Hraw. apply match_braces_here; assumption.
    + rewrite Hturn, Hraw, (pending_match g gifts mine _ _ _ Hpre Hmid).
      reflexivity.
  - intros Hall. destruct (Str.match_braces raw) as [m|] eqn:Hm.
    + rewrite Hturn, (pending_no_parse _ _ _ _ m Hm); [reflexivity|].
      apply Hall, match_braces_substring, Hm.
    + apply Hnone. reflexivity.
  - intros [->| ->]; apply Hnone; reflexivity.
Qed.

End Chat.

(** A guest tells the assistant a gift, a name and an amount, and the
    extractor returns the contribution as one flat object: it is surfaced
    for confirmation. *)
Example contribution_surfaced :
  handleChat Ex.globals
    (Ex.guest "POST" "/api/chat" "203.0.113.5" (Ex.say "20 euros, Ana"))
    (Ex.env (Ex.scripted "Obrigado, Ana!"
               (RefJson.text
                  "{'action':'contribute','item_id':1,'name':'Ana','amount':20,'message':'Parabens'}")))
    "*" Ex.shop
  = Returns (jsonResponse
               (JChat "Obrigado, Ana!"
                  (Some {| cp_item_id := 1; cp_item_title := "Monitor";
                           cp_name := "Ana"; cp_amount := 20%float;
                           cp_message := "Parabens" |})
                  None) 200 "*") Ex.shop.
Proof. vm_compute. reflexivity. Qed.



(** The extractor wraps its object in prose: the object is taken from
    between the braces and the contribution is put forward. *)
Lemma extraction_lazy_match_witness :
  handleChat Ex.globals
    (Ex.guest "POST" "/api/chat" "203.0.113.5" (Ex.say "20 euros, Ana"))
    (Ex.env (Ex.scripted "Obrigado, Ana!"
               ("Claro: " +:+ "{"
                +:+ RefJson.text "'action':'contribute','item_id':1,'name':'Ana','amount':20"
                +:+ "}" +:+ " Confirmas?")))
    "*" Ex.shop
  = Returns (jsonResponse
               (JChat "Obrigado, Ana!"
                  (Some {| cp_item_id := 1; cp_item_title := "Monitor";
                           cp_name := "Ana"; cp_amount := 20%float;
                           cp_message := EmptyString |})
                  None) 200 "*") Ex.shop.
Proof.
  destruct (extraction_lazy_match Ex.globals
              (Ex.guest "POST" "/api/chat" "203.0.113.5" (Ex.say "20 euros, Ana"))
              (Ex.env (Ex.scripted "Obrigado, Ana!"
                 ("Claro: " +:+ "{"
                  +:+ RefJson.text "'action':'contribute','item_id':1,'name':'Ana','amount':20"
                  +:+ "}" +:+ " Confirmas?")))
              "*" Ex.shop (Ex.say "20 euros, Ana")
              ltac:(vm_compute; reflexivity) eq_refl ltac:(vm_compute; reflexivity)
              (Some "Obrigado, Ana!")
              (Some ("Claro: " +:+ "{"
                  +:+ RefJson.text "'action':'contribute','item_id':1,'name':'Ana','amount':20"
                  +:+ "}" +:+ " Confirmas?"))
              eq_refl ltac:(vm_compute; reflexivity)) as (H & _).
  destruct (H "Claro: "
              (RefJson.text "'action':'contribute','item_id':1,'name':'Ana','amount':20")
              " Confirmas?" eq_refl
              ltac:(vm_compute; reflexivity) ltac:(vm_compute; reflexivity))
    as (_ & E).
  etransitivity; [exact E|]. vm_compute. reflexivity.
Defined.

(** The extractor answers the word null: no action, status 200. *)
Example extraction_null :
  handleChat Ex.globals
    (Ex.guest "POST" "/api/chat" "203.0.113.5" (Ex.say "Onde fica a festa?"))
    (Ex.env (Ex.scripted "Na Messe Militar." "null")) "*" Ex.shop
  = Returns (jsonResponse (JChat "Na Messe Militar." None None) 200 "*") Ex.shop.
Proof. vm_compute. reflexivity. Qed.

(** C6 fails as stated.  The extractor's whole output is one well-formed
    object, a valid contribution whose message contains a closing brace;
    the match stops at that brace, the cut text does not parse, and the
    proposal is lost.  With prose in braces before the object, the match
    is the prose, and the object after it is never parsed. *)
Lemma extraction_counterexample :
  (let raw :=
     RefJson.text
       "{'action':'contribute','item_id':1,'name':'Ana','amount':20,'message':':-}'}" in
   RefJson.parse raw <> None
   /\ Str.match_braces raw
      = Some (RefJson.text
                "{'action':'contribute','item_id':1,'name':'Ana','amount':20,'message':':-}")
   /\ handleChat Ex.globals
        (Ex.guest "POST" "/api/chat" "203.0.113.5" (Ex.say "20 euros, Ana"))
        (Ex.env (Ex.scripted "Obrigado, Ana!" raw)) "*" Ex.shop
      = Returns (jsonResponse (JChat "Obrigado, Ana!" None None) 200 "*") Ex.shop)
  /\
  (let object :=
     RefJson.text
       "{'action':'contribute','item_id':1,'name':'Ana','amount':20,'message':'Parabens'}" in
   let raw := "{resumo} " +:+ object in
   RefJson.parse object <> None
   /\ Str.match_braces raw = Some "{resumo}"
   /\ handleChat Ex.globals
        (Ex.guest "POST" "/api/chat" "203.0.113.5" (Ex.say "20 euros, Ana"))
        (Ex.env (Ex.scripted "Obrigado, Ana!" raw)) "*" Ex.shop
      = Returns (jsonResponse (JChat "Obrigado, Ana!" None None) 200 "*") Ex.shop).
Proof. repeat split; vm_compute; try reflexivity; discriminate. Qed.

(* ================================================================== *)
(** ** Chat: failure of a model call *)
(* ================================================================== *)

(** POST /api/chat is served by [handleChat] inside the [try] of [fetch]. *)
Lemma fetch_chat g request env db :
  Str.toUpperCase (method request) = "POST" ->
  pathname request = "/api/chat" ->
  fetch g request env db =
  match handleChat g request env (default "*" (FRONTEND_ORIGIN env)) db with
  | Returns r db' => (r, db')
  | Throws =>
      (jsonResponse (JError "Internal Server Error") 500
                    (default "*" (FRONTEND_ORIGIN env)), db)
  end.
Proof.
  intros Hm Hp. unfold fetch, route. rewrite Hm, Hp. reflexivity.
Qed.

(** C9 (as amended).  For a chat turn of an authorised caller with a
    message: a model call that rejects is not caught by the handler, and
    the turn is answered 500 by the top-level handler of [fetch]; a
    responder that resolves without a text gives the canned apology with
    status 200; an extractor that resolves without a text gives no action
    with status 200.  In every case the store is untouched. *)
Theorem chat_model_failure g request env db b :
  authorised request env ->
  json request = Some b ->
  blank (sanitise (b_message b) MAX_MESSAGE_LENGTH) = false ->
  Str.toUpperCase (method request) = "POST" ->
  pathname request = "/api/chat" ->
  let origin := default "*" (FRONTEND_ORIGIN env) in
  let message := sanitise (b_message b) MAX_MESSAGE_LENGTH in
  let gifts := select_items db in
  let mine := select_contributions (owned_by (getIP request)) db in
  let history := Str.last_n 10 (default [] (b_history b)) in
  let failed := (jsonResponse (JError "Internal Server Error") 500 origin, db) in
  (AI env (Responder gifts mine history message) = AiRejects ->
   fetch g request env db = failed)
  /\ (forall response,
        AI env (Responder gifts mine history message) = AiResolves response ->
        AI env (Extractor gifts mine history message (reply_of response))
        = AiRejects ->
        fetch g request env db = failed)
  /\ (forall response',
        AI env (Responder gifts mine history message) = AiResolves None ->
        AI env (Extractor gifts mine history message APOLOGY)
        = AiResolves response' ->
        exists cp xp,
          fetch g request env db
          = (jsonResponse (JChat APOLOGY cp xp) 200 origin, db))
  /\ (forall response,
        AI env (Responder gifts mine history message) = AiResolves response ->
        AI env (Extractor gifts mine history message (reply_of response))
        = AiResolves None ->
        fetch g request env db
        = (jsonResponse (JChat (reply_of response) None None) 200 origin, db)).
Proof.
  intros Hauth Hjson Hmsg Hm Hp origin message gifts mine history failed.
  rewrite (fetch_chat _ _ _ _ Hm Hp).
  rewrite (chat_turn g request env _ db b Hauth Hjson Hmsg).
  fold origin message gifts mine history.
  repeat split.
  - intros ->. reflexivity.
  - intros response -> ->. reflexivity.
  - intros response' H1 H2. rewrite H1.
    change (reply_of None) with APOLOGY. rewrite H2. eauto.
  - intros response -> ->. reflexivity.
Qed.

(** The responder resolves without a text: the guest reads the apology. *)
Lemma chat_model_failure_witness :
  fetch Ex.globals
    (Ex.guest "POST" "/api/chat" "203.0.113.5" (Ex.say "Onde fica a festa?"))
    (Ex.env Ex.silent) Ex.shop
  = (jsonResponse (JChat APOLOGY None None) 200 "https://example.org", Ex.shop).
Proof.
  pose proof (chat_model_failure Ex.globals
                (Ex.guest "POST" "/api/chat" "203.0.113.5" (Ex.say "Onde fica a festa?"))
                (Ex.env Ex.silent) Ex.shop (Ex.say "Onde fica a festa?")
                ltac:(vm_compute; reflexivity) eq_refl
                ltac:(vm_compute; reflexivity)
                ltac:(vm_compute; reflexivity) eq_refl) as (_ & _ & _ & H).
  exact (H None eq_refl eq_refl).
Defined.

(** C9 fails as stated: when the model call rejects, an authorised turn
    with a message is answered with status 500. *)
Lemma chat_model_failure_counterexample :
  fetch Ex.globals
    (Ex.guest "POST" "/api/chat" "203.0.113.5" (Ex.say "Onde fica a festa?"))
    (Ex.env Ex.failing) Ex.shop
  = (jsonResponse (JError "Internal Server Error") 500 "https://example.org",
     Ex.shop).
Proof. vm_compute. reflexivity. Qed.

(* ================================================================== *)
(** ** Contributing and cancelling at once *)
(* ================================================================== *)

Section RoundTrip.

Local Open Scope float_scope.

Variables (g : Globals) (request : Request) (env : Env) (origin : string).
Variables (db : DB) (b : Body) (itemId : Z) (name : string) (amt : float).
Variable (item : Item).

Hypothesis Hauth : authorised request env.
Hypothesis Hjson : json request = Some b.
Hypothesis Hvalid : valid_pledge b itemId name amt.
Hypothesis Hok : store_ok db.
Hypothesis Hitem : items db !! itemId = Some item.
Hypothesis Hopen : is_funded item = false.
Hypothesis Hrem : (0 <? price_total item - price_raised item) = true.

(** The amount that the contribution row holds, and the raised amount that
    the item is set to. *)
Let applied := Js.Math_min amt (price_total item - price_raised item).
Let raised := price_raised item + applied.

(** The store that the accepted contribution leaves. *)
Definition contributed : DB :=
  match handleCreateContribution g request env origin db with
  | Returns _ db' => db'
  | Throws => db
  end.

(** C10 (as amended).  After an accepted contribution (one whose new
    raised amount is finite), the row it created holds the applied amount
    [a], which does not exceed the updated [price_raised].  Cancelling
    that row (by a caller from the same address, or by the admin) is
    answered 200 and removes the row, so that the contributions are those
    before the contribution, and sets [price_raised] to [(r + a) - a] in
    binary64 arithmetic, where [r] is the raised amount before: the floor
    [MAX(0, ...)] never engages, and the item is back at [r] whenever
    [(r + a) - a] is [r].  [is_funded] is left false. *)
Theorem contribute_then_cancel g' request' origin' :
  Js.isFinite raised = true ->
  let cid := (contributions_seq db + 1)%Z in
  let back := raised - applied in
  (amount <$> contributions contributed !! cid) = Some applied
  /\ (price_raised <$> items contributed !! itemId) = Some raised
  /\ (applied <=? raised) = true
  /\ (0 <=? back) = true
  /\ exists db'',
       ((authorised request' env /\ getIP request' = getIP request ->
         handleDeleteMyContribution g' request' env origin' (Some cid) contributed
         = Returns (jsonResponse JSuccess 200 origin') db'')
        /\ (isAdmin request' env = true ->
            handleAdminDeleteContribution g' request' env origin' (Some cid)
              contributed
            = Returns (jsonResponse JSuccess 200 origin') db''))
       /\ contributions db'' = contributions db
       /\ items db'' !! itemId = Some (set_funding back false item).
Proof.
  intros Hsum cid back.
  pose proof (contribution_applied g request env origin db b itemId name amt
                Hauth Hjson Hvalid item Hok Hitem Hopen Hrem Hsum) as Hadd.
  fold applied in Hadd. fold raised in Hadd.
  assert (Hpos : (0 <? applied) = true).
  { apply Math_min_pos; [|exact Hrem].
    apply (pledge_amount_positive _ _ _ _ Hvalid). }
  assert (Hfin : Js.isFinite applied = true).
  { apply Math_min_finite; [| |exact Hrem].
    - apply (pledge_amount_positive _ _ _ _ Hvalid).
    - apply (pledge_amount_finite _ _ _ _ Hvalid). }
  pose proof (items_ok _ Hok _ _ Hitem) as (_ & _ & Hr).
  destruct (add_sub_floor (price_raised item) applied Hr Hpos Hfin Hsum)
    as (Hle & Hback & Hfloor).
  fold raised in Hle, Hback, Hfloor. fold back in Hback, Hfloor.
  set (row := {| item_id := itemId; contributor_name := name;
                 contributor_ip := Some (getIP request); amount := applied;
                 message := sanitise (b_message b) MAX_MESSAGE_LENGTH;
                 c_created_at := datetime_now g |}) in *.
  set (it1 := set_funding raised (price_total item <=? raised) item) in *.
  assert (Hdb : contributed
                = set_items (<[itemId := it1]> (items db)) (items_seq db)
                    (set_contributions (<[cid := row]> (contributions db)) cid db)).
  { unfold contributed. rewrite Hadd. reflexivity. }
  assert (Hrow : contributions contributed !! cid = Some row).
  { rewrite Hdb. cbn. apply lookup_insert_eq. }
  assert (Hit1 : items contributed !! item_id row = Some it1).
  { rewrite Hdb. cbn. apply lookup_insert_eq. }
  assert (Hbatch := refund_batch (datetime_now g') contributed cid row it1 Hit1).
  assert (Hnn : (0 <=? price_raised it1) = true).
  { cbn. apply add_nonneg; assumption. }
  specialize (Hbatch Hnn Hfin).
  change (price_raised it1 - amount row) with back in Hbatch.
  rewrite Hfloor in Hbatch.
  split; [rewrite Hrow; reflexivity|].
  split; [cbn [item_id row] in Hit1; rewrite Hit1; reflexivity|].
  split; [exact Hle|]. split; [exact Hback|].
  eexists. split; [split|split].
  - intros [Ha Hip]. unfold handleDeleteMyContribution, authorised in *.
    assert (Hg : negb (isGuest request' env) && negb (isAdmin request' env) = false).
    { destruct (isGuest request' env), (isAdmin request' env); simpl in *; congruence. }
    rewrite Hg, Hrow. unfold owned_by. cbn [contributor_ip row].
    rewrite Hip, String.eqb_refl, Hbatch. reflexivity.
  - intros Hadmin. unfold handleAdminDeleteContribution.
    rewrite Hadmin, Hrow, Hbatch. reflexivity.
  - cbn [contributions set_items set_contributions]. rewrite Hdb.
    cbn [contributions set_items set_contributions].
    rewrite delete_insert_eq. apply delete_id.
    destruct (contributions db !! cid) as [c|] eqn:E; [|reflexivity].
    pose proof (contributions_below_seq _ Hok _ _ E). unfold cid in *. lia.
  - cbn [items set_items set_contributions item_id row].
    rewrite lookup_insert_eq. reflexivity.
Qed.

End RoundTrip.

(** 50 offered on an item at 80 of 100 and cancelled at once by the same
    guest: the item is back at 80, and not funded. *)
Lemma contribute_then_cancel_witness :
  exists db'',
    handleDeleteMyContribution Ex.globals
      (Ex.guest "DELETE" "/api/my-contributions/1" "203.0.113.5" Ex.empty_body)
      (Ex.env Ex.silent) "*" (Some 1)
      (contributed Ex.globals
         (Ex.guest "POST" "/api/contributions" "203.0.113.5" (Ex.pledge 1 "Ana" 50))
         (Ex.env Ex.silent) "*" Ex.shop)
    = Returns (jsonResponse JSuccess 200 "*") db''
    /\ contributions db'' = contributions Ex.shop
    /\ items db'' !! 1 = Some (Ex.gift 100 80 false).
Proof.
  destruct (contribute_then_cancel Ex.globals
              (Ex.guest "POST" "/api/contributions" "203.0.113.5"
                        (Ex.pledge 1 "Ana" 50))
              (Ex.env Ex.silent) "*" Ex.shop (Ex.pledge 1 "Ana" 50) 1 "Ana"
              50%float (Ex.gift 100 80 false)
              ltac:(vm_compute; reflexivity) eq_refl
              ltac:(split; solve [reflexivity | discriminate])
              ltac:(apply registry_ok, gift_ok; reflexivity)
              eq_refl eq_refl eq_refl
              Ex.globals
              (Ex.guest "DELETE" "/api/my-contributions/1" "203.0.113.5"
                        Ex.empty_body) "*" eq_refl)
    as (_ & _ & _ & _ & db'' & [Hown _] & Hc & Hi).
  exists db''. split; [|split; [exact Hc|exact Hi]].
  apply Hown. split; vm_compute; reflexivity.
Defined.

(** C10 fails as stated.  An item raised to 0.1 of 10 receives 0.2, which
    is accepted in full, and the contribution is cancelled at once by the
    same guest: both requests succeed, and [price_raised] is left at
    (0.1 + 0.2) - 0.2, which is not 0.1. *)
Lemma contribute_then_cancel_counterexample :
  let db := Ex.registry (Ex.gift 10 (Ex.cents 10) false) in
  let add :=
    fetch Ex.globals
      (Ex.guest "POST" "/api/contributions" "203.0.113.5"
                (Ex.pledge 1 "Ana" (Ex.cents 20)))
      (Ex.env Ex.silent) db in
  let cancel :=
    fetch Ex.globals
      (Ex.guest "DELETE" "/api/my-contributions/1" "203.0.113.5" Ex.empty_body)
      (Ex.env Ex.silent) add.2 in
  add.1 = jsonResponse (JApplied (Ex.cents 20) (Ex.cents 10 + Ex.cents 20) false)
                       201 "https://example.org"
  /\ cancel.1 = jsonResponse JSuccess 200 "https://example.org"
  /\ (price_raised <$> items cancel.2 !! 1)
     = Some (Ex.cents 10 + Ex.cents 20 - Ex.cents 20)%float
  /\ (Ex.cents 10 + Ex.cents 20 - Ex.cents 20 =? Ex.cents 10)%float = false
  /\ (Ex.cents 10 <? Ex.cents 10 + Ex.cents 20 - Ex.cents 20)%float = true.
Proof. repeat split; vm_compute; reflexivity. Qed.

(* ================================================================== *)
(** ** The store invariant is kept by every request *)
(* ================================================================== *)

Section Invariant.

Local Open Scope float_scope.

Lemma Math_min_not_nan a b :
  is_nan (Js.Math_min a b) = false -> is_nan a = false /\ is_nan b = false.
Proof.
  unfold Js.Math_min. destruct (is_nan a), (is_nan b); cbn; auto; discriminate.
Qed.

Lemma max0_nonneg x r : Sql.max0 x = Some r -> (0 <=? r) = true.
Proof.
  unfold Sql.max0. destruct (is_nan x); [discriminate|].
  intros E. inversion E. apply floor0_nonneg.
Qed.

Lemma insert_keeps (m : gmap Z Item) k v j :
  is_Some (m !! j) -> is_Some (<[k := v]> m !! j).
Proof. rewrite lookup_insert_is_Some. destruct (decide (k = j)); auto. Qed.

Lemma contribution_ok_items db db' c :
  (forall id, is_Some (items db !! id) -> is_Some (items db' !! id)) ->
  contribution_ok db c -> contribution_ok db' c.
Proof. intros H (H1 & H2 & H3 & H4). repeat split; auto. Qed.

(** Every statement that succeeds keeps the invariant. *)
Lemma exec_store_ok now s db db' :
  store_ok db -> Sql.exec now s db = Some db' -> store_ok db'.
Proof.
  intros Hok. destruct Hok as [Hi Hiq Hc Hcq].
  destruct s as [t d i p total|t d i p total funded id|id|item name amt msg ip
                |raised funded id|id|amt item|ip day|ip day]; cbn [Sql.exec].
  - destruct (Sql.nonempty t) eqn:Ht; [|discriminate].
    destruct (Sql.nonneg total) eqn:Hn; [|discriminate].
    apply nonneg_spec in Hn as [_ Hn].
    cbn. intros E. inversion E; subst; clear E. split; cbn.
    + intros id it H. apply lookup_insert_Some in H as [[_ <-]|[_ H]]; eauto.
      repeat split; solve [assumption | reflexivity].
    + intros id it H. apply lookup_insert_Some in H as [[<- _]|[_ H]]; [lia|].
      specialize (Hiq _ _ H). lia.
    + intros id c H. apply (contribution_ok_items db); eauto.
      intros j. cbn. apply insert_keeps.
    + exact Hcq.
  - destruct (items db !! id) as [it|] eqn:Hit.
    + destruct (Sql.flag funded) as [f|]; [|discriminate].
      destruct (Sql.nonempty t) eqn:Ht; [|discriminate].
      destruct (Sql.nonneg total) eqn:Hn; [|discriminate].
      apply nonneg_spec in Hn as [_ Hn].
      cbn. intros E. inversion E; subst; clear E. split; cbn.
      * intros k x H. apply lookup_insert_Some in H as [[_ <-]|[_ H]]; eauto.
        repeat split; cbn; auto. apply (Hi _ _ Hit).
      * intros k x H. apply lookup_insert_Some in H as [[<- _]|[_ H]]; eauto.
      * intros k c H. apply (contribution_ok_items db); eauto.
        intros j. cbn. apply insert_keeps.
      * exact Hcq.
    + intros E. inversion E; subst. split; assumption.
  - intros E. inversion E; subst; clear E. split; cbn.
    + intros k x H. apply lookup_delete_Some in H as [_ H]. eauto.
    + intros k x H. apply lookup_delete_Some in H as [_ H]. eauto.
    + intros k c H. apply map_lookup_filter_Some in H as [H Hne]. cbn in Hne.
      destruct (Hc _ _ H) as (H1 & H2 & H3 & H4). repeat split; auto.
      cbn. rewrite lookup_delete_ne by congruence. exact H4.
    + intros k c H. apply map_lookup_filter_Some in H as [H _]. eauto.
  - destruct (items db !! item) as [it|] eqn:Hit; [|discriminate].
    destruct (Sql.nonempty name) eqn:Ht; [|discriminate].
    destruct (Sql.positive amt) eqn:Hn; [|discriminate].
    apply positive_spec in Hn as [Hfin Hn].
    cbn. intros E. inversion E; subst; clear E. split; cbn; auto.
    + intros k c H. apply lookup_insert_Some in H as [[_ <-]|[_ H]].
      * repeat split; cbn; auto; rewrite ?Hit; eauto.
      * apply (contribution_ok_items db); eauto.
    + intros k c H. apply lookup_insert_Some in H as [[<- _]|[_ H]]; [lia|].
      specialize (Hcq _ _ H). lia.
  - destruct (items db !! id) as [it|] eqn:Hit.
    + destruct (Sql.nonneg raised) eqn:Hn; [|discriminate].
      apply nonneg_spec in Hn as [_ Hn].
      intros E. inversion E; subst; clear E. split; cbn; auto.
      * intros k x H. apply lookup_insert_Some in H as [[_ <-]|[_ H]]; eauto.
        destruct (Hi _ _ Hit) as (H1 & H2 & H3). repeat split; cbn; auto.
      * intros k x H. apply lookup_insert_Some in H as [[<- _]|[_ H]]; eauto.
      * intros k c H. apply (contribution_ok_items db); eauto.
        intros j. cbn. apply insert_keeps.
    + intros E. inversion E; subst. split; assumption.
  - intros E. inversion E; subst; clear E. split; cbn; auto.
    + intros k c H. apply lookup_delete_Some in H as [_ H].
      apply (contribution_ok_items db); eauto.
    + intros k c H. apply lookup_delete_Some in H as [_ H]. eauto.
  - destruct (items db !! item) as [it|] eqn:Hit.
    + destruct (Js.isFinite amt); [|discriminate].
      destruct (Sql.max0 _) as [raised|] eqn:Hm; [|discriminate].
      intros E. inversion E; subst; clear E. split; cbn; auto.
      * intros k x H. apply lookup_insert_Some in H as [[_ <-]|[_ H]]; eauto.
        destruct (Hi _ _ Hit) as (H1 & H2 & H3). repeat split; cbn; auto.
        apply (max0_nonneg _ _ Hm).
      * intros k x H. apply lookup_insert_Some in H as [[<- _]|[_ H]]; eauto.
      * intros k c H. apply (contribution_ok_items db); eauto.
        intros j. cbn. apply insert_keeps.
    + intros E. inversion E; subst. split; assumption.
  - intros E. inversion E; subst. split; assumption.
  - intros E. inversion E; subst. split; assumption.
Qed.

Lemma batch_store_ok now stmts : forall db db',
  store_ok db -> Sql.batch now stmts db = Some db' -> store_ok db'.
Proof.
  induction stmts as [|s rest IH]; intros db db' Hok; cbn.
  - intros E. inversion E; subst. exact Hok.
  - destruct (Sql.exec now s db) as [db1|] eqn:E1; [|discriminate].
    apply IH; eauto using exec_store_ok.
Qed.

(** What a handler returns, it returns with a store that satisfies the
    invariant. *)
Definition keeps_store_ok (db : DB) (o : Outcome) : Prop :=
  match o with
  | Returns _ db' => store_ok db'
  | Throws => True
  end.

Lemma commit_exec_ok r now s db :
  store_ok db -> keeps_store_ok db (commit r (Sql.exec now s db)).
Proof.
  intros Hok. unfold commit.
  destruct (Sql.exec now s db) eqn:E; cbn; eauto using exec_store_ok.
Qed.

Lemma commit_batch_ok r now stmts db :
  store_ok db -> keeps_store_ok db (commit r (Sql.batch now stmts db)).
Proof.
  intros Hok. unfold commit.
  destruct (Sql.batch now stmts db) eqn:E; cbn; eauto using batch_store_ok.
Qed.

Ltac branches :=
  repeat match goal with
         | |- keeps_store_ok _ (Returns _ _) => cbn; assumption
         | |- keeps_store_ok _ Throws => exact I
         | |- keeps_store_ok _ (commit _ (Sql.exec _ _ _)) =>
             apply commit_exec_ok; assumption
         | |- keeps_store_ok _ (commit _ (Sql.batch _ _ _)) =>
             apply commit_batch_ok; assumption
         | |- keeps_store_ok _ (if ?c then _ else _) => destruct c eqn:?
         | |- keeps_store_ok _ (match ?x with _ => _ end) => destruct x eqn:?
         | |- keeps_store_ok _ (let '(_, _) := ?x in _) => destruct x eqn:?
         end.

(** Whatever the request, a handler that returns leaves a store that
    satisfies the invariant. *)
Lemma route_store_ok g request env origin db :
  store_ok db -> keeps_store_ok db (route g request env origin db).
Proof.
  intros Hok. unfold route.
  repeat match goal with
         | |- keeps_store_ok _ (if ?c then _ else _) => destruct c
         end.
  all: unfold handleGetItems, handleCreateItem, handleUpdateItem, handleDeleteItem,
         handleGetContributions, handleCreateContribution, handleGetMyContributions,
         handleDeleteMyContribution, handleAdminDeleteContribution, handleChat,
         handleAdminAuth, handleGuestAuth, handleAuth.
  all: branches.
Qed.

End Invariant.

(** X1.  Every request leaves a store that satisfies the schema and the
    ledger's guarantees: titles and names are not empty, prices and raised
    amounts are not negative, contribution amounts are positive and finite,
    every contribution points at an existing item, and keys stay within
    their sequences.  This holds for every method, path, body and
    credentials, and whether the handler returns or throws. *)
Theorem fetch_store_ok g request env db :
  store_ok db -> store_ok (fetch g request env db).2.
Proof.
  intros Hok. unfold fetch.
  destruct (String.eqb _ "OPTIONS"); [exact Hok|].
  pose proof (route_store_ok g request env (default "*" (FRONTEND_ORIGIN env)) db Hok)
    as H.
  destruct (route g request env _ db); [exact H|exact Hok].
Qed.

(** The registry with one item and one contribution, after a pledge. *)
Lemma fetch_store_ok_witness :
  store_ok
    (fetch Ex.globals
       (Ex.guest "POST" "/api/contributions" "203.0.113.5" (Ex.pledge 1 "Ana" 50))
       (Ex.env Ex.silent) Ex.shop).2.
Proof.
  apply (fetch_store_ok Ex.globals _ _ Ex.shop).
  apply registry_ok, gift_ok; reflexivity.
Defined.

(* ================================================================== *)
(** ** Contributions the handler turns away *)
(* ================================================================== *)

Section Rejections.

Local Open Scope float_scope.

(** POST /api/contributions is served by [handleCreateContribution]. *)
Lemma fetch_create_contribution g request env db :
  Str.toUpperCase (method request) = "POST" ->
  pathname request = "/api/contributions" ->
  fetch g request env db =
  match handleCreateContribution g request env
          (default "*" (FRONTEND_ORIGIN env)) db with
  | Returns r db' => (r, db')
  | Throws =>
      (jsonResponse (JError "Internal Server Error") 500
                    (default "*" (FRONTEND_ORIGIN env)), db)
  end.
Proof.
  intros Hm Hp. unfold fetch, route. rewrite Hm, Hp. reflexivity.
Qed.

Lemma positive_le x y :
  (0 <? x) = true -> (x <=? y) = true -> (0 <? y) = true.
Proof.
  rewrite !ltb0_spec, FloatAxioms.leb_spec. unfold SFleb.
  destruct (Prim2SF x) as [s|s| |s m e], (Prim2SF y) as [s'|s'| |s' m' e'];
    try destruct s; try destruct s'; simpl; congruence.
Qed.

(** With nothing remaining, nothing positive can be applied. *)
Lemma nothing_to_apply amt remaining :
  (0 <? remaining) = false -> (0 <? Js.Math_min amt remaining) = false.
Proof.
  intros Hrem. destruct (0 <? Js.Math_min amt remaining) eqn:Hpos; [|reflexivity].
  destruct (Math_min_not_nan _ _ (positive_not_nan _ Hpos)) as [Ha Hb].
  rewrite (positive_le _ remaining Hpos (Math_min_le_r _ _ Ha Hb)) in Hrem.
  discriminate.
Qed.

(** X2.  A valid pledge on an item that is not flagged funded but has
    nothing remaining ([price_total - price_raised] is not positive, as for
    an item of price 0) computes an applied amount that is not positive;
    the store refuses the contribution row (CHECK amount > 0), the batch
    writes nothing, and POST /api/contributions is answered 500. *)
Theorem pledge_with_nothing_remaining g request env db b itemId name amt item :
  authorised request env ->
  json request = Some b ->
  valid_pledge b itemId name amt ->
  Str.toUpperCase (method request) = "POST" ->
  pathname request = "/api/contributions" ->
  items db !! itemId = Some item ->
  is_funded item = false ->
  (0 <? price_total item - price_raised item) = false ->
  fetch g request env db
  = (jsonResponse (JError "Internal Server Error") 500
                  (default "*" (FRONTEND_ORIGIN env)), db).
Proof.
  intros Hauth Hjson Hvalid Hm Hp Hitem Hopen Hrem.
  rewrite (fetch_create_contribution _ _ _ _ Hm Hp).
  rewrite (create_contribution_lookup g request env _ db b itemId name amt
             Hauth Hjson Hvalid).
  rewrite Hitem, Hopen. cbn zeta. unfold Sql.batch, Sql.exec at 1.
  rewrite Hitem. unfold Sql.positive.
  rewrite (nothing_to_apply amt _ Hrem), !andb_false_r. reflexivity.
Qed.

(** An item raised to 60 whose price was lowered to 50, and left unfunded
    by a cancellation. *)
Lemma pledge_with_nothing_remaining_witness :
  fetch Ex.globals
    (Ex.guest "POST" "/api/contributions" "203.0.113.5" (Ex.pledge 1 "Ana" 5))
    (Ex.env Ex.silent) (Ex.registry (Ex.gift 50 60 false))
  = (jsonResponse (JError "Internal Server Error") 500 "https://example.org",
     Ex.registry (Ex.gift 50 60 false)).
Proof.
  refine (pledge_with_nothing_remaining Ex.globals _ (Ex.env Ex.silent) _
            (Ex.pledge 1 "Ana" 5) 1 "Ana" 5%float (Ex.gift 50 60 false)
            _ _ _ _ _ _ _ _);
    first [ reflexivity
          | vm_compute; reflexivity
          | split; solve [reflexivity | discriminate] ].
Defined.

(** X3.  POST /api/contributions from an authorised caller validates the
    body before it reads the store, in this order: an item id that is
    missing, not a number or 0; a name that is missing or blank once
    sanitised; an amount that is not a positive finite number (missing,
    NaN, 0, negative or infinite).  Each is answered 400 with its own
    message, and the store is returned as it was. *)
Theorem create_contribution_validates g request env origin db b :
  authorised request env ->
  json request = Some b ->
  let bad m := Returns (jsonResponse (JError m) 400 origin) db in
  let name := sanitise (b_contributor_name b) MAX_NAME_LENGTH in
  let amount := Js.Number (b_amount b) in
  (b_item_id b = None \/ b_item_id b = Some 0%Z ->
   handleCreateContribution g request env origin db = bad "item_id is required")
  /\ (forall itemId, b_item_id b = Some itemId -> itemId <> 0%Z ->
      (blank name = true ->
       handleCreateContribution g request env origin db
       = bad "contributor_name is required")
      /\ (blank name = false ->
          (0 <? amount) && Js.isFinite amount = false ->
          handleCreateContribution g request env origin db
          = bad "amount must be > 0")).
Proof.
  intros Hauth Hjson bad name amount. unfold authorised in Hauth.
  assert (Hg : negb (isGuest request env) && negb (isAdmin request env) = false).
  { destruct (isGuest request env), (isAdmin request env); simpl in *; congruence. }
  unfold handleCreateContribution. rewrite Hg, Hjson. split.
  - intros [-> | ->]; reflexivity.
  - intros itemId -> Hnz. fold name. split.
    + intros ->. destruct itemId; [congruence| |]; reflexivity.
    + intros -> Hamt. fold amount. rewrite amount_check_spec, Hamt.
      destruct itemId; [congruence| |]; reflexivity.
Qed.

(** A pledge of an infinite amount. *)
Lemma create_contribution_validates_witness :
  handleCreateContribution Ex.globals
    (Ex.guest "POST" "/api/contributions" "203.0.113.5"
              (Ex.pledge 1 "Ana" infinity))
    (Ex.env Ex.silent) "*" Ex.shop
  = Returns (jsonResponse (JError "amount must be > 0") 400 "*") Ex.shop.
Proof.
  refine (proj2 (proj2 (create_contribution_validates Ex.globals
                          (Ex.guest "POST" "/api/contributions" "203.0.113.5"
                                    (Ex.pledge 1 "Ana" infinity))
                          (Ex.env Ex.silent) "*" Ex.shop
                          (Ex.pledge 1 "Ana" infinity) _ _)
                   1%Z _ _) _ _);
    solve [reflexivity | discriminate | vm_compute; reflexivity].
Defined.

End Rejections.

(* ================================================================== *)
(** ** Who can change the store *)
(* ================================================================== *)

Section Callers.

Ltac route_cases :=
  repeat match goal with
         | |- context [if ?c then _ else _] => destruct c eqn:?
         end.

Lemma route_eqb_true (a b c d : string) :
  String.eqb a b && String.eqb c d = true -> a = b /\ c = d.
Proof.
  intros H. apply andb_prop in H as [H1 H2].
  apply String.eqb_eq in H1, H2. auto.
Qed.

(** X4.  A caller without the guest or the admin secret changes nothing in
    the store outside the two login endpoints: the request is answered 200
    with the item list (GET /api/items), 204 (OPTIONS), 404 (no such
    route), or 401. *)
Theorem anonymous_changes_nothing g request env db :
  isGuest request env = false ->
  isAdmin request env = false ->
  pathname request <> "/api/admin/auth" ->
  pathname request <> "/api/guest/auth" ->
  (fetch g request env db).2 = db
  /\ let r := (fetch g request env db).1 in
     (status r = 200 /\ body r = Some (JItems (select_items db)))
     \/ status r = 204 \/ status r = 401 \/ status r = 404.
Proof.
  intros Hguest Hadmin Hp1 Hp2. unfold fetch, route.
  route_cases;
    try match goal with
        | H : String.eqb _ "POST" && String.eqb _ "/api/admin/auth" = true |- _ =>
            apply route_eqb_true in H as [_ H]; contradiction
        | H : String.eqb _ "POST" && String.eqb _ "/api/guest/auth" = true |- _ =>
            apply route_eqb_true in H as [_ H]; contradiction
        end;
    unfold handleGetItems, handleCreateItem, handleUpdateItem, handleDeleteItem,
      handleGetContributions, handleCreateContribution, handleGetMyContributions,
      handleDeleteMyContribution, handleAdminDeleteContribution, handleChat;
    rewrite ?Hguest, ?Hadmin; cbn; auto 6.
Qed.

Lemma anonymous_changes_nothing_witness :
  (fetch Ex.globals
     (Ex.anonymous "POST" "/api/contributions" "203.0.113.5" (Ex.pledge 1 "Ana" 50))
     (Ex.env Ex.silent) Ex.shop).2 = Ex.shop.
Proof.
  refine (proj1 (anonymous_changes_nothing Ex.globals
                   (Ex.anonymous "POST" "/api/contributions" "203.0.113.5"
                                 (Ex.pledge 1 "Ana" 50))
                   (Ex.env Ex.silent) Ex.shop _ _ _ _));
    solve [vm_compute; reflexivity | discriminate].
Defined.

Lemma chat_never_writes g request env origin db r db' :
  handleChat g request env origin db = Returns r db' -> db' = db.
Proof.
  unfold handleChat.
  destruct (negb _ && negb _); [intros E; inversion E; reflexivity|].
  destruct (json request); [|discriminate].
  destruct (blank _); [intros E; inversion E; reflexivity|].
  destruct (AI env _); [discriminate|].
  destruct (AI env _); [discriminate|].
  destruct (pending _ _ _ _). intros E; inversion E; reflexivity.
Qed.

(** X5.  Reading never writes: every GET and OPTIONS request, and every
    chat turn (POST /api/chat), whatever its outcome, leaves the store as
    it was. *)
Theorem reads_change_nothing g request env db :
  Str.toUpperCase (method request) = "GET"
  \/ Str.toUpperCase (method request) = "OPTIONS"
  \/ (Str.toUpperCase (method request) = "POST" /\ pathname request = "/api/chat") ->
  (fetch g request env db).2 = db.
Proof.
  intros [Hm|[Hm|[Hm Hp]]].
  - unfold fetch, route. rewrite Hm. cbn [String.eqb Ascii.eqb Bool.eqb andb].
    route_cases;
      unfold handleGetItems, handleGetContributions, handleGetMyContributions;
      route_cases; reflexivity.
  - unfold fetch. rewrite Hm. reflexivity.
  - rewrite (fetch_chat _ _ _ _ Hm Hp).
    destruct (handleChat g request env _ db) as [r db'|] eqn:E; [|reflexivity].
    apply (chat_never_writes _ _ _ _ _ _ _ E).
Qed.

Lemma reads_change_nothing_witness :
  (fetch Ex.globals
     (Ex.guest "GET" "/api/my-contributions" "203.0.113.5" Ex.empty_body)
     (Ex.env Ex.failing) Ex.shop).2 = Ex.shop.
Proof.
  apply reads_change_nothing. left. reflexivity.
Defined.

End Callers.

(* ================================================================== *)
(** ** Listing items and contributions *)
(* ================================================================== *)

Section Listing.

Lemma insert_by_perm {A} (le : A -> A -> bool) x l :
  Permutation (Sql.insert_by le x l) (x :: l).
Proof.
  induction l as [|y r IH]; cbn; [reflexivity|].
  destruct (le x y); [reflexivity|].
  rewrite IH. apply perm_swap.
Qed.

(** ORDER BY keeps the rows: the result is a rearrangement. *)
Lemma order_by_perm {A} (le : A -> A -> bool) l :
  Permutation (Sql.order_by le l) l.
Proof.
  induction l as [|x r IH]; cbn; [reflexivity|].
  fold (Sql.order_by le r). rewrite insert_by_perm, IH. reflexivity.
Qed.

(** Adjacent rows of the result are in order, when [le] is total. *)
Inductive ordered {A} (le : A -> A -> bool) : list A -> Prop :=
  | ordered_nil : ordered le []
  | ordered_one x : ordered le [x]
  | ordered_cons x y l :
      le x y = true -> ordered le (y :: l) -> ordered le (x :: y :: l).

Lemma insert_by_ordered {A} (le : A -> A -> bool) x l :
  (forall a b, le a b = false -> le b a = true) ->
  ordered le l -> ordered le (Sql.insert_by le x l).
Proof.
  intros Htotal H. induction H as [|y|y z l Hyz H IH]; cbn.
  - constructor.
  - destruct (le x y) eqn:E; repeat constructor; auto.
  - destruct (le x y) eqn:E; [repeat constructor; auto|].
    cbn in IH. destruct (le x z) eqn:E'.
    + repeat constructor; auto.
    + constructor; assumption.
Qed.

Lemma order_by_ordered {A} (le : A -> A -> bool) l :
  (forall a b, le a b = false -> le b a = true) ->
  ordered le (Sql.order_by le l).
Proof.
  intros Htotal. induction l as [|x r IH]; cbn; [constructor|].
  apply insert_by_ordered; assumption.
Qed.

(** A key that the order respects does not decrease along the result. *)
Lemma ordered_key {A} (le : A -> A -> bool) (key : A -> nat) l :
  (forall a b, le a b = true -> (key a <= key b)%nat) ->
  ordered le l ->
  forall i j a b, (i < j)%nat -> l !! i = Some a -> l !! j = Some b ->
                  (key a <= key b)%nat.
Proof.
  intros Hkey H. induction H as [|x|x y l Hxy H IH]; intros i j a b Hij Hi Hj.
  - destruct i; discriminate.
  - destruct i, j; try lia; cbn in *; try discriminate.
  - destruct j as [|j]; [lia|]. destruct i as [|i].
    + cbn in Hi. inversion Hi; subst. cbn in Hj. clear Hi.
      destruct j as [|j].
      * cbn in Hj. inversion Hj; subst. auto.
      * etransitivity; [apply (Hkey _ _ Hxy)|].
        apply (IH 0%nat (S j) y b); [lia|reflexivity|exact Hj].
    + cbn in Hi, Hj. apply (IH i j); auto. lia.
Qed.

Lemma bool_cmp_antisym a b : Sql.bool_cmp b a = CompOpp (Sql.bool_cmp a b).
Proof. destruct a, b; reflexivity. Qed.

Lemma then_cmp_opp c d :
  CompOpp (Sql.then_cmp c d) = Sql.then_cmp (CompOpp c) (CompOpp d).
Proof. destruct c; reflexivity. Qed.

Lemma items_order_total a b : items_order a b = false -> items_order b a = true.
Proof.
  unfold items_order.
  match goal with
  | |- Sql.is_le ?ab = false -> Sql.is_le ?ba = true =>
      assert (E : ba = CompOpp ab)
  end.
  { rewrite !then_cmp_opp. f_equal; [apply bool_cmp_antisym|].
    f_equal; [apply bool_cmp_antisym|].
    f_equal; [apply String.compare_antisym|apply Z.compare_antisym]. }
  rewrite E.
  match goal with
  | |- Sql.is_le ?x = false -> _ => destruct x; cbn; congruence
  end.
Qed.

(** The place of an item in the list: ordinary items before the generic
    donation, and within each kind the items that are not funded first. *)
Definition shelf (row : Z * Item) : nat :=
  (if String.eqb (title row.2) GENERIC_DONATION_TITLE then 2 else 0)
  + (if is_funded row.2 then 1 else 0).

Lemma items_order_shelf a b : items_order a b = true -> (shelf a <= shelf b)%nat.
Proof.
  unfold items_order, shelf.
  destruct (String.eqb (title a.2) _), (String.eqb (title b.2) _),
           (is_funded a.2), (is_funded b.2); cbn; intros H; try lia; discriminate.
Qed.

Lemma select_items_lookup db id it :
  In (id, it) (select_items db) <-> items db !! id = Some it.
Proof.
  unfold select_items. rewrite <- list_elem_of_In.
  rewrite (order_by_perm items_order (map_to_list (items db))).
  apply elem_of_map_to_list.
Qed.

(** X6.  GET /api/items needs no credentials and answers 200 with every
    stored item exactly once, in an order where each row is in the ORDER BY
    relation with the next; so no item titled as the generic donation comes
    before an ordinary item, and among the ordinary items (and among the
    generic ones) no funded item comes before one that is not funded. *)
Theorem items_listed_in_order g request env db :
  Str.toUpperCase (method request) = "GET" ->
  pathname request = "/api/items" ->
  exists rows,
    fetch g request env db
    = (jsonResponse (JItems rows) 200 (default "*" (FRONTEND_ORIGIN env)), db)
    /\ (forall id it, In (id, it) rows <-> items db !! id = Some it)
    /\ NoDup (rows.*1)
    /\ ordered items_order rows
    /\ (forall i j a b, (i < j)%nat -> rows !! i = Some a -> rows !! j = Some b ->
          (shelf a <= shelf b)%nat).
Proof.
  intros Hm Hp. exists (select_items db). split; [|split; [|split; [|split]]].
  - unfold fetch, route. rewrite Hm, Hp. reflexivity.
  - apply select_items_lookup.
  - unfold select_items.
    rewrite (order_by_perm items_order (map_to_list (items db))).
    apply NoDup_fst_map_to_list.
  - apply order_by_ordered, items_order_total.
  - apply (ordered_key items_order shelf).
    + apply items_order_shelf.
    + apply order_by_ordered, items_order_total.
Qed.

End Listing.

Lemma items_listed_in_order_witness :
  exists rows,
    fetch Ex.globals (Ex.anonymous "get" "/api/items" "203.0.113.5" Ex.empty_body)
      (Ex.env Ex.silent) Ex.shop
    = (jsonResponse (JItems rows) 200 "https://example.org", Ex.shop)
    /\ forall id it, In (id, it) rows <-> items Ex.shop !! id = Some it.
Proof.
  destruct (items_listed_in_order Ex.globals
              (Ex.anonymous "get" "/api/items" "203.0.113.5" Ex.empty_body)
              (Ex.env Ex.silent) Ex.shop eq_refl eq_refl) as (rows & H & Hin & _).
  exists rows. split; [exact H|exact Hin].
Defined.

Section Contributions.

Lemma owned_by_spec ip c : owned_by ip c = true <-> contributor_ip c = Some ip.
Proof.
  unfold owned_by. destruct (contributor_ip c) as [ip'|]; [|split; discriminate].
  rewrite String.eqb_eq. split; congruence.
Qed.

(** The rows of the join: the stored contributions that pass the WHERE
    clause and whose item exists, each with the title of its item. *)
Lemma select_contributions_spec keep db r :
  In r (select_contributions keep db) <->
  contributions db !! row_id r = Some (row r)
  /\ keep (row r) = true
  /\ exists it, items db !! item_id (row r) = Some it /\ item_title r = title it.
Proof.
  unfold select_contributions. rewrite <- list_elem_of_In.
  rewrite (order_by_perm contributions_order). rewrite list_elem_of_omap.
  split.
  - intros ([k c] & Hin & Hj). apply list_elem_of_In, filter_In in Hin as [Hin Hk].
    apply list_elem_of_In, elem_of_map_to_list in Hin. cbn in *.
    unfold join_item in Hj. cbn in Hj.
    destruct (items db !! item_id c) as [it|] eqn:Hit; [|discriminate].
    inversion Hj; subst; clear Hj. cbn. eauto.
  - intros (Hc & Hk & it & Hit & Ht). exists (row_id r, row r). split.
    + apply list_elem_of_In, filter_In. split; [|exact Hk].
      apply list_elem_of_In, elem_of_map_to_list, Hc.
    + unfold join_item. cbn. rewrite Hit, <- Ht. destruct r; reflexivity.
Qed.

(** X7.  GET /api/my-contributions, for a guest or the admin, answers 200
    with exactly the contributions stored under the caller's address: each
    row listed is a stored contribution whose [contributor_ip] is the
    caller's address, joined with the title of its item, and each such
    contribution is listed.  Nobody else's contribution is shown. *)
Theorem my_contributions_are_mine g request env db :
  authorised request env ->
  Str.toUpperCase (method request) = "GET" ->
  pathname request = "/api/my-contributions" ->
  exists rows,
    fetch g request env db
    = (jsonResponse (JContributions rows) 200 (default "*" (FRONTEND_ORIGIN env)),
       db)
    /\ forall r,
         In r rows <->
         contributions db !! row_id r = Some (row r)
         /\ contributor_ip (row r) = Some (getIP request)
         /\ exists it,
              items db !! item_id (row r) = Some it /\ item_title r = title it.
Proof.
  intros Hauth Hm Hp. unfold authorised in Hauth.
  exists (select_contributions (owned_by (getIP request)) db). split.
  - unfold fetch, route. rewrite Hm, Hp.
    cbn [String.eqb Ascii.eqb Bool.eqb andb Str.test_prefix_digits].
    unfold handleGetMyContributions.
    assert (Hg : negb (isGuest request env) && negb (isAdmin request env) = false).
    { destruct (isGuest request env), (isAdmin request env); simpl in *; congruence. }
    cbn. rewrite Hg. reflexivity.
  - intros r. rewrite select_contributions_spec, owned_by_spec. reflexivity.
Qed.

Lemma my_contributions_are_mine_witness :
  exists rows,
    fetch Ex.globals
      (Ex.guest "GET" "/api/my-contributions" "198.51.100.9" Ex.empty_body)
      (Ex.env Ex.silent)
      (Ex.registry_with (Ex.gift 100 80 false) 80 "203.0.113.5")
    = (jsonResponse (JContributions rows) 200 "https://example.org",
       Ex.registry_with (Ex.gift 100 80 false) 80 "203.0.113.5")
    /\ forall r, In r rows ->
                 contributor_ip (row r) = Some "198.51.100.9".
Proof.
  destruct (my_contributions_are_mine Ex.globals
              (Ex.guest "GET" "/api/my-contributions" "198.51.100.9" Ex.empty_body)
              (Ex.env Ex.silent)
              (Ex.registry_with (Ex.gift 100 80 false) 80 "203.0.113.5")
              ltac:(vm_compute; reflexivity) eq_refl eq_refl) as (rows & H & Hin).
  exists rows. split; [exact H|].
  intros r Hr. apply Hin in Hr as (_ & Hip & _). exact Hip.
Defined.

End Contributions.

(* ================================================================== *)
(** ** Creating and deleting items *)
(* ================================================================== *)

Section Items.

Local Open Scope float_scope.

(** The row that POST /api/items inserts. *)
Definition new_item (g : Globals) (b : Body) (total : float) : Item :=
  {| title := sanitise (b_title b) MAX_GENERIC_STRING;
     description := sanitise (b_description b) MAX_GENERIC_STRING;
     image_url := sanitise (b_image_url b) MAX_GENERIC_STRING;
     product_url := sanitise (b_product_url b) MAX_GENERIC_STRING;
     price_total := total; price_raised := 0; is_funded := false;
     created_at := datetime_now g |}.

(** X8.  POST /api/items by the admin.  A title that is missing or blank
    once sanitised is answered 400, and so is a price that is missing or
    negative; nothing is written.  For a finite price that is not negative
    (0 included) the answer is 201 with the new id, one more than the
    largest id handed out; the new item has the sanitised texts, nothing
    raised and is not funded; and every item that was stored is still
    stored, unchanged, as are the contributions.  A price that is not
    finite (NaN, Infinity) is bound as NULL: the store refuses the row and
    the handler throws. *)
Theorem create_item g request env origin db b :
  isAdmin request env = true ->
  json request = Some b ->
  store_ok db ->
  let bad m := Returns (jsonResponse (JError m) 400 origin) db in
  let id := (items_seq db + 1)%Z in
  (blank (sanitise (b_title b) MAX_GENERIC_STRING) = true ->
   handleCreateItem g request env origin db = bad "title is required")
  /\ (blank (sanitise (b_title b) MAX_GENERIC_STRING) = false ->
      (b_price_total b = None ->
       handleCreateItem g request env origin db = bad "price_total must be >= 0")
      /\ (forall total, b_price_total b = Some total ->
          ((total <? 0) = true ->
           handleCreateItem g request env origin db
           = bad "price_total must be >= 0")
          /\ ((total <? 0) = false -> Js.isFinite total = true ->
              exists db',
                handleCreateItem g request env origin db
                = Returns (jsonResponse (JId id) 201 origin) db'
                /\ items db !! id = None
                /\ items db' !! id = Some (new_item g b total)
                /\ (forall k it, items db !! k = Some it -> items db' !! k = Some it)
                /\ contributions db' = contributions db)
          /\ ((total <? 0) = false -> Js.isFinite total = false ->
              handleCreateItem g request env origin db = Throws))).
Proof.
  intros Hadmin Hjson Hok bad id. unfold handleCreateItem. rewrite Hadmin, Hjson.
  cbn [negb]. split; [intros ->; reflexivity|].
  intros Ht. rewrite Ht. split; [intros ->; reflexivity|].
  intros total ->. split; [intros ->; reflexivity|]. split.
  2:{ intros Hneg Hinf. rewrite Hneg. unfold Sql.exec.
      rewrite (nonneg_infinite _ Hinf), andb_false_r. reflexivity. }
  intros Hneg Hfin. rewrite Hneg. unfold Sql.exec, Sql.nonempty, Sql.nonneg.
  rewrite Ht, Hfin, (not_ltb_leb total 0 (finite_not_nan _ Hfin) eq_refl Hneg).
  cbn [negb andb commit].
  assert (Hfresh : items db !! id = None).
  { destruct (items db !! id) as [it|] eqn:E; [|reflexivity].
    pose proof (items_below_seq _ Hok _ _ E). unfold id in *. lia. }
  eexists. split; [reflexivity|]. split; [exact Hfresh|]. split; [|split].
  - cbn. apply lookup_insert_eq.
  - intros k it Hk. cbn. rewrite lookup_insert_ne; [exact Hk|].
    intros E. unfold id in *. rewrite <- E in Hk. congruence.
  - reflexivity.
Qed.

Lemma create_item_witness :
  exists db',
    handleCreateItem Ex.globals
      (Ex.admin "POST" "/api/items" "198.51.100.9"
         {| b_title := Some "Livro"; b_description := None; b_image_url := None;
            b_product_url := None; b_price_total := Some 0%float;
            b_is_funded := None; b_item_id := None; b_contributor_name := None;
            b_amount := None; b_message := None; b_history := None;
            b_password := None |})
      (Ex.env Ex.silent) "*" Ex.shop
    = Returns (jsonResponse (JId 2) 201 "*") db'
    /\ items db' !! 1%Z = Some (Ex.gift 100 80 false).
Proof.
  set (b := {| b_title := Some "Livro"; b_description := None; b_image_url := None;
               b_product_url := None; b_price_total := Some 0%float;
               b_is_funded := None; b_item_id := None; b_contributor_name := None;
               b_amount := None; b_message := None; b_history := None;
               b_password := None |}).
  destruct (create_item Ex.globals (Ex.admin "POST" "/api/items" "198.51.100.9" b)
              (Ex.env Ex.silent) "*" Ex.shop b
              ltac:(vm_compute; reflexivity) eq_refl
              ltac:(apply registry_ok, gift_ok; reflexivity)) as [_ H].
  destruct (H eq_refl) as [_ H'].
  destruct (H' 0%float eq_refl) as [_ H''].
  destruct H'' as [H'' _].
  destruct (H'' eq_refl eq_refl) as (db' & E & _ & _ & Hold & _).
  exists db'. split; [exact E|]. apply Hold. reflexivity.
Defined.

(** X9.  DELETE /api/items/:id by the admin is answered 200 whether or not
    the item exists.  Afterwards the item is gone together with every
    contribution to it, and every other item and every contribution to
    another item is stored as before; when no item had the id, the store is
    the one before. *)
Theorem delete_item_cascades g request env origin db id :
  isAdmin request env = true ->
  store_ok db ->
  exists db',
    handleDeleteItem g request env origin (Some id) db
    = Returns (jsonResponse JSuccess 200 origin) db'
    /\ items db' !! id = None
    /\ (forall k, k <> id -> items db' !! k = items db !! k)
    /\ (forall k c, contributions db' !! k = Some c <->
                    contributions db !! k = Some c /\ item_id c <> id)
    /\ (items db !! id = None -> db' = db).
Proof.
  intros Hadmin Hok. unfold handleDeleteItem. rewrite Hadmin. cbn.
  eexists. split; [reflexivity|]. cbn. split; [apply lookup_delete_eq|].
  split; [intros k Hk; apply lookup_delete_ne; congruence|]. split.
  - intros k c. rewrite map_lookup_filter_Some. reflexivity.
  - intros Hnone. destruct db as [its iseq cs cseq rl]. cbn in *.
    unfold set_contributions, set_items. cbn. f_equal.
    + apply delete_id, Hnone.
    + apply map_filter_id. intros k c Hc. cbn.
      destruct (contributions_ok _ Hok k c Hc) as (_ & _ & _ & [it Hit]).
      cbn in Hit. congruence.
Qed.

Lemma delete_item_cascades_witness :
  exists db',
    handleDeleteItem Ex.globals
      (Ex.admin "DELETE" "/api/items/1" "198.51.100.9" Ex.empty_body)
      (Ex.env Ex.silent) "*" (Some 1%Z)
      (Ex.registry_with (Ex.gift 100 80 false) 80 "203.0.113.5")
    = Returns (jsonResponse JSuccess 200 "*") db'
    /\ items db' !! 1%Z = None
    /\ contributions db' !! 7%Z = None.
Proof.
  destruct (delete_item_cascades Ex.globals
              (Ex.admin "DELETE" "/api/items/1" "198.51.100.9" Ex.empty_body)
              (Ex.env Ex.silent) "*"
              (Ex.registry_with (Ex.gift 100 80 false) 80 "203.0.113.5") 1%Z
              ltac:(vm_compute; reflexivity)
              ltac:(apply registry_with_ok; [apply gift_ok| |]; reflexivity))
    as (db' & E & Hi & _ & Hc & _).
  exists db'. split; [exact E|]. split; [exact Hi|].
  destruct (contributions db' !! 7%Z) as [c|] eqn:Hc7; [|reflexivity].
  apply Hc in Hc7 as [Hc7 Hne]. vm_compute in Hc7. inversion Hc7; subst.
  exfalso. apply Hne. reflexivity.
Defined.

End Items.

(* ================================================================== *)
(** ** Routes with an id *)
(* ================================================================== *)

Section IdRoutes.

(** What [fetch] makes of a handler's outcome. *)
Definition caught (env : Env) (db : DB) (o : Outcome) : Response * DB :=
  match o with
  | Returns r db' => (r, db')
  | Throws =>
      (jsonResponse (JError "Internal Server Error") 500
                    (default "*" (FRONTEND_ORIGIN env)), db)
  end.

Lemma contains_append_here c pre ds :
  Str.contains c (pre +:+ String c ds) = true.
Proof.
  induction pre as [|d pre IH];
    rewrite ?append_cons, ?append_nil; cbn [Str.contains].
  - rewrite Ascii.eqb_refl. reflexivity.
  - rewrite IH. apply orb_true_r.
Qed.

Lemma after_last_append c pre ds :
  Str.contains c ds = false -> Str.after_last c (pre +:+ String c ds) = ds.
Proof.
  intros Hds. induction pre as [|d pre IH];
    rewrite ?append_cons, ?append_nil; cbn [Str.after_last Str.contains].
  - rewrite Ascii.eqb_refl, Hds. reflexivity.
  - rewrite contains_append_here, orb_true_r. exact IH.
Qed.

Lemma digit_not_slash ds : Str.all Str.is_digit ds = true -> Str.contains "/" ds = false.
Proof.
  induction ds as [|c r IH]; cbn [Str.all Str.contains]; [reflexivity|].
  intros H. apply andb_prop in H as [Hc Hr]. rewrite (IH Hr), orb_false_r.
  destruct c as [[] [] [] [] [] [] [] []]; try reflexivity; discriminate.
Qed.

Lemma digits_nonneg s : forall acc, (0 <= acc -> 0 <= Str.digits acc s)%Z.
Proof.
  induction s as [|c r IH]; intros acc H; cbn [Str.digits]; [exact H|].
  destruct (Str.is_digit c); [|exact H]. apply IH. lia.
Qed.

(** Below 2^53 every integer is a double. *)
Lemma nearest_double_exact n : (0 <= n < 2 ^ 53)%Z -> Js.nearest_double n = n.
Proof.
  intros H. unfold Js.nearest_double.
  rewrite Z.abs_eq by lia.
  destruct (n <? 2 ^ 53)%Z eqn:E; [reflexivity|].
  apply Z.ltb_ge in E. lia.
Qed.

(** [parseInt] of a run of digits is the number they denote, as a
    double. *)
Lemma parseInt_digits ds :
  ds <> EmptyString -> Str.all Str.is_digit ds = true ->
  Str.parseInt ds = Some (Js.nearest_double (Str.digits 0 ds)).
Proof.
  destruct ds as [|c r]; [congruence|]. intros _ H. cbn in H.
  apply andb_prop in H as [Hc _]. unfold Str.parseInt. cbn [Str.trimStart].
  destruct c as [[] [] [] [] [] [] [] []]; try discriminate; reflexivity.
Qed.

Lemma extractId_digits pre ds :
  ds <> EmptyString -> Str.all Str.is_digit ds = true ->
  (Str.digits 0 ds < 2 ^ 53)%Z ->
  extractId (pre +:+ String "/" ds) = Some (Str.digits 0 ds).
Proof.
  intros Hne Hds Hlt. unfold extractId.
  rewrite after_last_append by (apply digit_not_slash, Hds).
  rewrite parseInt_digits by assumption.
  rewrite nearest_double_exact; [reflexivity|].
  split; [apply digits_nonneg; lia|exact Hlt].
Qed.

(** X10.  A path that ends in a run of digits denoting a number below
    2^53 reaches the handler of its route with that number: PUT and DELETE
    on /api/items/:id, DELETE on /api/contributions/:id and on
    /api/my-contributions/:id; what the handler throws is answered 500.
    (From 2^53 on the id is a double and may differ from the digits.) *)
Theorem id_routes g request env db ds :
  ds <> EmptyString -> Str.all Str.is_digit ds = true ->
  (Str.digits 0 ds < 2 ^ 53)%Z ->
  let origin := default "*" (FRONTEND_ORIGIN env) in
  let id := Some (Str.digits 0 ds) in
  (Str.toUpperCase (method request) = "PUT" ->
   pathname request = "/api/items/" +:+ ds ->
   fetch g request env db
   = caught env db (handleUpdateItem g request env origin id db))
  /\ (Str.toUpperCase (method request) = "DELETE" ->
      (pathname request = "/api/items/" +:+ ds ->
       fetch g request env db
       = caught env db (handleDeleteItem g request env origin id db))
      /\ (pathname request = "/api/contributions/" +:+ ds ->
          fetch g request env db
          = caught env db (handleAdminDeleteContribution g request env origin id db))
      /\ (pathname request = "/api/my-contributions/" +:+ ds ->
          fetch g request env db
          = caught env db (handleDeleteMyContribution g request env origin id db))).
Proof.
  intros Hne Hds Hlt origin id. unfold id.
  pose proof (extractId_digits "/api/items" ds Hne Hds Hlt) as E1.
  pose proof (extractId_digits "/api/contributions" ds Hne Hds Hlt) as E2.
  pose proof (extractId_digits "/api/my-contributions" ds Hne Hds Hlt) as E3.
  destruct ds as [|c r]; [congruence|].
  split; [intros Hm Hp|intros Hm; split; [|split]; intros Hp];
    unfold fetch, route; rewrite Hm, Hp.
  - change ("/api/items/" +:+ String c r) with ("/api/items" +:+ String "/" (String c r)).
    rewrite E1.
    cbv [String.append]. cbn -[Str.all]. rewrite Hds. reflexivity.
  - change ("/api/items/" +:+ String c r) with ("/api/items" +:+ String "/" (String c r)).
    rewrite E1.
    cbv [String.append]. cbn -[Str.all]. rewrite Hds. reflexivity.
  - change ("/api/contributions/" +:+ String c r)
      with ("/api/contributions" +:+ String "/" (String c r)).
    rewrite E2.
    cbv [String.append]. cbn -[Str.all]. rewrite Hds. reflexivity.
  - change ("/api/my-contributions/" +:+ String c r)
      with ("/api/my-contributions" +:+ String "/" (String c r)).
    rewrite E3.
    cbv [String.append]. cbn -[Str.all]. rewrite Hds. reflexivity.
Qed.

End IdRoutes.

(** Beyond 2^53 the id is rounded: the path names 9007199254740993 and
    the handler is given 9007199254740992. *)
Example rounded_id :
  extractId "/api/items/9007199254740993" = Some 9007199254740992%Z
  /\ extractId "/api/items/9007199254740995" = Some 9007199254740996%Z.
Proof. split; vm_compute; reflexivity. Qed.

Lemma id_routes_witness :
  fetch Ex.globals
    (Ex.guest "DELETE" "/api/my-contributions/7" "203.0.113.5" Ex.empty_body)
    (Ex.env Ex.silent) (Ex.registry_with (Ex.gift 100 80 false) 80 "203.0.113.5")
  = caught (Ex.env Ex.silent)
      (Ex.registry_with (Ex.gift 100 80 false) 80 "203.0.113.5")
      (handleDeleteMyContribution Ex.globals
         (Ex.guest "DELETE" "/api/my-contributions/7" "203.0.113.5" Ex.empty_body)
         (Ex.env Ex.silent) "https://example.org" (Some 7%Z)
         (Ex.registry_with (Ex.gift 100 80 false) 80 "203.0.113.5")).
Proof.
  destruct (id_routes Ex.globals
              (Ex.guest "DELETE" "/api/my-contributions/7" "203.0.113.5"
                        Ex.empty_body)
              (Ex.env Ex.silent)
              (Ex.registry_with (Ex.gift 100 80 false) 80 "203.0.113.5") "7"
              ltac:(discriminate) eq_refl eq_refl) as [_ H].
  destruct (H eq_refl) as (_ & _ & H'). exact (H' eq_refl).
Defined.

(* ================================================================== *)
(** ** The login counters are kept apart *)
(* ================================================================== *)

Section Counters.

(** X11.  A login attempt touches one counter only, that of the endpoint,
    the caller's address and the day: every other counter (another day,
    another address, the other endpoint) and the whole registry are left as
    they were.  The counters of the admin and of the guest endpoint never
    share a key. *)
Theorem login_attempt_is_local admin g request env origin db :
  let db' := after_attempt admin g request env origin db in
  (forall key, key <> (auth_identity admin request, todayUTC g) ->
               chat_rate_limit db' !! key = chat_rate_limit db !! key)
  /\ items db' = items db
  /\ contributions db' = contributions db
  /\ (forall request', auth_identity true request <> auth_identity false request').
Proof.
  intros db'. unfold db', after_attempt. rewrite auth_handler_unfold.
  split; [|split; [|split]].
  - intros key Hkey.
    destruct (10 <=? _)%Z; [reflexivity|].
    destruct (json request) as [b|]; [|reflexivity].
    destruct (match b_password b with Some _ => _ | None => _ end); cbn.
    + apply lookup_delete_ne. congruence.
    + apply lookup_insert_ne. congruence.
  - destruct (10 <=? _)%Z; [reflexivity|].
    destruct (json request) as [b|]; [|reflexivity].
    destruct (match b_password b with Some _ => _ | None => _ end); reflexivity.
  - destruct (10 <=? _)%Z; [reflexivity|].
    destruct (json request) as [b|]; [|reflexivity].
    destruct (match b_password b with Some _ => _ | None => _ end); reflexivity.
  - intros request'. unfold auth_identity. discriminate.
Qed.

(** Yesterday's ten failures do not lock the address out today. *)
Example new_day_new_counter :
  let locked :=
    set_chat_rate_limit {[ ("admin:203.0.113.5", "2026-03-31") := 10%Z ]} Ex.shop in
  (fetch Ex.globals Ex.right_login (Ex.env Ex.silent) locked).1
  = jsonResponse JSuccess 200 "https://example.org".
Proof. vm_compute. reflexivity. Qed.

End Counters.

Lemma login_attempt_is_local_witness :
  chat_rate_limit
    (after_attempt true Ex.globals Ex.wrong_login (Ex.env Ex.silent) "*"
       (set_chat_rate_limit {[ ("guest:203.0.113.5", "2026-04-01") := 3%Z ]} Ex.shop))
  !! ("guest:203.0.113.5", "2026-04-01") = Some 3%Z.
Proof.
  destruct (login_attempt_is_local true Ex.globals Ex.wrong_login (Ex.env Ex.silent)
              "*" (set_chat_rate_limit
                     {[ ("guest:203.0.113.5", "2026-04-01") := 3%Z ]} Ex.shop))
    as [H _].
  rewrite (H ("guest:203.0.113.5", "2026-04-01")).
  - vm_compute. reflexivity.
  - vm_compute. discriminate.
Defined.

(* ================================================================== *)
(** ** Sanitised input *)
(* ================================================================== *)

Section Sanitise.

Definition clean (c : ascii) : bool := negb (Str.is_control c).

Lemma slice0_length n s : (String.length (Str.slice0 n s) <= n)%nat.
Proof.
  revert s. induction n as [|n IH]; intros s; [destruct s; cbn; lia|].
  destruct s as [|c r]; cbn; [lia|]. specialize (IH r). lia.
Qed.

Lemma slice0_all p n s : Str.all p s = true -> Str.all p (Str.slice0 n s) = true.
Proof.
  revert s. induction n as [|n IH]; intros s H; [destruct s; reflexivity|].
  destruct s as [|c r]; [reflexivity|]. cbn in *.
  apply andb_prop in H as [Hc Hr]. rewrite Hc, (IH r Hr). reflexivity.
Qed.

Lemma trimStart_all p s : Str.all p s = true -> Str.all p (Str.trimStart s) = true.
Proof.
  induction s as [|c r IH]; intros H; [reflexivity|]. cbn.
  destruct (Str.is_space c); [|exact H].
  cbn in H. apply andb_prop in H as [_ Hr]. auto.
Qed.

Lemma trimEnd_all p s : Str.all p s = true -> Str.all p (Str.trimEnd s) = true.
Proof.
  induction s as [|c r IH]; intros H; [reflexivity|].
  cbn in H. apply andb_prop in H as [Hc Hr]. specialize (IH Hr). cbn.
  destruct (Str.trimEnd r) as [|d r'].
  - destruct (Str.is_space c); cbn; [reflexivity|]. rewrite Hc. reflexivity.
  - cbn in *. rewrite Hc, IH. reflexivity.
Qed.

Lemma map_all (f : ascii -> ascii) p s :
  (forall c, p (f c) = true) -> Str.all p (Str.map f s) = true.
Proof.
  intros H. induction s as [|c r IH]; [reflexivity|]. cbn. rewrite H, IH. reflexivity.
Qed.

(** The first character, when there is one, is not white space. *)
Definition starts_clean (s : string) : Prop :=
  match s with
  | EmptyString => True
  | String c _ => Str.is_space c = false
  end.

Lemma trimStart_head s : starts_clean (Str.trimStart s).
Proof.
  induction s as [|c r IH]; cbn; [exact I|].
  destruct (Str.is_space c) eqn:E; [exact IH|exact E].
Qed.

Lemma trimEnd_head s : starts_clean s -> starts_clean (Str.trimEnd s).
Proof.
  destruct s as [|c r]; cbn; [auto|]. intros H.
  destruct (Str.trimEnd r); [rewrite H|]; exact H.
Qed.

Lemma slice0_head n s : starts_clean s -> starts_clean (Str.slice0 n s).
Proof. destruct n, s; cbn; auto. Qed.

Lemma trimStart_spaces s :
  Str.all Str.is_space s = true -> Str.trimStart s = EmptyString.
Proof.
  induction s as [|c r IH]; [reflexivity|]. cbn. intros H.
  apply andb_prop in H as [Hc Hr]. rewrite Hc. auto.
Qed.

(** X12.  [sanitise] gives at most [maxLen] characters, none of them a
    control character, and not starting with white space; a value that is
    not a string, or that holds nothing but control characters and white
    space, gives the empty string, which the handlers treat as missing. *)
Theorem sanitise_is_clean value maxLen :
  (String.length (sanitise value maxLen) <= maxLen)%nat
  /\ Str.all clean (sanitise value maxLen) = true
  /\ starts_clean (sanitise value maxLen)
  /\ (forall v, value = Some v ->
        Str.all (fun c => Str.is_control c || Str.is_space c) v = true ->
        sanitise value maxLen = EmptyString)
  /\ (value = None -> sanitise value maxLen = EmptyString).
Proof.
  destruct value as [v|]; cbn [sanitise].
  - split; [apply slice0_length|]. split; [|split; [|split]].
    + apply slice0_all, trimEnd_all, trimStart_all, map_all.
      intros c. unfold clean. destruct (Str.is_control c) eqn:E; [reflexivity|].
      rewrite E. reflexivity.
    + apply slice0_head, trimEnd_head, trimStart_head.
    + intros v' E Hall. inversion E; subst v'. unfold Str.trim.
      rewrite trimStart_spaces; [destruct maxLen; reflexivity|].
      clear E. induction v as [|c r IH]; [reflexivity|].
      cbn in *. apply andb_prop in Hall as [Hc Hr]. rewrite (IH Hr), andb_true_r.
      destruct (Str.is_control c); [reflexivity|exact Hc].
    + discriminate.
  - split; [cbn; lia|]. split; [reflexivity|]. split; [exact I|].
    split; [intros v E; discriminate|reflexivity].
Qed.

(** A name of tabs and spaces is no name; and the cut at [maxLen] comes
    after the trimming, so a cut text may end in white space. *)
Example sanitise_examples :
  sanitise (Some (String (ascii_of_nat 9) "   ")) 100 = EmptyString
  /\ sanitise (Some "  Ana   Maria ") 100 = "Ana   Maria"
  /\ sanitise (Some "Ana Maria") 4 = "Ana ".
Proof. repeat split. Qed.

Lemma sanitise_is_clean_witness :
  sanitise (Some (String (ascii_of_nat 9) "   ")) MAX_NAME_LENGTH = EmptyString.
Proof.
  destruct (sanitise_is_clean (Some (String (ascii_of_nat 9) "   ")) MAX_NAME_LENGTH)
    as (_ & _ & _ & H & _).
  apply (H _ eq_refl). reflexivity.
Defined.

End Sanitise.

(* ================================================================== *)
(** ** What a caller without the admin secret can change *)
(* ================================================================== *)

Section Guests.

(** The same item as listed: everything but the raised amount and the
    funded flag. *)
Definition same_listing (it it' : Item) : Prop :=
  title it' = title it /\ description it' = description it
  /\ image_url it' = image_url it /\ product_url it' = product_url it
  /\ price_total it' = price_total it /\ created_at it' = created_at it.

(** The same items under the same ids, each listed as before. *)
Definition listing_kept (db db' : DB) : Prop :=
  forall id,
    match items db !! id, items db' !! id with
    | Some it, Some it' => same_listing it it'
    | None, None => True
    | _, _ => False
    end.

Lemma same_listing_refl it : same_listing it it.
Proof. repeat split. Qed.

Lemma listing_kept_refl db : listing_kept db db.
Proof. intros id. destruct (items db !! id); [apply same_listing_refl|exact I]. Qed.

Lemma listing_kept_trans db1 db2 db3 :
  listing_kept db1 db2 -> listing_kept db2 db3 -> listing_kept db1 db3.
Proof.
  intros H12 H23 id. specialize (H12 id). specialize (H23 id).
  destruct (items db1 !! id), (items db2 !! id), (items db3 !! id);
    try contradiction; auto.
  destruct H12 as (?&?&?&?&?&?), H23 as (?&?&?&?&?&?).
  repeat split; congruence.
Qed.

Lemma listing_kept_same_items db db' : items db' = items db -> listing_kept db db'.
Proof. intros E id. rewrite E. destruct (items db !! id); [apply same_listing_refl|exact I]. Qed.

Lemma listing_kept_funding db id it raised funded :
  items db !! id = Some it ->
  listing_kept db
    (set_items (<[id := set_funding raised funded it]> (items db)) (items_seq db) db).
Proof.
  intros Hit k. cbn. destruct (decide (id = k)) as [<-|Hne].
  - rewrite Hit, lookup_insert_eq. repeat split.
  - rewrite lookup_insert_ne by assumption.
    destruct (items db !! k); [apply same_listing_refl|exact I].
Qed.

(** The statements that the handlers open to guests issue. *)
Definition guest_statement (s : Statement) : Prop :=
  match s with
  | InsertItem _ _ _ _ _ | UpdateItem _ _ _ _ _ _ _ | DeleteItem _ => False
  | _ => True
  end.

Lemma exec_listing_kept now s db db' :
  guest_statement s -> Sql.exec now s db = Some db' -> listing_kept db db'.
Proof.
  destruct s; cbn [guest_statement Sql.exec]; try contradiction; intros _.
  - destruct (items db !! item); [|discriminate].
    destruct (_ && _); [|discriminate].
    intros E; inversion E. apply listing_kept_same_items. reflexivity.
  - destruct (items db !! id) as [it|] eqn:Hit.
    + destruct (Sql.nonneg raised); [|discriminate].
      intros E; inversion E. apply listing_kept_funding, Hit.
    + intros E; inversion E. apply listing_kept_refl.
  - intros E; inversion E. apply listing_kept_same_items. reflexivity.
  - destruct (items db !! item) as [it|] eqn:Hit.
    + destruct (Js.isFinite amt); [|discriminate].
      destruct (Sql.max0 _); [|discriminate].
      intros E; inversion E. apply listing_kept_funding, Hit.
    + intros E; inversion E. apply listing_kept_refl.
  - intros E; inversion E. apply listing_kept_same_items. reflexivity.
  - intros E; inversion E. apply listing_kept_same_items. reflexivity.
Qed.

Lemma batch_listing_kept now stmts : forall db db',
  Forall guest_statement stmts ->
  Sql.batch now stmts db = Some db' -> listing_kept db db'.
Proof.
  induction stmts as [|s rest IH]; intros db db' Hf; cbn.
  - intros E; inversion E. apply listing_kept_refl.
  - inversion Hf; subst. destruct (Sql.exec now s db) as [db1|] eqn:E1; [|discriminate].
    intros E. eapply listing_kept_trans; eauto using exec_listing_kept.
Qed.

Definition keeps_listing (db : DB) (o : Outcome) : Prop :=
  match o with
  | Returns _ db' => listing_kept db db'
  | Throws => True
  end.

Lemma commit_exec_listing r now s db :
  guest_statement s -> keeps_listing db (commit r (Sql.exec now s db)).
Proof.
  intros Hs. unfold commit.
  destruct (Sql.exec now s db) eqn:E; cbn; eauto using exec_listing_kept.
Qed.

Lemma commit_batch_listing r now stmts db :
  Forall guest_statement stmts ->
  keeps_listing db (commit r (Sql.batch now stmts db)).
Proof.
  intros Hs. unfold commit.
  destruct (Sql.batch now stmts db) eqn:E; cbn; eauto using batch_listing_kept.
Qed.

Ltac listing_branches :=
  repeat match goal with
         | |- keeps_listing _ (Returns _ _) => apply listing_kept_refl
         | |- keeps_listing _ Throws => exact I
         | |- keeps_listing _ (commit _ (Sql.exec _ _ _)) =>
             apply commit_exec_listing; exact I
         | |- keeps_listing _ (commit _ (Sql.batch _ _ _)) =>
             apply commit_batch_listing; repeat constructor
         | |- keeps_listing _ (if ?c then _ else _) => destruct c eqn:?
         | |- keeps_listing _ (match ?x with _ => _ end) => destruct x eqn:?
         | |- keeps_listing _ (let '(_, _) := ?x in _) => destruct x eqn:?
         end.

Lemma route_keeps_listing g request env origin db :
  isAdmin request env = false ->
  keeps_listing db (route g request env origin db).
Proof.
  intros Hadmin. unfold route.
  repeat match goal with
         | |- keeps_listing _ (if ?c then _ else _) => destruct c
         end.
  all: unfold handleGetItems, handleCreateItem, handleUpdateItem, handleDeleteItem,
         handleGetContributions, handleCreateContribution, handleGetMyContributions,
         handleDeleteMyContribution, handleAdminDeleteContribution, handleChat,
         handleAdminAuth, handleGuestAuth, handleAuth.
  all: rewrite ?Hadmin; cbn [negb andb].
  all: listing_branches.
Qed.

(** X13.  Without the admin secret no request creates, deletes or edits an
    item: after any request of a guest or an anonymous caller the store has
    the same item ids, and each item has its title, description, image and
    product links, price and creation time as before.  Only the raised
    amount and the funded flag can differ. *)
Theorem guests_change_funding_only g request env db :
  isAdmin request env = false ->
  listing_kept db (fetch g request env db).2.
Proof.
  intros Hadmin. unfold fetch.
  destruct (String.eqb _ "OPTIONS"); [apply listing_kept_refl|].
  pose proof (route_keeps_listing g request env
                (default "*" (FRONTEND_ORIGIN env)) db Hadmin) as H.
  destruct (route g request env _ db); [exact H|apply listing_kept_refl].
Qed.

(** A guest who tries to rename item 1. *)
Lemma guests_change_funding_only_witness :
  listing_kept Ex.shop
    (fetch Ex.globals
       (Ex.guest "PUT" "/api/items/1" "203.0.113.5" (Ex.patch (Some "Mine") None))
       (Ex.env Ex.silent) Ex.shop).2.
Proof.
  apply guests_change_funding_only. vm_compute. reflexivity.
Defined.

End Guests.

(* ================================================================== *)
(** ** What the requests that are not PUT or DELETE leave in place *)
(* ================================================================== *)

Section Funded.

(** Every funded item of [db] is in [db'] as it was. *)
Definition funded_kept (db db' : DB) : Prop :=
  forall id it,
    items db !! id = Some it -> is_funded it = true -> items db' !! id = Some it.

Definition keeps_funded (db : DB) (o : Outcome) : Prop :=
  match o with
  | Returns _ db' => funded_kept db db'
  | Throws => True
  end.

Lemma funded_kept_refl db : funded_kept db db.
Proof. intros id it H _. exact H. Qed.

Lemma funded_kept_same_items db db' : items db' = items db -> funded_kept db db'.
Proof. intros E id it H _. rewrite E. exact H. Qed.

Lemma commit_insert_item_funded r now t d i p total db :
  store_ok db ->
  keeps_funded db (commit r (Sql.exec now (InsertItem t d i p total) db)).
Proof.
  intros Hok. cbn [Sql.exec]. destruct (_ && _); cbn; [|exact I].
  intros id it Hit _. cbn. rewrite lookup_insert_ne; [exact Hit|].
  intros E. pose proof (items_below_seq db Hok id it Hit). lia.
Qed.

Lemma commit_pledge_funded r now itemId item name amt msg ip raised funded db :
  items db !! itemId = Some item -> is_funded item = false ->
  keeps_funded db
    (commit r (Sql.batch now [InsertContribution itemId name amt msg ip;
                              SetItemFunding raised funded itemId] db)).
Proof.
  intros Hitem Hopen. cbn [Sql.batch Sql.exec]. rewrite Hitem.
  destruct (_ && _); [|exact I]. cbn. rewrite Hitem.
  destruct (Sql.nonneg raised); cbn; [|exact I].
  intros id it Hit Hf. cbn. rewrite lookup_insert_ne; [exact Hit|].
  intros E. subst id. congruence.
Qed.

Lemma auth_keeps_funded prefix secret wrong g request origin db :
  keeps_funded db (handleAuth prefix secret wrong g request origin db).
Proof.
  unfold handleAuth.
  repeat match goal with
         | |- keeps_funded _ (Returns _ _) => apply funded_kept_refl
         | |- keeps_funded _ Throws => exact I
         | |- keeps_funded _ (commit _ (Sql.exec _ _ _)) =>
             cbn; apply funded_kept_same_items; reflexivity
         | |- keeps_funded _ (if ?c then _ else _) => destruct c eqn:?
         | |- keeps_funded _ (match ?x with _ => _ end) => destruct x eqn:?
         end.
Qed.

Lemma chat_keeps_funded g request env origin db :
  keeps_funded db (handleChat g request env origin db).
Proof.
  destruct (handleChat g request env origin db) as [r db'|] eqn:E; [|exact I].
  apply chat_never_writes in E. subst db'. apply funded_kept_refl.
Qed.

Lemma route_keeps_funded g request env origin db :
  store_ok db ->
  Str.toUpperCase (method request) <> "PUT" ->
  Str.toUpperCase (method request) <> "DELETE" ->
  keeps_funded db (route g request env origin db).
Proof.
  intros Hok Hput Hdel. unfold route.
  apply String.eqb_neq in Hput, Hdel. rewrite Hput, Hdel. cbn [andb].
  repeat match goal with
         | |- keeps_funded _ (if ?c then _ else _) => destruct c
         end.
  - unfold handleGetItems. apply funded_kept_refl.
  - unfold handleCreateItem.
    repeat match goal with
           | |- keeps_funded _ (Returns _ _) => apply funded_kept_refl
           | |- keeps_funded _ Throws => exact I
           | |- keeps_funded _ (commit _ _) =>
               apply commit_insert_item_funded; exact Hok
           | |- keeps_funded _ (if ?c then _ else _) => destruct c eqn:?
           | |- keeps_funded _ (match ?x with _ => _ end) => destruct x eqn:?
           end.
  - unfold handleGetContributions.
    destruct (negb _); apply funded_kept_refl.
  - unfold handleCreateContribution.
    repeat match goal with
           | |- keeps_funded _ (Returns _ _) => apply funded_kept_refl
           | |- keeps_funded _ Throws => exact I
           | |- keeps_funded _ (commit _ _) =>
               eapply commit_pledge_funded; eassumption
           | |- keeps_funded _ (if ?c then _ else _) => destruct c eqn:?
           | |- keeps_funded _ (match ?x with _ => _ end) => destruct x eqn:?
           end.
  - unfold handleGetMyContributions.
    destruct (negb _ && negb _); apply funded_kept_refl.
  - apply chat_keeps_funded.
  - apply auth_keeps_funded.
  - apply auth_keeps_funded.
  - apply funded_kept_refl.
Qed.

(** Every contribution of [db] is in [db'] under its id, as it was. *)
Definition contributions_kept (db db' : DB) : Prop :=
  forall id c, contributions db !! id = Some c -> contributions db' !! id = Some c.

Definition keeps_contributions (db : DB) (o : Outcome) : Prop :=
  match o with
  | Returns _ db' => contributions_kept db db'
  | Throws => True
  end.

Lemma contributions_kept_refl db : contributions_kept db db.
Proof. intros id c H. exact H. Qed.

Lemma contributions_kept_same db db' :
  contributions db' = contributions db -> contributions_kept db db'.
Proof. intros E id c H. rewrite E. exact H. Qed.

Lemma commit_pledge_contributions r now itemId name amt msg ip raised funded db :
  store_ok db ->
  keeps_contributions db
    (commit r (Sql.batch now [InsertContribution itemId name amt msg ip;
                              SetItemFunding raised funded itemId] db)).
Proof.
  intros Hok. cbn [Sql.batch Sql.exec].
  destruct (items db !! itemId) as [item|] eqn:Hitem; [|exact I].
  destruct (_ && _); [|exact I]. cbn. rewrite Hitem.
  destruct (Sql.nonneg raised); cbn; [|exact I].
  intros id c Hc. cbn. rewrite lookup_insert_ne; [exact Hc|].
  intros E. pose proof (contributions_below_seq db Hok id c Hc). lia.
Qed.

Lemma commit_item_contributions r now s db :
  match s with
  | InsertItem _ _ _ _ _ | UpdateItem _ _ _ _ _ _ _
  | DeleteAttempts _ _ | CountAttempt _ _ => True
  | _ => False
  end ->
  keeps_contributions db (commit r (Sql.exec now s db)).
Proof.
  destruct s; try contradiction; intros _; cbn [Sql.exec].
  - destruct (_ && _); cbn; [|exact I].
    apply contributions_kept_same. reflexivity.
  - destruct (items db !! id); [|apply contributions_kept_refl].
    destruct (Sql.flag funded); [|exact I].
    destruct (_ && _); cbn; [|exact I].
    apply contributions_kept_same. reflexivity.
  - apply contributions_kept_same. reflexivity.
  - apply contributions_kept_same. reflexivity.
Qed.

Ltac contributions_branches Hok :=
  repeat match goal with
         | |- keeps_contributions _ (Returns _ _) => apply contributions_kept_refl
         | |- keeps_contributions _ Throws => exact I
         | |- keeps_contributions _ (commit _ (Sql.exec _ _ _)) =>
             apply commit_item_contributions; exact I
         | |- keeps_contributions _ (commit _ (Sql.batch _ _ _)) =>
             apply commit_pledge_contributions; exact Hok
         | |- keeps_contributions _ (if ?c then _ else _) => destruct c eqn:?
         | |- keeps_contributions _ (match ?x with _ => _ end) => destruct x eqn:?
         end.

Lemma chat_keeps_contributions g request env origin db :
  keeps_contributions db (handleChat g request env origin db).
Proof.
  destruct (handleChat g request env origin db) as [r db'|] eqn:E; [|exact I].
  apply chat_never_writes in E. subst db'. apply contributions_kept_refl.
Qed.

Lemma route_keeps_contributions g request env origin db :
  store_ok db ->
  Str.toUpperCase (method request) <> "DELETE" ->
  keeps_contributions db (route g request env origin db).
Proof.
  intros Hok Hdel. unfold route.
  apply String.eqb_neq in Hdel. rewrite Hdel. cbn [andb].
  repeat match goal with
         | |- keeps_contributions _ (if ?c then _ else _) => destruct c
         end.
  all: try apply chat_keeps_contributions.
  all: unfold handleGetItems, handleCreateItem, handleUpdateItem,
         handleGetContributions, handleCreateContribution,
         handleGetMyContributions, handleAdminAuth, handleGuestAuth, handleAuth.
  all: contributions_branches Hok.
Qed.

End Funded.

(** X14.  Funded is final for every request that is not a PUT or a DELETE:
    in a well-formed store, whatever a GET, POST or other such request
    carries (a pledge, a new item, a chat turn, a login), every item that
    was funded before it is in the store afterwards exactly as it was.
    Only an admin edit, a deletion or a cancellation touches a funded
    item. *)
Theorem funded_items_stay_closed g request env db :
  store_ok db ->
  Str.toUpperCase (method request) <> "PUT" ->
  Str.toUpperCase (method request) <> "DELETE" ->
  funded_kept db (fetch g request env db).2.
Proof.
  intros Hok Hput Hdel. unfold fetch.
  destruct (String.eqb _ "OPTIONS"); [apply funded_kept_refl|].
  pose proof (route_keeps_funded g request env
                (default "*" (FRONTEND_ORIGIN env)) db Hok Hput Hdel) as H.
  destruct (route g request env _ db); [exact H|apply funded_kept_refl].
Qed.

(** A pledge of 50 on the funded item 1. *)
Lemma funded_items_stay_closed_witness :
  funded_kept (Ex.registry (Ex.gift 100 100 true))
    (fetch Ex.globals
       (Ex.guest "POST" "/api/contributions" "203.0.113.5" (Ex.pledge 1 "Ana" 50))
       (Ex.env Ex.silent) (Ex.registry (Ex.gift 100 100 true))).2.
Proof.
  apply funded_items_stay_closed.
  - apply registry_ok, gift_ok; reflexivity.
  - vm_compute. discriminate.
  - vm_compute. discriminate.
Defined.

(** X15.  Contributions are only ever removed by DELETE requests: in a
    well-formed store, after a request of any other method every stored
    contribution is still stored under its id, unchanged.  A new
    contribution gets a fresh id and overwrites none. *)
Theorem contributions_append_only g request env db :
  store_ok db ->
  Str.toUpperCase (method request) <> "DELETE" ->
  contributions_kept db (fetch g request env db).2.
Proof.
  intros Hok Hdel. unfold fetch.
  destruct (String.eqb _ "OPTIONS"); [apply contributions_kept_refl|].
  pose proof (route_keeps_contributions g request env
                (default "*" (FRONTEND_ORIGIN env)) db Hok Hdel) as H.
  destruct (route g request env _ db); [exact H|apply contributions_kept_refl].
Qed.

(** A second pledge from the same address keeps contribution 7. *)
Lemma contributions_append_only_witness :
  contributions_kept (Ex.registry_with (Ex.gift 100 30 false) 30 "203.0.113.5")
    (fetch Ex.globals
       (Ex.guest "POST" "/api/contributions" "203.0.113.5" (Ex.pledge 1 "Ana" 50))
       (Ex.env Ex.silent)
       (Ex.registry_with (Ex.gift 100 30 false) 30 "203.0.113.5")).2.
Proof.
  apply contributions_append_only.
  - apply registry_with_ok; [apply gift_ok| |]; reflexivity.
  - vm_compute. discriminate.
Defined.

(* ================================================================== *)
(** ** The admin's list of contributions *)
(* ================================================================== *)

Section AdminListing.

Lemma contributions_order_total a b :
  contributions_order a b = false -> contributions_order b a = true.
Proof.
  unfold contributions_order.
  match goal with
  | |- Sql.is_le ?ab = false -> Sql.is_le ?ba = true =>
      assert (E : ba = CompOpp ab)
  end.
  { rewrite then_cmp_opp.
    f_equal; [apply String.compare_antisym|apply Z.compare_antisym]. }
  rewrite E.
  match goal with
  | |- Sql.is_le ?x = false -> _ => destruct x; cbn; congruence
  end.
Qed.

(** Rows in the ORDER BY relation: the first is not older than the second. *)
Lemma contributions_order_newest a b :
  contributions_order a b = true ->
  String.compare (c_created_at (row a)) (c_created_at (row b)) <> Lt.
Proof.
  unfold contributions_order.
  rewrite (String.compare_antisym (c_created_at (row b)) (c_created_at (row a))).
  destruct (String.compare (c_created_at (row a)) (c_created_at (row b)));
    cbn; congruence.
Qed.

Lemma ordered_adjacent {A} (le : A -> A -> bool) l :
  ordered le l ->
  forall i a b, l !! i = Some a -> l !! S i = Some b -> le a b = true.
Proof.
  intros H. induction H as [|x|x y l Hxy H IH]; intros i a b Hi Hj.
  - destruct i; discriminate.
  - destruct i; discriminate.
  - destruct i as [|i].
    + cbn in Hi, Hj. congruence.
    + apply (IH i); assumption.
Qed.

(** X16.  GET /api/contributions is for the admin alone: any other caller
    is answered 401.  For the admin, in a well-formed store, the answer is
    200 with every stored contribution, each exactly as stored and with the
    title of its item: the join drops none, since every contribution names
    an existing item.  The rows come newest first. *)
Theorem all_contributions_for_admin g request env db :
  Str.toUpperCase (method request) = "GET" ->
  pathname request = "/api/contributions" ->
  (isAdmin request env = false ->
   fetch g request env db
   = (jsonResponse (JError "Unauthorized") 401 (default "*" (FRONTEND_ORIGIN env)),
      db))
  /\ (isAdmin request env = true -> store_ok db ->
      exists rows,
        fetch g request env db
        = (jsonResponse (JContributions rows) 200
             (default "*" (FRONTEND_ORIGIN env)), db)
        /\ (forall id c,
              contributions db !! id = Some c <->
              exists r, In r rows /\ row_id r = id /\ row r = c)
        /\ (forall r, In r rows ->
              exists it,
                items db !! item_id (row r) = Some it /\ item_title r = title it)
        /\ (forall i a b, rows !! i = Some a -> rows !! S i = Some b ->
              String.compare (c_created_at (row a)) (c_created_at (row b)) <> Lt)).
Proof.
  intros Hm Hp.
  assert (Hf : fetch g request env db
               = match handleGetContributions request env
                         (default "*" (FRONTEND_ORIGIN env)) db with
                 | Returns r db' => (r, db')
                 | Throws => (jsonResponse (JError "Internal Server Error") 500
                                (default "*" (FRONTEND_ORIGIN env)), db)
                 end).
  { unfold fetch, route. rewrite Hm, Hp. reflexivity. }
  rewrite Hf. unfold handleGetContributions. split.
  - intros Hadmin. rewrite Hadmin. reflexivity.
  - intros Hadmin Hok. rewrite Hadmin. cbn [negb].
    exists (select_contributions (fun _ => true) db).
    split; [reflexivity|]. split; [|split].
    + intros id c. split.
      * intros Hc.
        destruct (contributions_ok db Hok id c Hc) as (_ & _ & _ & [it Hit]).
        exists {| row_id := id; row := c; item_title := title it |}.
        split; [|split; reflexivity].
        apply select_contributions_spec. cbn. eauto.
      * intros (r & Hin & <- & <-).
        apply select_contributions_spec in Hin as (Hc & _). exact Hc.
    + intros r Hin. apply select_contributions_spec in Hin as (_ & _ & H). exact H.
    + intros i a b Hi Hj. apply contributions_order_newest.
      eapply ordered_adjacent; [|exact Hi|exact Hj].
      apply order_by_ordered, contributions_order_total.
Qed.

End AdminListing.

(** A guest asks for the list of all contributions. *)
Lemma all_contributions_for_admin_witness :
  fetch Ex.globals
    (Ex.guest "GET" "/api/contributions" "203.0.113.5" Ex.empty_body)
    (Ex.env Ex.silent) (Ex.registry_with (Ex.gift 100 80 false) 80 "203.0.113.5")
  = (jsonResponse (JError "Unauthorized") 401 "https://example.org",
     Ex.registry_with (Ex.gift 100 80 false) 80 "203.0.113.5").
Proof.
  apply (all_contributions_for_admin Ex.globals
           (Ex.guest "GET" "/api/contributions" "203.0.113.5" Ex.empty_body)
           (Ex.env Ex.silent)
           (Ex.registry_with (Ex.gift 100 80 false) 80 "203.0.113.5")
           eq_refl eq_refl).
  vm_compute. reflexivity.
Defined.

(* ================================================================== *)
(** ** Escaping in the pages *)
(* ================================================================== *)

Section Escaping.

Import Frontend.

(** The characters that [escHtml] replaces. *)
Definition markup (c : ascii) : bool :=
  Ascii.eqb c "&" || Ascii.eqb c "<" || Ascii.eqb c ">"
  || Ascii.eqb c quot || Ascii.eqb c "'".

(** What [escHtml] writes for one character. *)
Definition entity (c : ascii) : string :=
  if Ascii.eqb c "&" then "&amp;"
  else if Ascii.eqb c "<" then "&lt;"
  else if Ascii.eqb c ">" then "&gt;"
  else if Ascii.eqb c quot then "&quot;"
  else if Ascii.eqb c "'" then "&#39;"
  else String c EmptyString.

Lemma markup_cases c :
  (c = "&" \/ c = "<" \/ c = ">" \/ c = quot \/ c = "'")%char
  \/ (Ascii.eqb c "&" = false /\ Ascii.eqb c "<" = false
      /\ Ascii.eqb c ">" = false /\ Ascii.eqb c quot = false
      /\ Ascii.eqb c "'" = false).
Proof.
  destruct (Ascii.eqb_spec c "&"); [auto|].
  destruct (Ascii.eqb_spec c "<"); [auto|].
  destruct (Ascii.eqb_spec c ">"); [auto|].
  destruct (Ascii.eqb_spec c quot); [auto 6|].
  destruct (Ascii.eqb_spec c "'"); [auto 6|].
  right. repeat split; reflexivity.
Qed.

(** The five replacements in a row act on each character by itself: the
    entities written by one replacement hold no character that a later one
    replaces. *)
Lemma escHtml_cons c s :
  escHtml (Some (String c s)) = entity c +:+ escHtml (Some s).
Proof.
  unfold escHtml, entity. cbn [default from_option id].
  destruct (markup_cases c) as [[ -> | [ -> | [ -> | [ -> | -> ]]]] |(H1 & H2 & H3 & H4 & H5)].
  1-5: reflexivity.
  cbn [replace_all]. rewrite H1. cbn [replace_all]. rewrite H2.
  cbn [replace_all]. rewrite H3. cbn [replace_all]. rewrite H4.
  cbn [replace_all]. rewrite H5. reflexivity.
Qed.

Ltac entities :=
  unfold entity;
  repeat match goal with
         | H : Ascii.eqb _ _ = false |- _ => rewrite H
         end;
  change quot with (Ascii false true false false false true false false) in *;
  cbv [String.append Ascii.eqb Bool.eqb].

Lemma escHtml_inj_nil s : escHtml (Some s) = EmptyString -> s = EmptyString.
Proof.
  destruct s as [|c s]; [reflexivity|]. rewrite escHtml_cons.
  destruct (markup_cases c) as [[ -> | [ -> | [ -> | [ -> | -> ]]]] |(H1 & H2 & H3 & H4 & H5)];
    entities; discriminate.
Qed.

(** X17.  [escHtml] leaves no markup character in a text placed in a page:
    its result holds no [<], [>], double or single quote, whatever the
    argument is.  A text without any of the five replaced characters is
    returned as it is, [null] gives the empty text, and two different texts
    never get the same escaped form. *)
Theorem escHtml_is_safe :
  (forall str,
     Str.all (fun c => negb (Ascii.eqb c "<" || Ascii.eqb c ">"
                         || Ascii.eqb c quot || Ascii.eqb c "'"))
             (escHtml str) = true)
  /\ (forall s, Str.all (fun c => negb (markup c)) s = true -> escHtml (Some s) = s)
  /\ escHtml None = EmptyString
  /\ (forall s t, escHtml (Some s) = escHtml (Some t) -> s = t).
Proof.
  split; [|split; [|split]].
  - intros [s|]; [|reflexivity].
    induction s as [|c s IH]; [reflexivity|]. rewrite escHtml_cons.
    destruct (markup_cases c) as [[ -> | [ -> | [ -> | [ -> | -> ]]]] |(H1 & H2 & H3 & H4 & H5)].
    1-5: entities; cbn [Str.all negb orb andb]; exact IH.
    unfold entity. rewrite H1, H2, H3, H4, H5. cbv [String.append].
    cbn [Str.all]. rewrite H2, H3, H4, H5. exact IH.
  - induction s as [|c s IH]; [reflexivity|]. cbn [Str.all]. intros H.
    apply andb_prop in H as [Hc Hs]. rewrite escHtml_cons, (IH Hs).
    unfold markup in Hc. apply negb_true_iff in Hc.
    repeat (apply orb_false_elim in Hc as [Hc ?]).
    entities. reflexivity.
  - reflexivity.
  - induction s as [|c s IH]; intros t H.
    + symmetry. apply escHtml_inj_nil. rewrite <- H. reflexivity.
    + destruct t as [|d t]; [apply escHtml_inj_nil in H; discriminate|].
      rewrite !escHtml_cons in H.
      destruct (markup_cases c) as [[ -> | [ -> | [ -> | [ -> | -> ]]]] |(C1 & C2 & C3 & C4 & C5)];
      destruct (markup_cases d) as [[ -> | [ -> | [ -> | [ -> | -> ]]]] |(D1 & D2 & D3 & D4 & D5)];
      revert H; entities; intros H;
      first [ discriminate H
            | injection H as H; f_equal; apply IH; exact H
            | injection H; intros; subst; cbn in *;
              first [discriminate | f_equal; apply IH; assumption] ].
Qed.

End Escaping.

(* ================================================================== *)
(** ** A pledge and the list of one's own contributions *)
(* ================================================================== *)

Section PledgeThenList.

Local Open Scope float_scope.

Variables (g : Globals) (request request' : Request) (env : Env).
Variables (db : DB) (b : Body) (itemId : Z) (name : string) (amt : float).
Variable item : Item.

Hypothesis Hauth : authorised request env.
Hypothesis Hjson : json request = Some b.
Hypothesis Hvalid : valid_pledge b itemId name amt.
Hypothesis Hok : store_ok db.
Hypothesis Hitem : items db !! itemId = Some item.
Hypothesis Hopen : is_funded item = false.
Hypothesis Hrem : (0 <? price_total item - price_raised item) = true.

(** The contribution that the pledge stores. *)
Definition pledged_row : Contribution :=
  {| item_id := itemId; contributor_name := name;
     contributor_ip := Some (getIP request);
     amount := Js.Math_min amt (price_total item - price_raised item);
     message := sanitise (b_message b) MAX_MESSAGE_LENGTH;
     c_created_at := datetime_now g |}.

(** The store after the pledge. *)
Definition after_pledge : DB :=
  let applied := Js.Math_min amt (price_total item - price_raised item) in
  let new_raised := price_raised item + applied in
  set_items
    (<[itemId := set_funding new_raised (price_total item <=? new_raised) item]>
       (items db))
    (items_seq db)
    (set_contributions
       (<[(contributions_seq db + 1)%Z := pledged_row]> (contributions db))
       (contributions_seq db + 1)%Z db).

Hypothesis Hsum :
  Js.isFinite (price_raised item
               + Js.Math_min amt (price_total item - price_raised item)) = true.

Lemma pledge_stored origin :
  exists r, handleCreateContribution g request env origin db = Returns r after_pledge.
Proof.
  rewrite (contribution_applied g request env origin db b itemId name amt
             Hauth Hjson Hvalid item Hok Hitem Hopen Hrem Hsum).
  eexists. reflexivity.
Qed.

(** X18.  What a guest pledges shows up in the guest's own list.  After a
    valid pledge on an item that is not funded and has something
    remaining, with a new raised amount that is finite,
    GET /api/my-contributions from the same address answers
    200 with rows among which is the new contribution: under the fresh id,
    with the applied amount (the offer clipped to the remaining amount),
    the sanitised name, and the title of the item. *)
Theorem pledge_then_listed :
  Str.toUpperCase (method request) = "POST" ->
  pathname request = "/api/contributions" ->
  authorised request' env ->
  Str.toUpperCase (method request') = "GET" ->
  pathname request' = "/api/my-contributions" ->
  getIP request' = getIP request ->
  (fetch g request env db).2 = after_pledge
  /\ exists rows,
       fetch g request' env after_pledge
       = (jsonResponse (JContributions rows) 200 (default "*" (FRONTEND_ORIGIN env)),
          after_pledge)
       /\ In {| row_id := (contributions_seq db + 1)%Z; row := pledged_row;
                item_title := title item |} rows.
Proof.
  intros Hm Hp Hauth' Hm' Hp' Hip. split.
  - rewrite (fetch_create_contribution g request env db Hm Hp).
    destruct (pledge_stored (default "*" (FRONTEND_ORIGIN env))) as [r ->].
    reflexivity.
  - exists (select_contributions (owned_by (getIP request')) after_pledge). split.
    + unfold fetch, route. rewrite Hm', Hp'.
      cbn [String.eqb Ascii.eqb Bool.eqb andb Str.test_prefix_digits].
      unfold handleGetMyContributions, authorised in *.
      assert (Hg : negb (isGuest request' env) && negb (isAdmin request' env) = false).
      { destruct (isGuest request' env), (isAdmin request' env);
          simpl in *; congruence. }
      cbn. rewrite Hg. reflexivity.
    + apply select_contributions_spec. cbn [row_id row item_title].
      split; [|split].
      * cbn. apply lookup_insert_eq.
      * apply owned_by_spec. cbn. rewrite Hip. reflexivity.
      * exists (set_funding
                  (price_raised item
                   + Js.Math_min amt (price_total item - price_raised item))
                  (price_total item
                   <=? price_raised item
                       + Js.Math_min amt (price_total item - price_raised item))
                  item).
        split; [cbn; apply lookup_insert_eq|reflexivity].
Qed.

End PledgeThenList.

(** 50 offered on the item at 80 of 100: the list shows 20. *)
Lemma pledge_then_listed_witness :
  let pledge :=
    Ex.guest "POST" "/api/contributions" "203.0.113.5" (Ex.pledge 1 "Ana" 50) in
  let list :=
    Ex.guest "GET" "/api/my-contributions" "203.0.113.5" Ex.empty_body in
  exists rows,
    fetch Ex.globals list (Ex.env Ex.silent)
      (fetch Ex.globals pledge (Ex.env Ex.silent) Ex.shop).2
    = (jsonResponse (JContributions rows) 200 "https://example.org",
       (fetch Ex.globals pledge (Ex.env Ex.silent) Ex.shop).2)
    /\ exists r, In r rows /\ row_id r = 1 /\ amount (row r) = 20%float.
Proof.
  intros pledge list.
  destruct (pledge_then_listed Ex.globals pledge list (Ex.env Ex.silent) Ex.shop
              (Ex.pledge 1 "Ana" 50) 1 "Ana" 50%float (Ex.gift 100 80 false))
    as (Hdb & rows & Hrows & Hin).
  - vm_compute. reflexivity.
  - vm_compute. reflexivity.
  - split; first [reflexivity | vm_compute; reflexivity | discriminate].
  - apply registry_ok, gift_ok; reflexivity.
  - vm_compute. reflexivity.
  - reflexivity.
  - vm_compute. reflexivity.
  - vm_compute. reflexivity.
  - vm_compute. reflexivity.
  - vm_compute. reflexivity.
  - vm_compute. reflexivity.
  - vm_compute. reflexivity.
  - vm_compute. reflexivity.
  - vm_compute. reflexivity.
  - exists rows. rewrite Hdb. split; [exact Hrows|].
    eexists. split; [exact Hin|]. split; vm_compute; reflexivity.
Defined.
